(** * Record reconciliation pipeline of the business collector

    A shallow embedding of [src/utils/deduplication.js] (field and record
    normalisation, deduplication keys, merging, the deduplication loop),
    of the collector orchestrator ([collectFromAllSources], [quickCollect])
    and of the language-model orchestrator ([orchestrate]), followed by the
    properties of the reconciliation pipeline; then of the code around
    them: the Google Places collector ([src/collectors/google-places.js]),
    the confidence score of the OpenCorporates collector, the industry
    mapper and the handlers of [/run] in [server.js], with their
    properties.

    Conventions.
    - A JavaScript object used as a record is a finite map from property
      names to values ([gmap string value]); a missing property reads as
      [VUndef].
    - A [Map] whose iteration order is observed is an association list in
      insertion order.
    - A function that may throw returns a [completion].
    - Numbers are IEEE-754 binary64 data ([spec_float]): the pipeline only
      compares them; the confidence scores of the collectors add, multiply,
      divide and round them.
    - Strings are sequences of 8-bit characters read as ASCII: characters
      above 127 stand for non-ASCII text and are neither white space nor
      cased. *)

From Stdlib Require Import ZArith String Ascii List Bool Lia DecimalString.
From Stdlib Require Import Floats.SpecFloat Sorting.Sorted.
From stdpp Require Import gmap strings list fin_maps.

Local Open Scope string_scope.
Local Open Scope list_scope.

(** ** Strings *)

Module Str.

(** White space and line terminators removed by [String.prototype.trim]
    (TAB, LF, VT, FF, CR, SP). *)
Definition is_space (c : ascii) : bool :=
  let n := nat_of_ascii c in
  ((9 <=? n)%nat && (n <=? 13)%nat) || (n =? 32)%nat.

(** The class [\d] of the regular expressions. *)
Definition is_digit (c : ascii) : bool :=
  let n := nat_of_ascii c in (48 <=? n)%nat && (n <=? 57)%nat.

Definition upper_char (c : ascii) : ascii :=
  let n := nat_of_ascii c in
  if ((97 <=? n)%nat && (n <=? 122)%nat)%bool then ascii_of_nat (n - 32) else c.

Definition lower_char (c : ascii) : ascii :=
  let n := nat_of_ascii c in
  if ((65 <=? n)%nat && (n <=? 90)%nat)%bool then ascii_of_nat (n + 32) else c.

Fixpoint map_chars (f : ascii -> ascii) (s : string) : string :=
  match s with
  | EmptyString => EmptyString
  | String c s' => String (f c) (map_chars f s')
  end.

Definition toUpperCase : string -> string := map_chars upper_char.
Definition toLowerCase : string -> string := map_chars lower_char.

Fixpoint trimStart (s : string) : string :=
  match s with
  | EmptyString => EmptyString
  | String c s' => if is_space c then trimStart s' else s
  end.

Fixpoint trimEnd (s : string) : string :=
  match s with
  | EmptyString => EmptyString
  | String c s' =>
      match trimEnd s' with
      | EmptyString => if is_space c then EmptyString else String c EmptyString
      | t => String c t
      end
  end.

Definition trim (s : string) : string := trimEnd (trimStart s).

(** A string that does not begin with white space. *)
Definition no_lead (s : string) : Prop :=
  match s with
  | EmptyString => True
  | String c _ => is_space c = false
  end.

(** [s.replace(/\D/g, '')] *)
Fixpoint digits_of (s : string) : string :=
  match s with
  | EmptyString => EmptyString
  | String c s' => if is_digit c then String c (digits_of s') else digits_of s'
  end.

Fixpoint startsWith (s p : string) {struct p} : bool :=
  match p with
  | EmptyString => true
  | String a p' =>
      match s with
      | EmptyString => false
      | String b s' => Ascii.eqb a b && startsWith s' p'
      end
  end.

(** [s.replace(/\/$/, '')]: one trailing slash is dropped. *)
Fixpoint strip_trailing_slash (s : string) : string :=
  match s with
  | EmptyString => EmptyString
  | String c EmptyString => if Ascii.eqb c "/" then EmptyString else s
  | String c s' => String c (strip_trailing_slash s')
  end.

Fixpoint drop (n : nat) (s : string) : string :=
  match n, s with
  | O, _ => s
  | S n', String _ s' => drop n' s'
  | S _, EmptyString => EmptyString
  end.

(** [s.replace(/^https?:\/\/www\./, 'https://')] *)
Definition strip_www (s : string) : string :=
  if startsWith s "https://www." then "https://" +:+ drop 12 s
  else if startsWith s "http://www." then "https://" +:+ drop 11 s
  else s.

(** [parts.join(sep)] on strings. *)
Fixpoint join (sep : string) (parts : list string) : string :=
  match parts with
  | [] => ""
  | [p] => p
  | p :: rest => p +:+ sep +:+ join sep rest
  end.

(** The class [\w] of the regular expressions. *)
Definition is_word (c : ascii) : bool :=
  let n := nat_of_ascii c in
  ((48 <=? n)%nat && (n <=? 57)%nat) || ((65 <=? n)%nat && (n <=? 90)%nat)
  || (n =? 95)%nat || ((97 <=? n)%nat && (n <=? 122)%nat).

(** [s.split(sep)] for a separator of one character. *)
Fixpoint split (sep : ascii) (s : string) : list string :=
  match s with
  | EmptyString => [EmptyString]
  | String c s' =>
      if Ascii.eqb c sep then EmptyString :: split sep s'
      else match split sep s' with
           | p :: ps => String c p :: ps
           | [] => [String c EmptyString]
           end
  end.

(** [s.includes(sub)] *)
Fixpoint includes (s sub : string) : bool :=
  Str.startsWith s sub
  || match s with
     | EmptyString => false
     | String _ s' => includes s' sub
     end.

(** The first [n] characters when they are all digits, and what follows. *)
Fixpoint digits_then (n : nat) (s : string) : option (string * string) :=
  match n with
  | O => Some (EmptyString, s)
  | S n' =>
      match s with
      | String c s' =>
          if Str.is_digit c
          then match digits_then n' s' with
               | Some (d, rest) => Some (String c d, rest)
               | None => None
               end
          else None
      | EmptyString => None
      end
  end.

(** [\b] after a word character: the end of the string or a character
    that is not a word character. *)
Definition word_ends (rest : string) : bool :=
  match rest with
  | EmptyString => true
  | String c _ => negb (is_word c)
  end.

(** [s.match(re)] for a regular expression [re] that begins with [\b]
    and then asks for a word character: the leftmost place, not preceded
    by a word character, where [here] matches.  [after_word] says whether
    the character in front of [s] is a word character. *)
Fixpoint word_search (here : string -> option string) (after_word : bool) (s : string)
  : option string :=
  match s with
  | EmptyString => None
  | String c s' =>
      match (if after_word then None else here s) with
      | Some m => Some m
      | None => word_search here (is_word c) s'
      end
  end.

End Str.

(** ** Values and completions *)

Abbreviation number := spec_float.

(** The values a record field can hold.  An array or a plain object held in
    a field is opaque to this program: none of the methods called below
    ([trim], [replace], [startsWith], [toLowerCase], ...) exists on it, so
    all that is observed is its truthiness, its [typeof] and the string it
    converts to, which [VObject] carries. *)
Inductive value : Type :=
  | VUndef
  | VNull
  | VBool (b : bool)
  | VNum (x : number)
  | VStr (s : string)
  | VObject (repr : string).

#[global] Instance value_inhabited : Inhabited value := populate VUndef.

Inductive exn : Type :=
  | TypeError (message : string)
  | Error (message : string).

Definition message_of (e : exn) : string :=
  match e with TypeError m | Error m => m end.

Inductive completion (A : Type) : Type :=
  | Normal (a : A)
  | Throw (e : exn).
Arguments Normal {A} a.
Arguments Throw {A} e.

#[global] Instance completion_ret : MRet completion := @Normal.
#[global] Instance completion_bind : MBind completion := λ A B k c,
  match c with
  | Normal a => k a
  | Throw e => Throw e
  end.

(** [try { body } catch (e) { handler e }] *)
Definition try_catch {A} (body : completion A) (handler : exn -> completion A)
  : completion A :=
  match body with
  | Normal a => Normal a
  | Throw e => handler e
  end.

Definition is_nan (x : number) : bool :=
  match x with S754_nan => true | _ => false end.

Definition is_zero (x : number) : bool :=
  match x with S754_zero _ => true | _ => false end.

(** ToBoolean *)
Definition truthy (v : value) : bool :=
  match v with
  | VUndef | VNull => false
  | VBool b => b
  | VNum x => negb (is_zero x || is_nan x)
  | VStr s => negb (String.eqb s "")
  | VObject _ => true
  end.

(** [a || b] *)
Definition js_or (a b : value) : value := if truthy a then a else b.

(** [typeof v === 'number'] *)
Definition is_number (v : value) : bool :=
  match v with VNum _ => true | _ => false end.

(** The literal [n/d] read as a double (correctly rounded quotient). *)
Definition dec (n d : Z) : number :=
  SFdiv 53 1024 (binary_normalize 53 1024 n 0 false)
                (binary_normalize 53 1024 d 0 false).

Definition num_zero : number := S754_zero false.
Definition num_half : number := Eval vm_compute in dec 1 2.
Definition num_one : number := Eval vm_compute in dec 1 1.

Abbreviation record := (gmap string value).

(** The [Map] named [seen] of the deduplication loop, in insertion order. *)
Abbreviation seen_map := (list (string * record)).

(** [record.key] *)
Definition get (o : record) (key : string) : value := default VUndef (o !! key).

(** ** Field normalizers ([src/utils/deduplication.js]) *)

(** [v?.trim()] *)
Definition opt_trim (field : string) (v : value) : completion value :=
  match v with
  | VUndef | VNull => Normal VUndef
  | VStr s => Normal (VStr (Str.trim s))
  | _ => Throw (TypeError ("record." +:+ field +:+ "?.trim is not a function"))
  end.

(** [v?.toUpperCase()] and [v?.toLowerCase()] applied to the result of
    [opt_trim], which is a string or [undefined]. *)
Definition opt_case (f : string -> string) (v : value) : value :=
  match v with
  | VStr s => VStr (f s)
  | _ => VUndef
  end.

Definition normalizePhone (phone : value) : completion value :=
  if negb (truthy phone) then Normal VNull
  else match phone with
       | VStr p =>
           let digits := Str.digits_of p in
           if (String.length digits =? 10)%nat then Normal (VStr ("+1" +:+ digits))
           else if (String.length digits =? 11)%nat && Str.startsWith digits "1"
                then Normal (VStr ("+" +:+ digits))
           else if Str.startsWith p "+" then Normal (VStr p)
           else Normal (VStr ("+" +:+ digits))
       | _ => Throw (TypeError "phone.replace is not a function")
       end.

(** ** Conversions and comparison *)

Section Platform.

(** The built-ins of the platform the program calls and this development
    does not define: [new URL(s).href] ([None] when the constructor throws),
    Number::toString, StringToNumber, and the results of the calls of
    [Date.now()] and [Math.random()], indexed by the call. *)
Variable URL_href : string -> option string.
Variable Number_toString : number -> string.
Variable StringToNumber : string -> number.
Variable Date_now Math_random : nat -> number.

(** ToString, as template literals and [join] apply it. *)
Definition ToString (v : value) : string :=
  match v with
  | VUndef => "undefined"
  | VNull => "null"
  | VBool true => "true"
  | VBool false => "false"
  | VNum x => Number_toString x
  | VStr s => s
  | VObject repr => repr
  end.

(** ToPrimitive: an array or plain object converts to its string. *)
Definition ToPrimitive (v : value) : value :=
  match v with VObject repr => VStr repr | _ => v end.

Definition ToNumber (v : value) : number :=
  match ToPrimitive v with
  | VUndef => S754_nan
  | VNull => num_zero
  | VBool true => num_one
  | VBool false => num_zero
  | VNum x => x
  | VStr s => StringToNumber s
  | VObject _ => S754_nan
  end.

(** [a > b]: strings compare by code units, anything else numerically;
    a comparison with NaN is false. *)
Definition js_gt (a b : value) : bool :=
  match ToPrimitive a, ToPrimitive b with
  | VStr s, VStr t => String.ltb t s
  | pa, pb => SFltb (ToNumber pb) (ToNumber pa)
  end.

(** ** Record normalizer *)

Definition normalizeUrl (url : value) : value :=
  if negb (truthy url) then VNull
  else match url with
       | VStr u =>
           (* the parameter is reassigned before parsing, and the handler
              returns the reassigned variable *)
           let url' :=
             if negb (Str.startsWith u "http://") && negb (Str.startsWith u "https://")
             then "https://" +:+ u else u in
           match URL_href url' with
           | Some href => VStr (Str.strip_www (Str.strip_trailing_slash href))
           | None => VStr url'
           end
       | _ => url  (* [url.startsWith] is not a function: caught *)
       end.

Definition normalizeRecord (r : record) : completion record :=
  business_name ← opt_trim "business_name" (get r "business_name");
  category ← opt_trim "category" (get r "category");
  street ← opt_trim "street" (get r "street");
  city ← opt_trim "city" (get r "city");
  state ← opt_trim "state" (get r "state");
  postal_code ← opt_trim "postal_code" (get r "postal_code");
  country ← opt_trim "country" (get r "country");
  phone ← normalizePhone (get r "phone");
  email ← opt_trim "email" (get r "email");
  source_url ← opt_trim "source_url" (get r "source_url");
  notes ← opt_trim "notes" (get r "notes");
  Normal
    (<["business_name" := js_or business_name VNull]>
    (<["category" := js_or category VNull]>
    (<["street" := js_or street VNull]>
    (<["city" := js_or city VNull]>
    (<["state" := js_or (opt_case Str.toUpperCase state) VNull]>
    (<["postal_code" := js_or postal_code VNull]>
    (<["country" := js_or (opt_case Str.toUpperCase country) (VStr "US")]>
    (<["phone" := phone]>
    (<["email" := js_or (opt_case Str.toLowerCase email) VNull]>
    (<["website" := normalizeUrl (get r "website")]>
    (<["source_url" := js_or source_url VNull]>
    (<["confidence" := if is_number (get r "confidence")
                       then get r "confidence" else VNum num_half]>
    (<["notes" := js_or notes VNull]> ∅))))))))))))).


(** ** Deduplication key *)

(** [v.toLowerCase()] on a value that is not nullish. *)
Definition call_toLowerCase (v : value) : completion string :=
  match v with
  | VStr s => Normal (Str.toLowerCase s)
  | _ => Throw (TypeError "record.business_name.toLowerCase is not a function")
  end.

(** [v?.toLowerCase()] *)
Definition opt_toLowerCase (v : value) : completion value :=
  match v with
  | VUndef | VNull => Normal VUndef
  | VStr s => Normal (VStr (Str.toLowerCase s))
  | _ => Throw (TypeError "record.business_name?.toLowerCase is not a function")
  end.

(** [tick] counts the calls: the last tier reads the clock and the random
    generator of that call. *)
Definition getDeduplicationKey (tick : nat) (r : record) : completion string :=
  if truthy (get r "website") then
    Normal ("website:" +:+ ToString (get r "website"))
  else if truthy (get r "business_name") && truthy (get r "phone")
          && truthy (get r "postal_code") then
    name ← call_toLowerCase (get r "business_name");
    Normal ("composite:" +:+ name +:+ ":" +:+ ToString (get r "phone")
            +:+ ":" +:+ ToString (get r "postal_code"))
  else if truthy (get r "business_name") && truthy (get r "postal_code") then
    name ← call_toLowerCase (get r "business_name");
    Normal ("name-zip:" +:+ name +:+ ":" +:+ ToString (get r "postal_code"))
  else if truthy (get r "source_url") then
    name ← opt_toLowerCase (get r "business_name");
    Normal ("source:" +:+ ToString (get r "source_url") +:+ ":"
            +:+ ToString (js_or name (VStr "unknown")))
  else
    Normal ("unique:" +:+ Number_toString (Date_now tick) +:+ ":"
            +:+ Number_toString (Math_random tick)).

(** ** Merging *)

(** [[existing.notes, incoming.notes].filter(Boolean).join(' | ')] *)
Definition merge_notes (existing incoming : record) : value :=
  VStr (Str.join " | "
          (ToString <$> List.filter truthy [get existing "notes"; get incoming "notes"])).

(** The body of the [forEach] over [Object.keys(incoming)]; [v] is
    [incoming[key]]. *)
Definition fill_gap (key : string) (v : value) (merged : record) : record :=
  if negb (truthy (get merged key)) && truthy v
  then <[key := v]> merged
  else merged.

Definition mergeRecords (existing incoming : record) : record :=
  if js_gt (get incoming "confidence") (get existing "confidence") then
    (* { ...existing, ...incoming, notes } *)
    <["notes" := merge_notes existing incoming]> (incoming ∪ existing)
  else
    let merged := map_fold fill_gap existing incoming in
    <["notes" := merge_notes existing incoming]> merged.

(** ** Deduplication engine *)

Fixpoint Map_get (seen : seen_map) (key : string) : option record :=
  match seen with
  | [] => None
  | (k, v) :: rest => if String.eqb k key then Some v else Map_get rest key
  end.

(** [seen.set(key, v)]: a key already there keeps its place. *)
Fixpoint Map_set (seen : seen_map) (key : string) (v : record) : seen_map :=
  match seen with
  | [] => [(key, v)]
  | (k, x) :: rest =>
      if String.eqb k key then (k, v) :: rest else (k, x) :: Map_set rest key v
  end.

Fixpoint dedup_loop (tick : nat) (records : list record) (seen : seen_map)
  : completion seen_map :=
  match records with
  | [] => Normal seen
  | r :: rest =>
      key ← getDeduplicationKey tick r;
      match Map_get seen key with
      | Some existing =>
          dedup_loop (S tick) rest (Map_set seen key (mergeRecords existing r))
      | None => dedup_loop (S tick) rest (Map_set seen key r)
      end
  end.

Definition deduplicateRecords (records : list record) : completion (list record) :=
  seen ← dedup_loop 0 records [];
  Normal (seen.*2).

(** ** Result sets *)

(** What a [meta] object holds.  The timing entries ([generated_at],
    [execution_time_ms]) read the wall clock and are left out. *)
Inductive meta_value : Type :=
  | MValue (v : value)
  | MCount (n : nat)
  | MNames (names : list string)
  | MErrors (errs : list (string * string)).

(** [result.rows]: an array of records, or anything else.  (A row that is
    [null] makes [normalizeRecord] throw like a row with an ill-typed field
    does.) *)
Inductive rows_field : Type :=
  | RowsArray (rows : list record)
  | RowsOther.

Record ResultSet : Type := {
  meta : gmap string meta_value;
  rows : rows_field }.

(** ** Collector orchestrator ([collectFromAllSources], [quickCollect]) *)

(** The sign of the double [x - y] as [Array.prototype.sort] reads it.  The
    difference of two doubles other than NaN is positive, zero or negative
    as [x] is greater than, equal to or less than [y] (there is no underflow
    to zero); [Infinity - Infinity] and any difference with NaN is NaN,
    which the sort reads as [+0]. *)
Definition sub_sign (x y : number) : comparison :=
  match SFcompare x y with
  | Some c => c
  | None => Eq
  end.

(** [r.confidence || 0], as the subtraction converts it. *)
Definition confidence_or_zero (r : record) : number :=
  ToNumber (js_or (get r "confidence") (VNum num_zero)).

(** [(a, b) => (b.confidence || 0) - (a.confidence || 0)] *)
Definition by_confidence (a b : record) : comparison :=
  sub_sign (confidence_or_zero b) (confidence_or_zero a).

(** [Array.prototype.sort] is stable: with a consistent comparator its
    result is that of the stable insertion sort below.  With a comparator
    that is not consistent (here: when a confidence converts to NaN, whose
    differences the sort reads as zero) the language leaves the order to the
    implementation; [Array_sort] then gives one of the possible results, and
    only what holds of every arrangement of the elements is to be read off
    it. *)
Fixpoint sort_insert {A} (cmp : A -> A -> comparison) (x : A) (l : list A) : list A :=
  match l with
  | [] => [x]
  | y :: l' =>
      match cmp x y with
      | Gt => y :: sort_insert cmp x l'
      | _ => x :: l
      end
  end.

Definition Array_sort {A} (cmp : A -> A -> comparison) (l : list A) : list A :=
  foldr (sort_insert cmp) [] l.

(** [l.slice(0, stop)] for an integer [stop]. *)
Definition Array_slice0 {A} (stop : Z) (l : list A) : list A :=
  let len := Z.of_nat (length l) in
  let final := if (stop <? 0)%Z then Z.max (len + stop) 0 else Z.min stop len in
  take (Z.to_nat final) l.

(** The [meta] object of [collectFromAllSources]. *)
Definition collect_meta (category geography : value) (found : nat)
    (sourcesUsed : list string) (errors : list (string * string))
  : gmap string meta_value :=
  let m := <["category" := MValue category]>
           (<["geography" := MValue geography]>
           (<["total_found" := MCount found]>
           (<["sources_used" := MNames sourcesUsed]> ∅))) in
  (* errors: errors.length > 0 ? errors : undefined *)
  if (0 <? length errors)%nat then <["errors" := MErrors errors]> m
  else <["errors" := MValue VUndef]> m.

(** One [try] block of [collectFromAllSources] around a fetcher; the state
    is [(allResults, sourcesUsed, errors)]. *)
Definition gather (source : string) (fetched : completion (list record))
    (st : list record * list string * list (string * string))
  : list record * list string * list (string * string) :=
  let '(allResults, sourcesUsed, errors) := st in
  match fetched with
  | Normal results =>
      if (0 <? length results)%nat
      then ((allResults ++ results)%list, (sourcesUsed ++ [source])%list, errors)
      else st
  | Throw e => (allResults, sourcesUsed, (errors ++ [(source, message_of e)])%list)
  end.

(** Steps 3 and 4 of [collectFromAllSources] and its [return]. *)
Definition finish_collection (category geography : value) (maxResults : Z)
    (st : list record * list string * list (string * string))
  : completion ResultSet :=
  let '(allResults, sourcesUsed, errors) := st in
  deduplicated ← deduplicateRecords allResults;
  let sorted := Array_slice0 maxResults (Array_sort by_confidence deduplicated) in
  Normal {| meta := collect_meta category geography (length sorted) sourcesUsed errors;
            rows := RowsArray sorted |}.

(** [collectFromAllSources] (first document of the collectors' index file:
    OpenCorporates is disabled).  [api_key] says whether
    [GOOGLE_MAPS_API_KEY] is set; [google] is what the call of
    [fetchFromGooglePlaces] does. *)
Definition collectFromAllSources (category geography : value)
    (maxResults : option Z) (api_key : bool) (google : completion (list record))
  : completion ResultSet :=
  let maxResults := default 100%Z maxResults in
  let st := if api_key then gather "Google Places" google ([], [], [])
            else ([], [], []) in
  finish_collection category geography maxResults st.

(** [collectFromAllSources] in the revision that also queries
    OpenCorporates (second document of the same file). *)
Definition collectFromAllSources_both (category geography : value)
    (maxResults : option Z) (api_key : bool)
    (google opencorporates : completion (list record))
  : completion ResultSet :=
  let maxResults := default 100%Z maxResults in
  let st := if api_key then gather "Google Places" google ([], [], [])
            else ([], [], []) in
  let st := gather "OpenCorporates" opencorporates st in
  finish_collection category geography maxResults st.

(** The [meta] object of [quickCollect]. *)
Definition quick_meta (category geography : value) (found : nat)
    (sourcesUsed : list string) : gmap string meta_value :=
  <["category" := MValue category]>
  (<["geography" := MValue geography]>
  (<["total_found" := MCount found]>
  (<["sources_used" := MNames sourcesUsed]> ∅))).

Definition quickCollect (category geography : value) (api_key : bool)
    (google opencorporates : completion (list record)) : completion ResultSet :=
  let fallback :=
    try_catch
      (results ← opencorporates;
       Normal {| meta := quick_meta category geography (length results) ["OpenCorporates"];
                 rows := RowsArray results |})
      (λ _, Normal {| meta := <["error" := MValue (VStr "All data sources failed")]>
                                (quick_meta category geography 0 []);
                      rows := RowsArray [] |}) in
  if api_key then
    match google with
    | Normal results =>
        if (0 <? length results)%nat
        then Normal {| meta := quick_meta category geography (length results) ["Google Places"];
                       rows := RowsArray results |}
        else fallback
    | Throw _ => fallback
    end
  else fallback.

(** ** Language-model orchestrator ([orchestrate]) *)

(** The parsed answer of the language model: [None] for a JSON [null],
    otherwise its [rows] and its [meta] ([None] when [meta] is missing or
    [null]). *)
Record llm_result : Type := {
  result_rows : rows_field;
  result_meta : option (gmap string meta_value) }.

(** [result.meta], to one of whose properties the code is about to assign. *)
Definition meta_of (what : string) (r : llm_result)
  : completion (gmap string meta_value) :=
  match result_meta r with
  | Some m => Normal m
  | None => Throw (TypeError ("Cannot set properties of undefined (setting '"
                              +:+ what +:+ "')"))
  end.

(** The [try] block of [orchestrate].  [llm] is what [buildUserPrompt],
    [callLLM] and [parseLLMResponse] do, one after the other. *)
Definition orchestrate_try (llm : completion (option llm_result))
  : completion ResultSet :=
  parsed ← llm;
  result ← match parsed with
           | Some r => Normal r
           | None => Throw (TypeError "Cannot read properties of null (reading 'rows')")
           end;
  result ← match result_rows result with
           | RowsArray raw =>
               normalized ← mapM normalizeRecord raw;
               let beforeDedup := length normalized in
               deduplicated ← deduplicateRecords normalized;
               let afterDedup := length deduplicated in
               m ← meta_of "total_found" result;
               Normal {| result_rows := RowsArray deduplicated;
                         result_meta := Some
                           (<["duplicates_removed" := MCount (beforeDedup - afterDedup)]>
                           (<["deduplication_applied" := MValue (VBool true)]>
                           (<["total_found" := MCount afterDedup]> m))) |}
           | RowsOther => Normal result
           end;
  m ← meta_of "execution_time_ms" result;
  Normal {| meta := <["orchestrator_version" := MValue (VStr "1.0.0")]> m;
            rows := result_rows result |}.

(** [orchestrate(params)], [params] being an object as at every call;
    [maxResults] is only written into the prompt. *)
Definition orchestrate (category geography : value) (maxResults : option Z)
    (llm : completion (option llm_result)) : completion ResultSet :=
  try_catch (orchestrate_try llm)
    (λ error,
       Normal {| meta := <["category" := MValue category]>
                         (<["geography" := MValue geography]>
                         (<["total_found" := MCount 0]>
                         (<["sources_used" := MNames []]>
                         (<["error" := MValue (VStr (message_of error))]> ∅))));
                 rows := RowsArray [] |}).

(** The record literal built by [fetchFromGooglePlaces] for one place; the
    arguments are the values of its sub-expressions. *)
Definition google_business (name category street city state postal_code phone
    website source_url confidence notes place_id rating reviews types
    operational : value) : record :=
  <["business_name" := name]>
  (<["category" := category]>
  (<["street" := street]>
  (<["city" := city]>
  (<["state" := state]>
  (<["postal_code" := postal_code]>
  (<["country" := VStr "USA"]>
  (<["phone" := phone]>
  (<["email" := VNull]>
  (<["website" := website]>
  (<["source_url" := source_url]>
  (<["confidence" := confidence]>
  (<["notes" := notes]>
  (<["google_place_id" := place_id]>
  (<["google_rating" := rating]>
  (<["google_reviews" := reviews]>
  (<["google_types" := types]>
  (<["is_operational" := operational]> ∅))))))))))))))))).

End Platform.

(** ** A model of the platform for closed examples

    The theorems below hold for every platform.  Closed examples need one;
    this one answers on the inputs the examples use and says so when an
    input is outside what it covers. *)

Module Model.

Inductive url_outcome : Type :=
  | Href (href : string)   (* the constructor succeeds, with this [href] *)
  | Invalid                (* the constructor throws *)
  | Uncovered.             (* outside the fragment modelled here *)

Definition is_letter (c : ascii) : bool :=
  let n := nat_of_ascii c in
  ((65 <=? n)%nat && (n <=? 90)%nat) || ((97 <=? n)%nat && (n <=? 122)%nat).

(** Characters that make the host parser fail wherever they stand in a host:
    a space and [< > ^ |] are forbidden host code points. *)
Definition forbidden_host_char (c : ascii) : bool :=
  existsb (Ascii.eqb c) [" "; "<"; ">"; "^"; "|"]%char.

(** Characters whose treatment is not modelled: control characters (some
    are removed from the input), non-ASCII text (IDNA), and the delimiters
    of credentials, ports, IPv6 literals and percent-escapes. *)
Definition unmodelled_char (c : ascii) : bool :=
  let n := nat_of_ascii c in
  (n <? 32)%nat || (127 <=? n)%nat
  || existsb (Ascii.eqb c) ["@"; ":"; "["; "]"; "%"]%char.

Definition path_char (c : ascii) : bool :=
  is_letter c || Str.is_digit c || existsb (Ascii.eqb c) ["/"; "-"; "_"]%char.

Fixpoint all_chars (p : ascii -> bool) (s : string) : bool :=
  match s with
  | EmptyString => true
  | String c s' => p c && all_chars p s'
  end.

Fixpoint any_char (p : ascii -> bool) (s : string) : bool :=
  match s with
  | EmptyString => false
  | String c s' => p c || any_char p s'
  end.

(** The authority ends at the first of [/ ? # \]. *)
Fixpoint split_authority (s : string) : string * string :=
  match s with
  | EmptyString => (EmptyString, EmptyString)
  | String c s' =>
      if existsb (Ascii.eqb c) ["/"; "?"; "#"; "\"]%char then (EmptyString, s)
      else let '(h, p) := split_authority s' in (String c h, p)
  end.

(** Labels of letters separated by single dots: a host that is neither an
    IPv4 address nor in need of IDNA processing. *)
Fixpoint plain_labels (fresh : bool) (s : string) : bool :=
  match s with
  | EmptyString => negb fresh
  | String c s' =>
      if Ascii.eqb c "." then negb fresh && plain_labels true s'
      else is_letter c && plain_labels false s'
  end.

(** [new URL(s)] for [s] made of the scheme [http] or [https], a host of
    dot-separated labels of letters, and a path of letters, digits, [/],
    [-] and [_]: the host is lower-cased and an empty path becomes [/].
    A host holding a forbidden code point makes the constructor throw
    (spaces at the very end of the input are removed before parsing, so
    they are set aside when nothing follows the host). *)
Definition parse_url (s : string) : url_outcome :=
  let go (scheme rest : string) :=
    let '(host, path) := split_authority rest in
    let checked := if String.eqb path "" then Str.trimEnd host else host in
    if any_char unmodelled_char rest || String.eqb checked "" then Uncovered
    else if any_char forbidden_host_char checked then Invalid
    else if plain_labels true host && all_chars path_char path then
      Href (scheme +:+ Str.toLowerCase host
            +:+ (if String.eqb path "" then "/" else path))
    else Uncovered in
  if Str.startsWith s "https://" then go "https://" (Str.drop 8 s)
  else if Str.startsWith s "http://" then go "http://" (Str.drop 7 s)
  else Uncovered.

Definition URL_href (s : string) : option string :=
  match parse_url s with
  | Href h => Some h
  | _ => None
  end.

(** The integer a double denotes, when it is one. *)
Definition integer_of (x : number) : option Z :=
  match x with
  | S754_zero _ => Some 0%Z
  | S754_finite s m e =>
      let z := if s then Z.neg m else Z.pos m in
      if (0 <=? e)%Z then Some (z * 2 ^ e)%Z
      else if (Z.pos m mod 2 ^ (- e) =? 0)%Z then Some (z / 2 ^ (- e))%Z
      else None
  | _ => None
  end.

(** Number::toString on NaN, the infinities and the integers below [10^21];
    other numbers are not covered and print as the empty string. *)
Definition Number_toString (x : number) : string :=
  match x with
  | S754_nan => "NaN"
  | S754_infinity false => "Infinity"
  | S754_infinity true => "-Infinity"
  | _ =>
      match integer_of x with
      | Some z =>
          if (Z.abs z <? 10 ^ 21)%Z
          then (if (z <? 0)%Z then "-" else "")
               +:+ DecimalString.NilZero.string_of_uint (N.to_uint (Z.to_N (Z.abs z)))
          else ""
      | None => ""
      end
  end.

Fixpoint digits_value (acc : Z) (s : string) : Z :=
  match s with
  | EmptyString => acc
  | String c s' => digits_value (10 * acc + Z.of_nat (nat_of_ascii c - 48)) s'
  end.

(** StringToNumber on the empty string and on strings of decimal digits;
    every other string is read as NaN, which is what the platform answers
    for text that is not a numeric literal. *)
Definition StringToNumber (s : string) : number :=
  if String.eqb s "" then num_zero
  else if all_chars Str.is_digit s then binary_normalize 53 1024 (digits_value 0 s) 0 false
  else S754_nan.

(** A clock that advances by one millisecond per call from a fixed date and
    a generator that answers a different double at each call. *)
Definition Date_now (tick : nat) : number :=
  binary_normalize 53 1024 (1700000000000 + Z.of_nat tick) 0 false.

Definition Math_random (tick : nat) : number :=
  dec 1 (2 + Z.of_nat tick).

End Model.

(** ** Google Places collector ([src/collectors/google-places.js]) *)

(** The state codes of the regular expression of [extractState]. *)
Definition state_codes : list string :=
  ["AL"; "AK"; "AZ"; "AR"; "CA"; "CO"; "CT"; "DC"; "DE"; "FL"; "GA"; "HI"; "IA";
   "ID"; "IL"; "IN"; "KS"; "KY"; "LA"; "MA"; "MD"; "ME"; "MI"; "MN"; "MO"; "MS";
   "MT"; "NC"; "ND"; "NE"; "NH"; "NJ"; "NM"; "NV"; "NY"; "OH"; "OK"; "OR"; "PA";
   "PR"; "RI"; "SC"; "SD"; "TN"; "TX"; "UT"; "VA"; "VI"; "VT"; "WA"; "WI"; "WV";
   "WY"].

(** [/\b(AL|AK|...)\b/i] at the start of [s]: two characters that spell a
    state code whatever their case, followed by a word boundary.  The
    boundary in front is checked by the caller. *)
Definition state_here (s : string) : option string :=
  match s with
  | String a (String b rest) =>
      let two := String a (String b EmptyString) in
      if existsb (String.eqb (Str.toUpperCase two)) state_codes && Str.word_ends rest
      then Some two else None
  | _ => None
  end.

(** [address.match(re)] for that expression: its leftmost match. *)
Definition state_match : bool -> string -> option string :=
  Str.word_search state_here.

(** [/\b(\d{5})(?:-\d{4})?\b/] at the start of [s]; the value is the
    group [(\d{5})]. *)
Definition zip_here (s : string) : option string :=
  match Str.digits_then 5 s with
  | Some (zip, rest) =>
      let plus4 :=
        match rest with
        | String "-" r =>
            match Str.digits_then 4 r with
            | Some (_, r') => Str.word_ends r'
            | None => false
            end
        | _ => false
        end in
      if plus4 || Str.word_ends rest then Some zip else None
  | None => None
  end.

(** [address.match(re)] for that expression: its leftmost match. *)
Definition zip_match : bool -> string -> option string :=
  Str.word_search zip_here.

Definition extractCity (address : value) : completion value :=
  if negb (truthy address) then Normal VNull
  else match address with
       | VStr a =>
           let parts := Str.trim <$> Str.split "," a in
           if (3 <=? length parts)%nat
           then Normal (default VUndef (VStr <$> parts !! (length parts - 3)%nat))
           else Normal VNull
       | _ => Throw (TypeError "address.split is not a function")
       end.

Definition extractState (address : value) : completion value :=
  if negb (truthy address) then Normal VNull
  else match address with
       | VStr a =>
           match state_match false a with
           | Some m => Normal (VStr (Str.toUpperCase m))
           | None => Normal VNull
           end
       | _ => Throw (TypeError "address.match is not a function")
       end.

Definition extractZip (address : value) : completion value :=
  if negb (truthy address) then Normal VNull
  else match address with
       | VStr a =>
           match zip_match false a with
           | Some m => Normal (VStr m)
           | None => Normal VNull
           end
       | _ => Throw (TypeError "address.match is not a function")
       end.

(** *** Arithmetic on doubles *)

Definition num_add : number -> number -> number := SFadd 53 1024.
Definition num_mul : number -> number -> number := SFmul 53 1024.
Definition num_div : number -> number -> number := SFdiv 53 1024.

(** [Math.round]: the nearest integer, a tie going up; a result of zero
    keeps the sign of the argument. *)
Definition Math_round (x : number) : number :=
  match x with
  | S754_finite s m e =>
      if (0 <=? e)%Z then x
      else
        let z := if s then Z.neg m else Z.pos m in
        let n := ((2 * z + 2 ^ (- e)) / 2 ^ (1 - e))%Z in
        if (n =? 0)%Z then S754_zero s
        else binary_normalize 53 1024 n 0 false
  | _ => x
  end.

(** [Math.min(x, y)] *)
Definition Math_min (x y : number) : number :=
  if is_nan x || is_nan y then S754_nan
  else match SFcompare x y with
       | Some Lt => x
       | Some Gt => y
       | _ => match x, y with
              | S754_zero true, _ => x
              | _, S754_zero true => y
              | _, _ => x
              end
       end.

(** What the details request for a place answers: [response.data.status]
    and [response.data.result] ([None] when there is none). *)
Abbreviation details_response := (completion (value * option record)).

Section GooglePlaces.

Variable Number_toString : number -> string.
Variable StringToNumber : string -> number.

(** [v >= y] for a number [y]. *)
Definition js_ge_number (v : value) (y : number) : bool :=
  SFleb y (ToNumber StringToNumber v).

(** [details?.key]; [details] is [None] for [null] or [undefined]. *)
Definition opt_get (details : option record) (key : string) : value :=
  match details with
  | Some d => get d key
  | None => VUndef
  end.

(** [v === 'text'] *)
Definition is_string (text : string) (v : value) : bool :=
  match v with
  | VStr s => String.eqb s text
  | _ => false
  end.

Definition calculateConfidence (place : record) (details : option record) : number :=
  let score := dec 5 10 in
  let score := if truthy (get place "rating") && js_ge_number (get place "rating") (dec 4 1)
               then num_add score (dec 15 100) else score in
  let score := if truthy (get place "user_ratings_total")
                  && js_ge_number (get place "user_ratings_total") (dec 10 1)
               then num_add score (dec 1 10) else score in
  let score := if is_string "OPERATIONAL" (get place "business_status")
               then num_add score (dec 1 10) else score in
  let score := if truthy (opt_get details "website")
               then num_add score (dec 1 10) else score in
  let score := if truthy (opt_get details "formatted_phone_number")
               then num_add score (dec 5 100) else score in
  Math_min (dec 1 1) (num_div (Math_round (num_mul score (dec 100 1))) (dec 100 1)).

(** A place of a search response: its properties, and its [types], an
    array or missing. *)
Record place : Type := {
  place_fields : record;
  place_types : option (list value) }.

(** [response.data] of a search request. *)
Record places_page : Type := {
  page_status : value;
  page_results : option (list (place * details_response));
  page_next : value }.

Definition getPlaceDetails (response : details_response) : completion (option record) :=
  data ← response;
  Normal (if is_string "OK" data.1 then data.2 else None).

(** [detailedInfo] after the inner [try] of the loop. *)
Definition place_details (p : place) (response : details_response) : option record :=
  if truthy (get (place_fields p) "place_id") then
    match getPlaceDetails response with
    | Normal d => d
    | Throw _ => None
    end
  else None.

(** [array.join(sep)] *)
Definition Array_join (sep : string) (l : list value) : string :=
  Str.join sep ((fun v => match v with
                          | VUndef | VNull => ""
                          | _ => ToString Number_toString v
                          end) <$> l).

(** The object literal [business] of the loop. *)
Definition place_business (category : value) (p : place) (detailedInfo : option record)
  : completion record :=
  let f := place_fields p in
  let address := get f "formatted_address" in
  city ← extractCity address;
  state ← extractState address;
  postal_code ← extractZip address;
  Normal
    (google_business
       (get f "name") category
       (js_or (js_or (opt_get detailedInfo "formatted_address") address) VNull)
       city state postal_code
       (js_or (js_or (opt_get detailedInfo "formatted_phone_number")
                     (opt_get detailedInfo "international_phone_number")) VNull)
       (js_or (opt_get detailedInfo "website") VNull)
       (VStr ("https://www.google.com/maps/place/?q=place_id:"
              +:+ ToString Number_toString (get f "place_id")))
       (VNum (calculateConfidence f detailedInfo))
       (VStr ("Rating: " +:+ ToString Number_toString (js_or (get f "rating") (VStr "N/A"))
              +:+ " (" +:+ ToString Number_toString
                             (js_or (get f "user_ratings_total") (VNum num_zero))
              +:+ " reviews)"))
       (get f "place_id") (get f "rating") (get f "user_ratings_total")
       (match place_types p with
        | Some l => VStr (Array_join ", " l)
        | None => VUndef
        end)
       (VBool (is_string "OPERATIONAL" (get f "business_status")))).

Section Fetch.

Variable category : value.
Variable maxResults : Z.

(** The [n]-th search request. *)
Variable search : nat -> completion places_page.

(** The [for] loop over the places of a page.  The result is the array
    [results] and whether an exception left the loop. *)
Fixpoint add_places (places : list (place * details_response)) (results : list record)
  : list record * bool :=
  match places with
  | [] => (results, false)
  | (p, response) :: rest =>
      match place_business category p (place_details p response) with
      | Throw _ => (results, true)
      | Normal business =>
          let results := results ++ [business] in
          if (maxResults <=? Z.of_nat (length results))%Z then (results, false)
          else add_places rest results
      end
  end.

(** The [while] loop, inside its [try]; [None] when [fuel] turns of the
    loop were not enough. *)
Fixpoint fetch_pages (fuel : nat) (page : nat) (results : list record)
  : option (list record) :=
  if (Z.of_nat (length results) <? maxResults)%Z then
    match fuel with
    | O => None
    | S fuel' =>
        match search page with
        | Throw _ => Some results
        | Normal data =>
            if negb (is_string "OK" (page_status data))
               && negb (is_string "ZERO_RESULTS" (page_status data))
            then Some results
            else match page_results data with
                 | None | Some [] => Some results
                 | Some places =>
                     let '(results', thrown) := add_places places results in
                     if thrown then Some results'
                     else if negb (truthy (page_next data)) then Some results'
                     else fetch_pages fuel' (S page) results'
                 end
        end
    end
  else Some results.

End Fetch.

(** [fetchFromGooglePlaces({ category, location, maxResults })];
    [api_key] says whether [GOOGLE_MAPS_API_KEY] is set.  The loop is given
    one turn per record asked for. *)
Definition fetchFromGooglePlaces (api_key : bool) (category : value)
    (maxResults : option Z) (search : nat -> completion places_page)
  : option (list record) :=
  let maxResults := default 100%Z maxResults in
  if api_key then fetch_pages category maxResults search (Z.to_nat maxResults) 0 []
  else Some [].

End GooglePlaces.

(** ** OpenCorporates collector ([src/collectors/opencorporates.js]) *)

Module OpenCorporates.

(** [/active|good standing/i.test(s)] *)
Definition active_test (s : string) : bool :=
  Str.includes (Str.toLowerCase s) "active"
  || Str.includes (Str.toLowerCase s) "good standing".

(** [s.match(/(\d{4})/)]: the first four digits in a row. *)
Fixpoint year_match (s : string) : option string :=
  match Str.digits_then 4 s with
  | Some (year, _) => Some year
  | None =>
      match s with
      | EmptyString => None
      | String _ s' => year_match s'
      end
  end.

Section Confidence.

Variable Number_toString : number -> string.

(** [new Date().getFullYear()] at the call. *)
Variable currentYear : Z.

(** [calculateConfidence(company)] *)
Definition calculateConfidence (company : record) : completion number :=
  let score := dec 4 10 in
  let status := get company "current_status" in
  let score := if truthy status && active_test (ToString Number_toString status)
               then num_add score (dec 3 10) else score in
  let date := get company "incorporation_date" in
  score ←
    (if truthy date then
       match date with
       | VStr d =>
           match year_match d with
           | Some yearText =>
               (* [parseInt] of four digits *)
               let year := Model.digits_value 0 yearText in
               if (currentYear - year <=? 5)%Z then Normal (num_add score (dec 15 100))
               else if (currentYear - year <=? 10)%Z then Normal (num_add score (dec 1 10))
               else Normal score
           | None => Normal score
           end
       | _ => Throw (TypeError "company.incorporation_date.match is not a function")
       end
     else Normal score);
  let score := if truthy (get company "registered_address_in_full")
               then num_add score (dec 15 100) else score in
  Normal (Math_min (dec 1 1) (num_div (Math_round (num_mul score (dec 100 1))) (dec 100 1))).

End Confidence.

End OpenCorporates.

(** ** HTTP handlers ([server.js]) *)

(** What a handler of [/run] answers. *)
Inductive http_response : Type :=
  | BadRequest (error : string)
  | Ok (result : ResultSet)
  | ServerError (error message : string).

(** [v ? v.split(',') : undefined]; the array goes into the prompt, so that
    only the completion is kept. *)
Definition split_param (name : string) (v : value) : completion unit :=
  if truthy v then
    match v with
    | VStr _ => Normal tt
    | _ => Throw (TypeError (name +:+ ".split is not a function"))
    end
  else Normal tt.

Section Handlers.

Variable URL_href : string -> option string.
Variable Number_toString : number -> string.
Variable StringToNumber : string -> number.
Variable Date_now Math_random : nat -> number.

(** [parseInt], whose result is only written into the prompt. *)
Variable parseInt : value -> option Z.

Local Abbreviation orch :=
  (orchestrate URL_href Number_toString StringToNumber Date_now Math_random).

(** [app.get('/run', ...)]; [query] is [req.query]. *)
Definition get_run (query : record) (llm : completion (option llm_result))
  : http_response :=
  let category := get query "category" in
  let max := match get query "max" with
             | VUndef => VNum (dec 500 1)
             | v => v
             end in
  let location := js_or (get query "geo") (get query "geography") in
  if negb (truthy category) || negb (truthy location)
  then BadRequest "Missing required parameters"
  else
    match (_ ← split_param "synonyms" (get query "synonyms");
           _ ← split_param "sources" (get query "sources");
           orch category location (parseInt max) llm) with
    | Normal result => Ok result
    | Throw e => ServerError "Collection failed" (message_of e)
    end.

(** [app.post('/run', ...)]; [body] is [req.body], and [maxResults] what
    it holds under that name, 500 when it holds nothing. *)
Definition post_run (body : record) (maxResults : option Z)
    (llm : completion (option llm_result)) : http_response :=
  let category := get body "category" in
  let geography := get body "geography" in
  if negb (truthy category) || negb (truthy geography)
  then BadRequest "Missing required fields"
  else
    match orch category geography (Some (default 500%Z maxResults)) llm with
    | Normal result => Ok result
    | Throw e => ServerError "Collection failed" (message_of e)
    end.

End Handlers.

(** ** Industry mapper *)

(** The object literal [INDUSTRY_MAPPINGS], in the order of its
    properties. *)
Definition INDUSTRY_MAPPINGS : list (string * string) :=
  [("lawn care", "lawn care service");
   ("landscaping", "landscaping company");
   ("tree trimming", "tree service");
   ("tree removal", "tree removal service");
   ("pool cleaning", "pool cleaning service");
   ("pool maintenance", "pool maintenance service");
   ("pest control", "pest control service");
   ("pressure washing", "pressure washing service");
   ("roofing", "roofing contractor");
   ("gutter", "gutter cleaning service");
   ("gutter services", "gutter installation and repair");
   ("painting", "painting contractor");
   ("painter", "painting contractor");
   ("plumbing", "plumber");
   ("plumber", "plumber");
   ("electrical", "electrician");
   ("electrician", "electrician");
   ("hvac", "HVAC contractor");
   ("air conditioning", "air conditioning contractor");
   ("heating", "heating contractor");
   ("garage door", "garage door repair");
   ("handyman", "handyman service");
   ("flooring", "flooring contractor");
   ("tile installation", "tile contractor");
   ("fence installation", "fence contractor");
   ("fence repair", "fence repair service");
   ("carpet cleaning", "carpet cleaning service");
   ("window cleaning", "window cleaning service");
   ("junk removal", "junk removal service");
   ("home remodeling", "home remodeling contractor");
   ("renovation", "home renovation contractor");
   ("cleaning", "cleaning service");
   ("appliance repair", "appliance repair service");
   ("real estate agent", "real estate agent");
   ("realtor", "real estate agent");
   ("property manager", "property management company");
   ("apartment", "apartment complex");
   ("home inspector", "home inspection service");
   ("mortgage", "mortgage lender");
   ("loan officer", "mortgage broker");
   ("title company", "title company");
   ("real estate photographer", "real estate photography service");
   ("drone operator", "drone photography service");
   ("chiropractor", "chiropractor");
   ("dentist", "dentist");
   ("orthodontist", "orthodontist");
   ("physical therapist", "physical therapy clinic");
   ("massage", "massage therapist");
   ("med spa", "medical spa");
   ("hair salon", "hair salon");
   ("barbershop", "barber shop");
   ("nail salon", "nail salon");
   ("personal trainer", "personal trainer");
   ("gym", "gym");
   ("fitness", "fitness center");
   ("nutritionist", "nutritionist");
   ("dietician", "dietitian");
   ("counseling", "counseling service");
   ("therapy", "therapist");
   ("insurance agent", "insurance agency");
   ("financial advisor", "financial planner");
   ("accountant", "accounting firm");
   ("tax preparer", "tax preparation service");
   ("lawyer", "law firm");
   ("attorney", "attorney");
   ("legal", "legal services");
   ("notary", "notary public");
   ("consultant", "business consultant");
   ("coach", "business coach");
   ("auto repair", "auto repair shop");
   ("car repair", "auto repair shop");
   ("car detailing", "auto detailing service");
   ("mechanic", "auto repair shop");
   ("mobile mechanic", "mobile mechanic");
   ("towing", "towing service");
   ("car dealer", "car dealership");
   ("driving school", "driving school");
   ("auto glass", "auto glass repair");
   ("wedding planner", "wedding planner");
   ("photographer", "photographer");
   ("videographer", "videography service");
   ("dj", "DJ service");
   ("entertainment", "entertainment service");
   ("caterer", "catering service");
   ("food truck", "food truck");
   ("party rental", "party equipment rental");
   ("event venue", "event venue");
   ("florist", "florist");
   ("dog groomer", "dog grooming service");
   ("pet grooming", "pet grooming service");
   ("veterinarian", "veterinarian");
   ("vet", "veterinarian");
   ("pet boarding", "pet boarding service");
   ("dog training", "dog trainer");
   ("clinic", "medical clinic");
   ("medical billing", "medical billing service");
   ("home health", "home health care service");
   ("optometrist", "optometrist");
   ("eye clinic", "eye care center");
   ("dental office", "dental clinic");
   ("speech therapy", "speech therapist");
   ("occupational therapy", "occupational therapist");
   ("tutor", "tutoring service");
   ("test prep", "test preparation center");
   ("childcare", "childcare center");
   ("preschool", "preschool");
   ("daycare", "day care center");
   ("art school", "art school");
   ("music school", "music school");
   ("cleaning company", "cleaning service");
   ("security", "security service");
   ("delivery service", "delivery service");
   ("courier", "courier service");
   ("staffing", "staffing agency");
   ("web design", "web design agency");
   ("marketing", "marketing agency");
   ("it support", "IT services");
   ("msp", "managed IT services");
   ("seo", "SEO service");
   ("social media", "social media marketing");
   ("general contractor", "general contractor");
   ("contractor", "general contractor");
   ("excavation", "excavation contractor");
   ("concrete", "concrete contractor");
   ("welding", "welding service");
   ("equipment rental", "equipment rental service");
   ("plumbing supply", "plumbing supply store");
   ("hvac supply", "HVAC supply store");
   ("electrical supply", "electrical supply store")].

(** The first property named [key] of a list of properties. *)
Fixpoint own_property (key : string) (o : list (string * string)) : option string :=
  match o with
  | [] => None
  | (k, v) :: rest => if String.eqb k key then Some v else own_property key rest
  end.

(** [INDUSTRY_MAPPINGS[key]] when it is truthy, as the string a template
    literal makes of it.  The own properties are strings; for a name the
    object does not have, the lookup goes on in [Object.prototype], and of
    the names found there a lower-cased [key] can only be [constructor] or
    [__proto__], which hold a function and an object. *)
Definition mapping_of (key : string) : option string :=
  match own_property key INDUSTRY_MAPPINGS with
  | Some v => if String.eqb v "" then None else Some v
  | None =>
      if String.eqb key "constructor" then Some "function Object() { [native code] }"
      else if String.eqb key "__proto__" then Some "[object Object]"
      else None
  end.

(** [lowerCategory.includes(key) || key.includes(lowerCategory)] *)
Definition partial_match (lowerCategory : string) (entry : string * string) : bool :=
  Str.includes lowerCategory entry.1 || Str.includes entry.1 lowerCategory.

Definition optimizeSearchQuery (category location : string) : string :=
  let lowerCategory := Str.trim (Str.toLowerCase category) in
  match mapping_of lowerCategory with
  | Some mapped => mapped +:+ " in " +:+ location
  | None =>
      match List.find (partial_match lowerCategory) INDUSTRY_MAPPINGS with
      | Some (_, value) => value +:+ " in " +:+ location
      | None =>
          let needsService :=
            negb (Str.includes lowerCategory "service")
            && negb (Str.includes lowerCategory "company")
            && negb (Str.includes lowerCategory "contractor")
            && negb (Str.includes lowerCategory "agent")
            && negb (Str.includes lowerCategory "firm") in
          if needsService then category +:+ " service in " +:+ location
          else category +:+ " in " +:+ location
      end
  end.

(** [Object.keys(INDUSTRY_MAPPINGS).filter(key => key.includes(lower)).slice(0, 10)] *)
Definition getIndustrySuggestions (partial : string) : list string :=
  let lower := Str.toLowerCase partial in
  Array_slice0 10
    (List.filter (fun key => Str.includes key lower) INDUSTRY_MAPPINGS.*1).

(** * Vocabulary of the properties *)

(** ** Canonical records *)

(** The thirteen fields of a CanonicalRecord, as a set and as a list. *)
Definition canonical_fields : gset string :=
  list_to_set ["business_name"; "category"; "street"; "city"; "state";
               "postal_code"; "country"; "phone"; "email"; "website";
               "source_url"; "confidence"; "notes"].

Definition canonical_field_names : list string :=
  ["business_name"; "category"; "street"; "city"; "state"; "postal_code";
   "country"; "phone"; "email"; "website"; "source_url"; "confidence"; "notes"].

(** The object literal of [normalizeRecord]. *)
Definition record_literal (business_name category street city state postal_code
    country phone email website source_url confidence notes : value) : record :=
  <["business_name" := business_name]>
  (<["category" := category]>
  (<["street" := street]>
  (<["city" := city]>
  (<["state" := state]>
  (<["postal_code" := postal_code]>
  (<["country" := country]>
  (<["phone" := phone]>
  (<["email" := email]>
  (<["website" := website]>
  (<["source_url" := source_url]>
  (<["confidence" := confidence]>
  (<["notes" := notes]> ∅)))))))))))).

(** Neither [null] nor [undefined]. *)
Definition present (v : value) : bool :=
  match v with
  | VUndef | VNull => false
  | _ => true
  end.

(** A text field in normal form: the absent-marker, or a non-empty string
    that [trim] and the case mapping [f] of the field leave alone. *)
Definition clean_text (f : string -> string) (v : value) : Prop :=
  v = VNull \/ exists s, v = VStr s /\ s <> "" /\ Str.trim s = s /\ f s = s.

(** The case mapping of a field that has none. *)
Definition plain (s : string) : string := s.

(** What [normalizeRecord] establishes for every field but [website], whose
    form depends on the URL parser. *)
Record canonical_text (c : record) : Prop := {
  canon_dom : dom c = canonical_fields;
  canon_business_name : clean_text plain (get c "business_name");
  canon_category : clean_text plain (get c "category");
  canon_street : clean_text plain (get c "street");
  canon_city : clean_text plain (get c "city");
  canon_state : clean_text Str.toUpperCase (get c "state");
  canon_postal_code : clean_text plain (get c "postal_code");
  canon_country : exists s, get c "country" = VStr s /\ s <> ""
                            /\ Str.trim s = s /\ Str.toUpperCase s = s;
  canon_phone : get c "phone" = VNull \/
                exists p, get c "phone" = VStr p /\ p <> ""
                          /\ normalizePhone (VStr p) = Normal (VStr p);
  canon_email : clean_text Str.toLowerCase (get c "email");
  canon_source_url : clean_text plain (get c "source_url");
  canon_confidence : exists x, get c "confidence" = VNum x;
  canon_notes : clean_text plain (get c "notes") }.

(** A CanonicalRecord: moreover [website] is the absent-marker or a truthy
    value. *)
Definition canonical (c : record) : Prop :=
  canonical_text c /\ (get c "website" = VNull \/ truthy (get c "website") = true).

(** A string, [null] or [undefined]. *)
Definition text_or_absent (v : value) : bool :=
  match v with
  | VUndef | VNull | VStr _ => true
  | _ => false
  end.

(** A string or a falsy value. *)
Definition phone_typed (v : value) : bool :=
  match v with
  | VStr _ => true
  | _ => negb (truthy v)
  end.

(** The fields on which [normalizeRecord] calls [trim]. *)
Definition trimmed_fields : list string :=
  ["business_name"; "category"; "street"; "city"; "state"; "postal_code";
   "country"; "email"; "source_url"; "notes"].

(** Candidates whose fields have the types [normalizeRecord] handles: the
    ten trimmed fields hold a string or are absent, [phone] holds a string
    or a falsy value; [website] and [confidence] are free. *)
Definition well_typed (r : record) : bool :=
  forallb (fun k => text_or_absent (get r k)) trimmed_fields
  && phone_typed (get r "phone").

(** The value of [v?.trim()] when it does not throw. *)
Definition trimmed (v : value) : value :=
  match v with
  | VStr s => VStr (Str.trim s)
  | _ => VUndef
  end.

(** The record [normalizeRecord] builds once every field has been read. *)
Definition normalized (URL_href : string -> option string) (r : record)
    (phone : value) : record :=
  record_literal
    (js_or (trimmed (get r "business_name")) VNull)
    (js_or (trimmed (get r "category")) VNull)
    (js_or (trimmed (get r "street")) VNull)
    (js_or (trimmed (get r "city")) VNull)
    (js_or (opt_case Str.toUpperCase (trimmed (get r "state"))) VNull)
    (js_or (trimmed (get r "postal_code")) VNull)
    (js_or (opt_case Str.toUpperCase (trimmed (get r "country"))) (VStr "US"))
    phone
    (js_or (opt_case Str.toLowerCase (trimmed (get r "email"))) VNull)
    (normalizeUrl URL_href (get r "website"))
    (js_or (trimmed (get r "source_url")) VNull)
    (if is_number (get r "confidence") then get r "confidence" else VNum num_half)
    (js_or (trimmed (get r "notes")) VNull).

(** ** Field normalizers *)

(** [0 <= x <= 1] *)
Definition in_unit_interval (x : number) : bool :=
  SFleb num_zero x && SFleb x num_one.

(** [url.startsWith('http://') || url.startsWith('https://')] *)
Definition has_protocol (u : string) : bool :=
  Str.startsWith u "http://" || Str.startsWith u "https://".

(** The string handed to the URL parser. *)
Definition with_protocol (u : string) : string :=
  if has_protocol u then u else "https://" +:+ u.

(** ** Deduplication engine *)

(** The distinct elements of a list, each at the place of its first
    occurrence. *)
Fixpoint first_seen (ks : list string) : list string :=
  match ks with
  | [] => []
  | k :: rest => k :: filter (fun x => x <> k) (first_seen rest)
  end.

Section EngineVocabulary.

Variable Number_toString : number -> string.
Variable StringToNumber : string -> number.
Variable Date_now Math_random : nat -> number.

Local Abbreviation key_of := (getDeduplicationKey Number_toString Date_now Math_random).
Local Abbreviation merge := (mergeRecords Number_toString StringToNumber).

(** The keys the loop computes, one per record. *)
Fixpoint record_keys (tick : nat) (records : list record) : completion (list string) :=
  match records with
  | [] => Normal []
  | r :: rest =>
      k ← key_of tick r;
      ks ← record_keys (S tick) rest;
      Normal (k :: ks)
  end.

(** One turn of the loop on a record and its key. *)
Definition dedup_step (seen : seen_map) (kr : string * record) : seen_map :=
  match Map_get seen kr.1 with
  | Some existing => Map_set seen kr.1 (merge existing kr.2)
  | None => Map_set seen kr.1 kr.2
  end.

(** The records that carry a key, in order. *)
Definition group (k : string) (krs : list (string * record)) : list record :=
  (filter (fun kr => kr.1 = k) krs).*2.

(** The merge of a group, from left to right. *)
Definition merged_group (rs : list record) : option record :=
  match rs with
  | [] => None
  | r :: rest => Some (foldl merge r rest)
  end.

End EngineVocabulary.

(** The fields [ks] of the records a run returns. *)
Definition fields_of (ks : list string) (run : completion (list record))
  : option (list (list value)) :=
  match run with
  | Normal rs => Some (map (fun r => map (get r) ks) rs)
  | Throw _ => None
  end.

(** ** Collection runs *)


#[global] Instance comparison_eq_dec : EqDecision comparison.
Proof. solve_decision. Defined.

(** What a fetcher contributes: its records, or nothing when it failed. *)
Definition succeeded (fetched : completion (list record)) : list record :=
  match fetched with
  | Normal results => results
  | Throw _ => []
  end.

(** [r.confidence || 0] converts to a number other than NaN: every
    difference the comparator of the sort computes with it has a sign. *)
Definition numeric_confidence (StringToNumber : string -> number) (r : record) : Prop :=
  is_nan (confidence_or_zero StringToNumber r) = false.

(** The confidence of [r] equals [x]: their difference is zero. *)
Definition tied (StringToNumber : string -> number) (x : number) (r : record) : Prop :=
  SFcompare (confidence_or_zero StringToNumber r) x = Some Eq.

#[global] Instance tied_dec (StringToNumber : string -> number) (x : number) (r : record) :
  Decision (tied StringToNumber x r).
Proof. unfold tied. apply _. Defined.



(** An [href] begins with the letter that begins its scheme. *)
Definition begins_with_letter (h : string) : Prop :=
  match h with
  | EmptyString => False
  | String c _ => Model.is_letter c = true
  end.

(** ** Example records *)

(** A candidate as the Google Places collector builds it. *)
Definition google_candidate : record :=
  google_business (VStr "ABC Realty") (VStr "Real Estate Agent")
    (VStr "123 Main St, Tampa, FL 33602, USA") (VStr "Tampa") (VStr "FL")
    (VStr "33602") (VStr "(813) 555-1234") (VStr "http://www.abcrealty.com/")
    (VStr "https://www.google.com/maps/place/?q=place_id:ChIJabc")
    (VNum (dec 9 10)) (VStr "Rating: 4.5 (12 reviews)") (VStr "ChIJabc")
    (VNum (dec 9 2)) (VNum (dec 12 1)) (VStr "real_estate_agency, point_of_interest")
    (VBool true).

(** What [normalizeRecord] makes of it. *)
Definition google_canonical : record :=
  record_literal (VStr "ABC Realty") (VStr "Real Estate Agent")
    (VStr "123 Main St, Tampa, FL 33602, USA") (VStr "Tampa") (VStr "FL")
    (VStr "33602") (VStr "USA") (VStr "+18135551234") VNull
    (VStr "https://abcrealty.com")
    (VStr "https://www.google.com/maps/place/?q=place_id:ChIJabc")
    (VNum (dec 9 10)) (VStr "Rating: 4.5 (12 reviews)").

(** A candidate whose website has two [www.] labels, normalized once and
    twice. *)
Definition www_candidate : record := <["website" := VStr "www.www.example.com"]> ∅.

Definition www_once : record :=
  record_literal VNull VNull VNull VNull VNull VNull (VStr "US") VNull VNull
    (VStr "https://www.example.com") VNull (VNum num_half) VNull.

Definition www_twice : record :=
  record_literal VNull VNull VNull VNull VNull VNull (VStr "US") VNull VNull
    (VStr "https://example.com") VNull (VNum num_half) VNull.

(** Two canonical records with the same website and different confidences,
    only the first of which has a phone. *)
Definition with_phone : record :=
  record_literal (VStr "ABC Realty") VNull VNull VNull VNull VNull (VStr "US")
    (VStr "+18135551234") VNull (VStr "https://abc.com") VNull (VNum (dec 4 10)) VNull.

Definition without_phone : record :=
  record_literal (VStr "ABC Realty") VNull VNull VNull VNull VNull (VStr "US")
    VNull VNull (VStr "https://abc.com") VNull (VNum (dec 9 10)) (VStr "verified").

(** A canonical record of another business. *)
Definition other_business : record :=
  record_literal (VStr "Bay Plumbing") VNull VNull VNull VNull (VStr "33602") (VStr "US")
    VNull VNull VNull VNull (VNum (dec 7 10)) VNull.


(** Two rows as a language model answers them, and their canonical forms. *)
Definition low_row : record :=
  <["business_name" := VStr "Bay Plumbing"]>
  (<["postal_code" := VStr "33602"]> (<["confidence" := VNum (dec 4 10)]> ∅)).

Definition high_row : record :=
  <["business_name" := VStr "ABC Realty"]>
  (<["website" := VStr "abc.com"]> (<["confidence" := VNum (dec 9 10)]> ∅)).

Definition low_canonical : record :=
  record_literal (VStr "Bay Plumbing") VNull VNull VNull VNull (VStr "33602") (VStr "US")
    VNull VNull VNull VNull (VNum (dec 4 10)) VNull.

Definition high_canonical : record :=
  record_literal (VStr "ABC Realty") VNull VNull VNull VNull VNull (VStr "US")
    VNull VNull (VStr "https://abc.com") VNull (VNum (dec 9 10)) VNull.

(** ** Further vocabulary *)

(** A [+] followed by digits only. *)
Definition plus_digits (p : string) : bool :=
  match p with
  | String c d => Ascii.eqb c "+" && Model.all_chars Str.is_digit d
  | EmptyString => false
  end.

(** The tiers of the deduplication key, in the order the code tries them. *)
Inductive key_tier : Type :=
  | TierWebsite | TierComposite | TierNameZip | TierSource | TierUnique.

(** The tier whose branch [getDeduplicationKey] takes. *)
Definition tier_of (r : record) : key_tier :=
  if truthy (get r "website") then TierWebsite
  else if truthy (get r "business_name") && truthy (get r "phone")
          && truthy (get r "postal_code") then TierComposite
  else if truthy (get r "business_name") && truthy (get r "postal_code") then TierNameZip
  else if truthy (get r "source_url") then TierSource
  else TierUnique.

Definition tier_prefix (t : key_tier) : string :=
  match t with
  | TierWebsite => "website:"
  | TierComposite => "composite:"
  | TierNameZip => "name-zip:"
  | TierSource => "source:"
  | TierUnique => "unique:"
  end.

(** A record whose key can be computed whatever tier applies: it has a
    website, or its [business_name] is a string or absent. *)
Definition keyable (r : record) : bool :=
  truthy (get r "website") || text_or_absent (get r "business_name").

(** The sources that failed, with their messages. *)
Definition failed (source : string) (fetched : completion (list record))
  : list (string * string) :=
  match fetched with
  | Normal _ => []
  | Throw e => [(source, message_of e)]
  end.

(** The sources that returned at least one record. *)
Definition used (source : string) (fetched : completion (list record)) : list string :=
  match fetched with
  | Normal (_ :: _) => [source]
  | _ => []
  end.

(** The text [pre] in front of a match does not end inside a word:
    its last character, or the character in front of it when it is empty,
    is not a word character. *)
Fixpoint ends_outside_word (after_word : bool) (pre : string) : bool :=
  match pre with
  | EmptyString => negb after_word
  | String c pre' => ends_outside_word (Str.is_word c) pre'
  end.

(** The points a condition adds to a score, in hundredths. *)
Definition bonus (b : bool) (n : Z) : Z := if b then n else 0%Z.

(** No occurrence of the character [sep]. *)
Definition free_of (sep : ascii) (s : string) : bool :=
  Model.all_chars (fun c => negb (Ascii.eqb c sep)) s.

(** A place and the answer to its details request hold text wherever the
    collector expects text. *)
Definition text_place (pr : place * details_response) : Prop :=
  text_or_absent (get (place_fields pr.1) "name") = true
  /\ text_or_absent (get (place_fields pr.1) "formatted_address") = true
  /\ forall status d, pr.2 = Normal (status, Some d) ->
       text_or_absent (get d "formatted_address") = true
       /\ text_or_absent (get d "formatted_phone_number") = true
       /\ text_or_absent (get d "international_phone_number") = true.

(** What every candidate of the Google Places collector looks like. *)
Definition google_shaped (category : value) (b : record) : Prop :=
  get b "category" = category
  /\ get b "country" = VStr "USA"
  /\ get b "email" = VNull
  /\ (exists x, get b "confidence" = VNum x
                /\ SFleb num_half x = true /\ SFleb x num_one = true)
  /\ (exists s, get b "source_url" = VStr s
                /\ Str.startsWith s "https://www.google.com/maps/place/?q=place_id:" = true)
  /\ (exists s, get b "notes" = VStr s)
  /\ (get b "state" = VNull
      \/ exists code, get b "state" = VStr code /\ In code state_codes)
  /\ (get b "postal_code" = VNull
      \/ exists zip, get b "postal_code" = VStr zip /\ String.length zip = 5%nat
                     /\ Model.all_chars Str.is_digit zip = true).

(** A string or a falsy value: what [v ? v.split(',') : undefined] accepts. *)
Definition string_or_falsy (v : value) : bool :=
  match v with
  | VStr _ => true
  | _ => negb (truthy v)
  end.

(** ** Further example data *)

(** A place as a text search answers it, the answer to its details
    request, and a search that answers one page with that place. *)
Definition abc_place : place :=
  {| place_fields :=
       <["name" := VStr "ABC Realty"]>
       (<["formatted_address" := VStr "123 Main St, Tampa, FL 33602, USA"]>
       (<["place_id" := VStr "ChIJabc"]>
       (<["rating" := VNum (dec 5 1)]>
       (<["user_ratings_total" := VNum (dec 12 1)]>
       (<["business_status" := VStr "OPERATIONAL"]> ∅)))));
     place_types := Some [VStr "real_estate_agency"; VStr "point_of_interest"] |}.

Definition abc_details : details_response :=
  Normal (VStr "OK",
          Some (<["formatted_phone_number" := VStr "(813) 555-1234"]>
                (<["website" := VStr "http://www.abcrealty.com/"]> ∅))).

Definition one_page (n : nat) : completion places_page :=
  match n with
  | O => Normal {| page_status := VStr "OK";
                   page_results := Some [(abc_place, abc_details)];
                   page_next := VUndef |}
  | S _ => Throw (Error "Request failed")
  end.

(** A company whose status only contains the word [active]. *)
Definition inactive_company : record :=
  <["name" := VStr "ABC Realty LLC"]>
  (<["current_status" := VStr "Inactive"]>
  (<["incorporation_date" := VStr "2021-03-15"]> ∅)).

(** * Properties *)

(** ** Facts about strings *)

Module StrFacts.
Import Str.

Lemma trimStart_no_lead s : no_lead (trimStart s).
Proof.
  induction s as [|c s IH]; simpl; [exact I|].
  destruct (is_space c) eqn:E; [exact IH | exact E].
Qed.

Lemma trimStart_id s : no_lead s -> trimStart s = s.
Proof. destruct s as [|c s]; simpl; [reflexivity|]. intros ->. reflexivity. Qed.

Lemma trimEnd_no_lead s : no_lead s -> no_lead (trimEnd s).
Proof.
  destruct s as [|c s]; simpl; [exact id|]. intros E.
  destruct (trimEnd s); simpl; rewrite ?E; simpl; auto.
Qed.

Lemma trimEnd_idem s : trimEnd (trimEnd s) = trimEnd s.
Proof.
  induction s as [|c s IH]; simpl; [reflexivity|].
  destruct (trimEnd s) as [|d t] eqn:E.
  - destruct (is_space c) eqn:Ec; simpl; rewrite ?Ec; reflexivity.
  - change (trimEnd (String c (String d t))) with
      (match trimEnd (String d t) with
       | EmptyString => if is_space c then EmptyString else String c EmptyString
       | u => String c u
       end).
    rewrite IH. reflexivity.
Qed.

Lemma trim_idem s : trim (trim s) = trim s.
Proof.
  unfold trim.
  rewrite (trimStart_id (trimEnd (trimStart s))).
  - apply trimEnd_idem.
  - apply trimEnd_no_lead, trimStart_no_lead.
Qed.

Section CharMap.
Variable f : ascii -> ascii.
Hypothesis f_space : forall c, is_space (f c) = is_space c.
Hypothesis f_idem : forall c, f (f c) = f c.

Lemma trimStart_map s : trimStart (map_chars f s) = map_chars f (trimStart s).
Proof.
  induction s as [|c s IH]; simpl; [reflexivity|].
  rewrite f_space. destruct (is_space c); [exact IH | reflexivity].
Qed.

Lemma trimEnd_map s : trimEnd (map_chars f s) = map_chars f (trimEnd s).
Proof.
  induction s as [|c s IH]; simpl; [reflexivity|].
  rewrite IH, f_space.
  destruct (trimEnd s); simpl; [destruct (is_space c)|]; reflexivity.
Qed.

Lemma trim_map s : trim (map_chars f s) = map_chars f (trim s).
Proof. unfold trim. rewrite trimStart_map. apply trimEnd_map. Qed.

Lemma map_chars_idem s : map_chars f (map_chars f s) = map_chars f s.
Proof. induction s as [|c s IH]; simpl; [|rewrite f_idem, IH]; reflexivity. Qed.
End CharMap.

Lemma map_chars_empty f s : map_chars f s = "" -> s = "".
Proof. destruct s; [reflexivity | discriminate]. Qed.

Ltac each_char c :=
  destruct c as [[] [] [] [] [] [] [] []]; reflexivity.

Lemma upper_space c : is_space (upper_char c) = is_space c.
Proof. each_char c. Qed.

Lemma lower_space c : is_space (lower_char c) = is_space c.
Proof. each_char c. Qed.

Lemma upper_idem c : upper_char (upper_char c) = upper_char c.
Proof. each_char c. Qed.

Lemma lower_idem c : lower_char (lower_char c) = lower_char c.
Proof. each_char c. Qed.

Lemma digits_of_idem s : digits_of (digits_of s) = digits_of s.
Proof.
  induction s as [|c s IH]; simpl; [reflexivity|].
  destruct (is_digit c) eqn:E; simpl; rewrite ?E, IH; reflexivity.
Qed.

Lemma append_length s t :
  String.length (s +:+ t) = (String.length s + String.length t)%nat.
Proof. induction s as [|c s IH]; simpl; [|rewrite IH]; reflexivity. Qed.

Lemma eqb_empty_false (s : string) : s <> "" -> String.eqb s "" = false.
Proof. intros H. apply String.eqb_neq. exact H. Qed.

End StrFacts.

(** ** Completions *)

Lemma bind_Normal {A B} (m : completion A) (k : A -> completion B) (b : B) :
  m ≫= k = Normal b -> exists a, m = Normal a /\ k a = Normal b.
Proof. destruct m as [a|e]; simpl; [eauto | discriminate]. Qed.

Lemma bind_Throw {A B} (m : completion A) (k : A -> completion B) (e : exn) :
  m = Throw e -> m ≫= k = Throw e.
Proof. intros ->. reflexivity. Qed.

Lemma not_canonical_field k :
  existsb (String.eqb k) canonical_field_names = false -> k ∉ canonical_fields.
Proof.
  intros H Hin. apply elem_of_list_to_set in Hin.
  apply list_elem_of_In in Hin.
  assert (existsb (String.eqb k) canonical_field_names = true) as Ht.
  { apply existsb_exists. exists k. split; [exact Hin | apply String.eqb_refl]. }
  rewrite Ht in H. discriminate.
Qed.

(** ** The field normalizers *)

Lemma opt_trim_Normal field v w :
  opt_trim field v = Normal w <-> text_or_absent v = true /\ w = trimmed v.
Proof.
  destruct v; simpl; split; try (intros [? ?]); try discriminate;
    try (intros [= <-]); subst; auto.
Qed.

Lemma opt_trim_ok field v :
  text_or_absent v = true -> opt_trim field v = Normal (trimmed v).
Proof. intros H. apply opt_trim_Normal. auto. Qed.

Lemma normalizePhone_Normal v w :
  normalizePhone v = Normal w -> phone_typed v = true.
Proof.
  unfold normalizePhone. destruct v as [| |[]|x|s|o]; simpl; try discriminate; auto.
  destruct (is_zero x || is_nan x); simpl; [auto | discriminate].
Qed.

Lemma normalizePhone_typed v :
  phone_typed v = true -> exists w, normalizePhone v = Normal w.
Proof.
  unfold normalizePhone, phone_typed.
  destruct v as [| |b|x|s|o]; simpl; try discriminate; eauto.
  - intros ->. eauto.
  - intros ->. eauto.
  - intros _. destruct (negb (negb (String.eqb s ""))); eauto.
    repeat match goal with |- context [if ?b then _ else _] => destruct b end; eauto.
Qed.

(** The phone normalizer on a string that starts with [+]. *)
Lemma normalizePhone_plus x :
  normalizePhone (VStr (String "+" x)) =
  let d := Str.digits_of x in
  if (String.length d =? 10)%nat then Normal (VStr ("+1" +:+ d))
  else if (String.length d =? 11)%nat && Str.startsWith d "1"
       then Normal (VStr ("+" +:+ d))
       else Normal (VStr (String "+" x)).
Proof. reflexivity. Qed.

(** The result of the phone normalizer is the absent-marker or a non-empty
    string that the normalizer maps to itself. *)
Lemma normalizePhone_fixed v w :
  normalizePhone v = Normal w ->
  w = VNull \/ exists p, w = VStr p /\ p <> "" /\ normalizePhone (VStr p) = Normal (VStr p).
Proof.
  unfold normalizePhone at 1.
  destruct (negb (truthy v)) eqn:Ht; [intros [= <-]; auto|].
  destruct v as [| |b|x|p|o]; try discriminate.
  set (d := Str.digits_of p).
  assert (Str.digits_of d = d) as Hd by apply StrFacts.digits_of_idem.
  destruct (String.length d =? 10)%nat eqn:E10.
  { intros [= <-]. right. eexists; split; [reflexivity|]. split; [discriminate|].
    change ("+1" +:+ d) with (String "+" (String "1" d)).
    rewrite normalizePhone_plus.
    change (Str.digits_of (String "1" d)) with (String "1" (Str.digits_of d)).
    rewrite Hd. cbv zeta.
    apply Nat.eqb_eq in E10.
    change (String.length (String "1" d)) with (S (String.length d)).
    rewrite E10. reflexivity. }
  destruct ((String.length d =? 11)%nat && Str.startsWith d "1") eqn:E11.
  { intros [= <-]. right. eexists; split; [reflexivity|]. split; [discriminate|].
    change ("+" +:+ d) with (String "+" d).
    rewrite normalizePhone_plus, Hd. cbv zeta. rewrite E10, E11. reflexivity. }
  destruct (Str.startsWith p "+") eqn:Ep.
  { intros [= <-]. right. exists p. split; [reflexivity|].
    split; [intros ->; discriminate|].
    unfold normalizePhone. rewrite Ht. fold d. rewrite E10, E11, Ep. reflexivity. }
  intros [= <-]. right. eexists; split; [reflexivity|]. split; [discriminate|].
  change ("+" +:+ d) with (String "+" d).
  rewrite normalizePhone_plus, Hd. cbv zeta. rewrite E10, E11. reflexivity.
Qed.

Lemma clean_text_trimmed v :
  clean_text plain (js_or (trimmed v) VNull).
Proof.
  destruct v as [| |b|x|s|o]; simpl; try (left; reflexivity).
  unfold js_or. simpl. destruct (String.eqb (Str.trim s) "") eqn:E; simpl.
  - left; reflexivity.
  - right. exists (Str.trim s). repeat split.
    + intros H. rewrite H in E. discriminate.
    + apply StrFacts.trim_idem.
Qed.

Lemma cased_trimmed (g : ascii -> ascii) s :
  (forall c, Str.is_space (g c) = Str.is_space c) ->
  (forall c, g (g c) = g c) ->
  Str.map_chars g (Str.trim s) <> "" ->
  Str.trim (Str.map_chars g (Str.trim s)) = Str.map_chars g (Str.trim s)
  /\ Str.map_chars g (Str.map_chars g (Str.trim s)) = Str.map_chars g (Str.trim s).
Proof.
  intros Hs Hi _. split.
  - rewrite StrFacts.trim_map by exact Hs. rewrite StrFacts.trim_idem. reflexivity.
  - apply StrFacts.map_chars_idem, Hi.
Qed.

Lemma clean_text_cased (g : ascii -> ascii) v :
  (forall c, Str.is_space (g c) = Str.is_space c) ->
  (forall c, g (g c) = g c) ->
  clean_text (Str.map_chars g) (js_or (opt_case (Str.map_chars g) (trimmed v)) VNull).
Proof.
  intros Hs Hi.
  destruct v as [| |b|x|s|o]; simpl; try (left; reflexivity).
  unfold js_or. simpl.
  destruct (String.eqb (Str.map_chars g (Str.trim s)) "") eqn:E; simpl.
  - left; reflexivity.
  - right. eexists. split; [reflexivity|].
    assert (Str.map_chars g (Str.trim s) <> "") as Hne
      by (intros H; rewrite H in E; discriminate).
    split; [exact Hne|]. apply cased_trimmed; assumption.
Qed.

(** ** The record normalizer *)

Section Normalizer.

Variable URL_href : string -> option string.

Lemma normalizeRecord_Normal r c :
  normalizeRecord URL_href r = Normal c <->
  forallb (fun k => text_or_absent (get r k)) trimmed_fields = true
  /\ exists phone, normalizePhone (get r "phone") = Normal phone
                   /\ c = normalized URL_href r phone.
Proof.
  unfold normalizeRecord. split.
  - intros H.
    repeat match type of H with
    | _ ≫= _ = Normal _ =>
        let E := fresh "E" in
        apply bind_Normal in H as (? & E & H);
        first [ apply opt_trim_Normal in E as [E ->] | idtac ]
    end.
    injection H as <-. split.
    + simpl. repeat (apply andb_true_intro; split; [assumption|]). reflexivity.
    + eexists. split; [eassumption | reflexivity].
  - intros [Ht (phone & Hp & ->)].
    simpl in Ht. rewrite !andb_true_iff in Ht.
    destruct Ht as (? & ? & ? & ? & ? & ? & ? & ? & ? & ? & _).
    rewrite !opt_trim_ok, Hp by assumption. reflexivity.
Qed.

(** No field but the thirteen of the literal. *)
Lemma record_literal_dom v1 v2 v3 v4 v5 v6 v7 v8 v9 v10 v11 v12 v13 :
  dom (record_literal v1 v2 v3 v4 v5 v6 v7 v8 v9 v10 v11 v12 v13) = canonical_fields.
Proof.
  unfold record_literal, canonical_fields.
  rewrite !dom_insert_L, dom_empty_L. simpl. reflexivity.
Qed.

Lemma get_literal_business_name v1 v2 v3 v4 v5 v6 v7 v8 v9 v10 v11 v12 v13 :
  get (record_literal v1 v2 v3 v4 v5 v6 v7 v8 v9 v10 v11 v12 v13) "business_name" = v1.
Proof. reflexivity. Qed.

Lemma get_literal_category v1 v2 v3 v4 v5 v6 v7 v8 v9 v10 v11 v12 v13 :
  get (record_literal v1 v2 v3 v4 v5 v6 v7 v8 v9 v10 v11 v12 v13) "category" = v2.
Proof. reflexivity. Qed.

Lemma get_literal_street v1 v2 v3 v4 v5 v6 v7 v8 v9 v10 v11 v12 v13 :
  get (record_literal v1 v2 v3 v4 v5 v6 v7 v8 v9 v10 v11 v12 v13) "street" = v3.
Proof. reflexivity. Qed.

Lemma get_literal_city v1 v2 v3 v4 v5 v6 v7 v8 v9 v10 v11 v12 v13 :
  get (record_literal v1 v2 v3 v4 v5 v6 v7 v8 v9 v10 v11 v12 v13) "city" = v4.
Proof. reflexivity. Qed.

Lemma get_literal_state v1 v2 v3 v4 v5 v6 v7 v8 v9 v10 v11 v12 v13 :
  get (record_literal v1 v2 v3 v4 v5 v6 v7 v8 v9 v10 v11 v12 v13) "state" = v5.
Proof. reflexivity. Qed.

Lemma get_literal_postal_code v1 v2 v3 v4 v5 v6 v7 v8 v9 v10 v11 v12 v13 :
  get (record_literal v1 v2 v3 v4 v5 v6 v7 v8 v9 v10 v11 v12 v13) "postal_code" = v6.
Proof. reflexivity. Qed.

Lemma get_literal_country v1 v2 v3 v4 v5 v6 v7 v8 v9 v10 v11 v12 v13 :
  get (record_literal v1 v2 v3 v4 v5 v6 v7 v8 v9 v10 v11 v12 v13) "country" = v7.
Proof. reflexivity. Qed.

Lemma get_literal_phone v1 v2 v3 v4 v5 v6 v7 v8 v9 v10 v11 v12 v13 :
  get (record_literal v1 v2 v3 v4 v5 v6 v7 v8 v9 v10 v11 v12 v13) "phone" = v8.
Proof. reflexivity. Qed.

Lemma get_literal_email v1 v2 v3 v4 v5 v6 v7 v8 v9 v10 v11 v12 v13 :
  get (record_literal v1 v2 v3 v4 v5 v6 v7 v8 v9 v10 v11 v12 v13) "email" = v9.
Proof. reflexivity. Qed.

Lemma get_literal_website v1 v2 v3 v4 v5 v6 v7 v8 v9 v10 v11 v12 v13 :
  get (record_literal v1 v2 v3 v4 v5 v6 v7 v8 v9 v10 v11 v12 v13) "website" = v10.
Proof. reflexivity. Qed.

Lemma get_literal_source_url v1 v2 v3 v4 v5 v6 v7 v8 v9 v10 v11 v12 v13 :
  get (record_literal v1 v2 v3 v4 v5 v6 v7 v8 v9 v10 v11 v12 v13) "source_url" = v11.
Proof. reflexivity. Qed.

Lemma get_literal_confidence v1 v2 v3 v4 v5 v6 v7 v8 v9 v10 v11 v12 v13 :
  get (record_literal v1 v2 v3 v4 v5 v6 v7 v8 v9 v10 v11 v12 v13) "confidence" = v12.
Proof. reflexivity. Qed.

Lemma get_literal_notes v1 v2 v3 v4 v5 v6 v7 v8 v9 v10 v11 v12 v13 :
  get (record_literal v1 v2 v3 v4 v5 v6 v7 v8 v9 v10 v11 v12 v13) "notes" = v13.
Proof. reflexivity. Qed.

Lemma country_cased v :
  exists s, js_or (opt_case Str.toUpperCase (trimmed v)) (VStr "US") = VStr s
            /\ s <> "" /\ Str.trim s = s /\ Str.toUpperCase s = s.
Proof.
  assert (exists s, VStr "US" = VStr s /\ s <> "" /\ Str.trim s = s
                    /\ Str.toUpperCase s = s) as HUS
    by (exists "US"; repeat split; discriminate).
  destruct v as [| |b|x|s|o]; try exact HUS.
  unfold js_or. simpl.
  destruct (String.eqb (Str.toUpperCase (Str.trim s)) "") eqn:E; simpl; [exact HUS|].
  eexists. split; [reflexivity|].
  assert (Str.toUpperCase (Str.trim s) <> "") as Hne
    by (intros H; rewrite H in E; discriminate).
  split; [exact Hne|].
  apply (cased_trimmed Str.upper_char s StrFacts.upper_space StrFacts.upper_idem Hne).
Qed.

Lemma normalized_canonical_text r phone w :
  normalizePhone w = Normal phone -> canonical_text (normalized URL_href r phone).
Proof.
  intros Hp. unfold normalized. split.
  - apply record_literal_dom.
  - rewrite get_literal_business_name. apply clean_text_trimmed.
  - rewrite get_literal_category. apply clean_text_trimmed.
  - rewrite get_literal_street. apply clean_text_trimmed.
  - rewrite get_literal_city. apply clean_text_trimmed.
  - rewrite get_literal_state.
    apply (clean_text_cased Str.upper_char _ StrFacts.upper_space StrFacts.upper_idem).
  - rewrite get_literal_postal_code. apply clean_text_trimmed.
  - rewrite get_literal_country. apply country_cased.
  - rewrite get_literal_phone. exact (normalizePhone_fixed _ _ Hp).
  - rewrite get_literal_email.
    apply (clean_text_cased Str.lower_char _ StrFacts.lower_space StrFacts.lower_idem).
  - rewrite get_literal_source_url. apply clean_text_trimmed.
  - rewrite get_literal_confidence.
    destruct (get r "confidence"); simpl; eauto.
  - rewrite get_literal_notes. apply clean_text_trimmed.
Qed.

Lemma normalizeRecord_canonical_text r c :
  normalizeRecord URL_href r = Normal c -> canonical_text c.
Proof.
  intros (_ & phone & Hp & ->)%normalizeRecord_Normal.
  exact (normalized_canonical_text _ _ _ Hp).
Qed.

End Normalizer.

(** Evaluates [normalizeRecord] on a closed candidate, field by field. *)
Ltac normalize_closed :=
  apply normalizeRecord_Normal; split;
  [ vm_compute; reflexivity
  | eexists; split;
    [ vm_compute; reflexivity
    | unfold normalized; apply (f_equal2 (fun f x => f x)); [| vm_compute; reflexivity];
      repeat (apply (f_equal2 (fun f x => f x)); [| vm_compute; reflexivity]);
      reflexivity ] ].

Lemma normalize_google_candidate :
  normalizeRecord Model.URL_href google_candidate = Normal google_canonical.
Proof. normalize_closed. Qed.

(** ** Fields of a canonical record (C10) *)

(** C10.  The record produced by [normalizeRecord] has exactly the thirteen
    canonical fields; in particular the metadata fields that the Google
    Places collector adds to its candidates are not in it. *)
Theorem normalizeRecord_fields (URL_href : string -> option string) (r c : record) :
  normalizeRecord URL_href r = Normal c ->
  dom c = canonical_fields
  /\ (forall k, k ∉ canonical_fields -> c !! k = None)
  /\ c !! "google_place_id" = None /\ c !! "google_rating" = None
  /\ c !! "google_reviews" = None /\ c !! "google_types" = None
  /\ c !! "is_operational" = None.
Proof.
  intros H. apply normalizeRecord_canonical_text in H as [Hdom _].
  assert (forall k, k ∉ canonical_fields -> c !! k = None) as Hout.
  { intros k Hk. apply not_elem_of_dom. rewrite Hdom. exact Hk. }
  split; [exact Hdom|]. split; [exact Hout|].
  repeat split; apply Hout; apply not_canonical_field; vm_compute; reflexivity.
Qed.

Lemma normalizeRecord_fields_witness :
  normalizeRecord Model.URL_href google_candidate = Normal google_canonical
  /\ dom google_canonical = canonical_fields
  /\ google_candidate !! "google_place_id" = Some (VStr "ChIJabc")
  /\ google_canonical !! "google_place_id" = None.
Proof.
  split; [exact normalize_google_candidate|].
  destruct (normalizeRecord_fields Model.URL_href google_candidate google_canonical
              normalize_google_candidate) as (Hdom & _ & Hid & _).
  split; [exact Hdom|]. split; [reflexivity | exact Hid].
Defined.

(** ** Totality of the record normalizer (C3) *)

(** A candidate whose [business_name] holds a number, and one whose [phone]
    holds a number: [normalizeRecord] throws a [TypeError] on both. *)
Lemma normalizeRecord_throws_on_numbers :
  normalizeRecord Model.URL_href (<["business_name" := VNum (dec 5 1)]> ∅)
    = Throw (TypeError "record.business_name?.trim is not a function")
  /\ normalizeRecord Model.URL_href
       (<["business_name" := VStr "ABC Realty"]> (<["phone" := VNum (dec 8135551234 1)]> ∅))
    = Throw (TypeError "phone.replace is not a function").
Proof. split; vm_compute; reflexivity. Qed.

(** C3 (amended).  On every candidate whose ten trimmed fields hold a string
    or are absent and whose [phone] holds a string or a falsy value, whatever
    [website] and [confidence] hold, [normalizeRecord] returns one record,
    and that record is in canonical form. *)
Theorem normalizeRecord_total (URL_href : string -> option string) (r : record) :
  well_typed r = true ->
  exists c, normalizeRecord URL_href r = Normal c /\ canonical_text c.
Proof.
  unfold well_typed. intros [Ht Hp]%andb_prop.
  destruct (normalizePhone_typed _ Hp) as [phone Hphone].
  exists (normalized URL_href r phone). split.
  - apply normalizeRecord_Normal. eauto.
  - exact (normalized_canonical_text _ _ _ _ Hphone).
Qed.

Lemma normalizeRecord_total_witness :
  well_typed google_candidate = true
  /\ exists c, normalizeRecord Model.URL_href google_candidate = Normal c
               /\ canonical_text c.
Proof.
  split; [vm_compute; reflexivity|].
  apply (normalizeRecord_total Model.URL_href google_candidate).
  vm_compute; reflexivity.
Defined.

(** Outside those candidates the normalizer throws, and what it throws is a
    [TypeError]. *)
Lemma normalizeRecord_ill_typed (URL_href : string -> option string) (r : record) :
  well_typed r = false ->
  exists m, normalizeRecord URL_href r = Throw (TypeError m).
Proof.
  intros Hw.
  destruct (normalizeRecord URL_href r) as [c|e] eqn:E.
  - apply normalizeRecord_Normal in E as (Ht & phone & Hp & _).
    apply normalizePhone_Normal in Hp. unfold well_typed in Hw.
    rewrite Ht, Hp in Hw. discriminate.
  - assert (forall f v e', opt_trim f v = Throw e' -> exists m, e' = TypeError m) as Ho.
    { intros f v e'. destruct v; simpl; intros [= <-]; eauto. }
    assert (forall v e', normalizePhone v = Throw e' -> exists m, e' = TypeError m) as Hn.
    { intros v e'. unfold normalizePhone.
      destruct (negb (truthy v)); [discriminate|].
      destruct v; try (intros [= <-]; eauto).
      repeat match goal with |- context [if ?b then _ else _] => destruct b end;
        discriminate. }
    unfold normalizeRecord in E.
    repeat match type of E with
    | ?m ≫= _ = Throw _ =>
        let E' := fresh "E" in
        destruct m eqn:E'; simpl in E;
        [| injection E as ->;
           first [ apply Ho in E' as [? ->] | apply Hn in E' as [? ->] ]; eauto ]
    end.
    discriminate.
Qed.

(** ** Confidence of a canonical record (C7) *)

(** A supplied confidence of 7 is kept as it is, outside the interval; a
    supplied confidence of 0.5 gives 0.5 although a number was supplied. *)
Lemma confidence_not_clamped :
  (forall c, normalizeRecord Model.URL_href (<["confidence" := VNum (dec 7 1)]> ∅) = Normal c ->
             get c "confidence" = VNum (dec 7 1))
  /\ (exists c, normalizeRecord Model.URL_href (<["confidence" := VNum (dec 7 1)]> ∅) = Normal c)
  /\ in_unit_interval (dec 7 1) = false
  /\ (exists c, normalizeRecord Model.URL_href (<["confidence" := VNum (dec 1 2)]> ∅) = Normal c
                /\ get c "confidence" = VNum num_half
                /\ is_number (get (<["confidence" := VNum (dec 1 2)]> ∅) "confidence") = true).
Proof.
  split; [|split; [|split]].
  - intros c (_ & phone & _ & ->)%normalizeRecord_Normal.
    unfold normalized. rewrite get_literal_confidence. reflexivity.
  - eexists. normalize_closed.
  - vm_compute. reflexivity.
  - eexists. split; [normalize_closed|]. split; [|reflexivity].
    rewrite get_literal_confidence. vm_compute. reflexivity.
Qed.

(** C7 (amended).  The confidence of the record produced by
    [normalizeRecord] is the supplied value whenever the candidate supplied
    a number, whatever that number is, and 0.5 otherwise; it lies in [0,1]
    exactly when the supplied number, if any, does. *)
Theorem normalizeRecord_confidence (URL_href : string -> option string) (r c : record) :
  normalizeRecord URL_href r = Normal c ->
  (forall x, get r "confidence" = VNum x -> get c "confidence" = VNum x)
  /\ (is_number (get r "confidence") = false -> get c "confidence" = VNum num_half)
  /\ exists x, get c "confidence" = VNum x
               /\ (in_unit_interval x = true <->
                   forall y, get r "confidence" = VNum y -> in_unit_interval y = true).
Proof.
  intros (_ & phone & _ & ->)%normalizeRecord_Normal.
  unfold normalized. rewrite get_literal_confidence.
  split; [intros x ->; reflexivity|]. split; [intros ->; reflexivity|].
  destruct (get r "confidence") as [| |b|x|s|o] eqn:E; simpl;
    try (exists num_half; split; [reflexivity|];
         split; [intros _ y Hy; discriminate | intros _; reflexivity]).
  exists x. split; [reflexivity|]. split.
  - intros H y [= <-]. exact H.
  - intros H. apply H. reflexivity.
Qed.

Lemma normalizeRecord_confidence_witness :
  normalizeRecord Model.URL_href google_candidate = Normal google_canonical
  /\ get google_canonical "confidence" = VNum (dec 9 10)
  /\ in_unit_interval (dec 9 10) = true.
Proof.
  split; [exact normalize_google_candidate|].
  destruct (normalizeRecord_confidence Model.URL_href google_candidate google_canonical
              normalize_google_candidate) as (Hsup & _ & _).
  split; [apply Hsup; reflexivity | vm_compute; reflexivity].
Defined.

(** ** The phone normalizer on international numbers (C5) *)

(** A number written with a leading [+] and the US country code is
    re-derived from its digits, not returned verbatim. *)
Lemma normalizePhone_rewrites_plus :
  Str.startsWith "+1 (813) 555-1234" "+" = true
  /\ normalizePhone (VStr "+1 (813) 555-1234") = Normal (VStr "+18135551234")
  /\ normalizePhone (VStr "+1 (813) 555-1234") <> Normal (VStr "+1 (813) 555-1234").
Proof. repeat split. vm_compute. discriminate. Qed.

(** C5 (amended).  A string that starts with [+] is returned verbatim unless
    it holds exactly ten digits, or exactly eleven digits the first of which
    is 1: the two digit-count rules are tried first. *)
Theorem normalizePhone_keeps_plus (p : string) :
  Str.startsWith p "+" = true ->
  String.length (Str.digits_of p) <> 10%nat ->
  ~ (String.length (Str.digits_of p) = 11%nat
     /\ Str.startsWith (Str.digits_of p) "1" = true) ->
  normalizePhone (VStr p) = Normal (VStr p).
Proof.
  intros Hplus H10 H11.
  destruct p as [|c p]; [discriminate|].
  change (Ascii.eqb "+" c && true = true) in Hplus.
  apply andb_prop in Hplus as [Hc _].
  apply Ascii.eqb_eq in Hc. subst c.
  rewrite normalizePhone_plus. cbv zeta.
  change (Str.digits_of (String "+" p)) with (Str.digits_of p) in H10, H11.
  destruct (String.length (Str.digits_of p) =? 10)%nat eqn:E10.
  { apply Nat.eqb_eq in E10. contradiction. }
  destruct ((String.length (Str.digits_of p) =? 11)%nat
            && Str.startsWith (Str.digits_of p) "1") eqn:E11; [|reflexivity].
  apply andb_prop in E11 as [E11 E1]. apply Nat.eqb_eq in E11.
  exfalso. apply H11. split; assumption.
Qed.

Lemma normalizePhone_keeps_plus_witness :
  normalizePhone (VStr "+44 20 7946 0958") = Normal (VStr "+44 20 7946 0958").
Proof.
  apply (normalizePhone_keeps_plus "+44 20 7946 0958").
  - reflexivity.
  - vm_compute. discriminate.
  - vm_compute. intros [H _]. discriminate.
Defined.

(** ** The URL normalizer when parsing fails (C4) *)

Lemma with_protocol_has u : has_protocol (with_protocol u) = true.
Proof.
  unfold with_protocol. destruct (has_protocol u) eqn:E; [exact E | reflexivity].
Qed.

Lemma with_protocol_fixed u : has_protocol u = true -> with_protocol u = u.
Proof. unfold with_protocol. intros ->. reflexivity. Qed.

Lemma normalizeUrl_string (URL_href : string -> option string) (u : string) :
  u <> "" ->
  normalizeUrl URL_href (VStr u) =
  match URL_href (with_protocol u) with
  | Some href => VStr (Str.strip_www (Str.strip_trailing_slash href))
  | None => VStr (with_protocol u)
  end.
Proof.
  intros Hu. unfold normalizeUrl, with_protocol, has_protocol. cbn [truthy].
  rewrite (StrFacts.eqb_empty_false u Hu). cbn [negb].
  destruct (Str.startsWith u "http://"), (Str.startsWith u "https://"); reflexivity.
Qed.

(** The text is not a URL: the host would hold spaces.  What comes back is
    the text with the protocol put in front of it. *)
Lemma normalizeUrl_text_prefixed :
  Model.parse_url "https://not a url but text" = Model.Invalid
  /\ normalizeUrl Model.URL_href (VStr "not a url but text")
     = VStr "https://not a url but text"
  /\ normalizeUrl Model.URL_href (VStr "not a url but text")
     <> VStr "not a url but text".
Proof. repeat split. vm_compute. discriminate. Qed.

(** C4 (amended).  When the URL parser rejects the string handed to it, the
    URL normalizer returns that string: the input itself when it already
    starts with [http://] or [https://], and otherwise the input with
    [https://] put in front of it. *)
Theorem normalizeUrl_parse_failure (URL_href : string -> option string) (u : string) :
  u <> "" ->
  URL_href (with_protocol u) = None ->
  normalizeUrl URL_href (VStr u) = VStr (with_protocol u)
  /\ (has_protocol u = true -> normalizeUrl URL_href (VStr u) = VStr u)
  /\ (has_protocol u = false ->
      normalizeUrl URL_href (VStr u) = VStr ("https://" +:+ u)
      /\ normalizeUrl URL_href (VStr u) <> VStr u).
Proof.
  intros Hu Hfail. rewrite (normalizeUrl_string _ _ Hu), Hfail.
  split; [reflexivity|]. unfold with_protocol. split; intros ->.
  - reflexivity.
  - split; [reflexivity|]. intros [= H].
    apply (f_equal String.length) in H.
    rewrite StrFacts.append_length in H. simpl in H. lia.
Qed.

Lemma normalizeUrl_parse_failure_witness :
  Model.URL_href (with_protocol "not a url but text") = None
  /\ normalizeUrl Model.URL_href (VStr "not a url but text")
     = VStr "https://not a url but text"
  /\ normalizeUrl Model.URL_href (VStr "http://not a url") = VStr "http://not a url".
Proof.
  split; [reflexivity|]. split.
  - refine (proj1 (normalizeUrl_parse_failure Model.URL_href "not a url but text" _ _));
      [discriminate | reflexivity].
  - refine (proj1 (normalizeUrl_parse_failure Model.URL_href "http://not a url" _ _));
      [discriminate | reflexivity].
Defined.

(** ** Normalizing a canonical record again (C6) *)

Lemma clean_text_absent f v : clean_text f v -> text_or_absent v = true.
Proof. intros [-> | (s & -> & _)]; reflexivity. Qed.

Lemma clean_plain_fixed v : clean_text plain v -> js_or (trimmed v) VNull = v.
Proof.
  intros [-> | (s & -> & Hne & Ht & _)]; [reflexivity|].
  unfold js_or. simpl. rewrite Ht, (StrFacts.eqb_empty_false s Hne). reflexivity.
Qed.

Lemma clean_cased_fixed f v :
  clean_text f v -> js_or (opt_case f (trimmed v)) VNull = v.
Proof.
  intros [-> | (s & -> & Hne & Ht & Hf)]; [reflexivity|].
  unfold js_or. simpl. rewrite Ht, Hf, (StrFacts.eqb_empty_false s Hne). reflexivity.
Qed.

Lemma get_Some (c : record) k : is_Some (c !! k) -> c !! k = Some (get c k).
Proof. intros [v Hv]. unfold get. rewrite Hv. reflexivity. Qed.

Lemma canonical_field_in k :
  In k canonical_field_names -> k ∈ canonical_fields.
Proof. intros H. apply elem_of_list_to_set, list_elem_of_In. exact H. Qed.

(** A record with exactly the canonical fields is the literal of its fields. *)
Lemma record_literal_eta (c : record) (w : value) :
  dom c = canonical_fields ->
  record_literal (get c "business_name") (get c "category") (get c "street")
    (get c "city") (get c "state") (get c "postal_code") (get c "country")
    (get c "phone") (get c "email") w (get c "source_url")
    (get c "confidence") (get c "notes")
  = <["website" := w]> c.
Proof.
  intros Hdom.
  assert (forall k, In k canonical_field_names -> c !! k = Some (get c k)) as Hin.
  { intros k Hk. apply get_Some, elem_of_dom. rewrite Hdom.
    apply canonical_field_in, Hk. }
  assert (forall k, ~ In k canonical_field_names -> c !! k = None) as Hout.
  { intros k Hk. apply not_elem_of_dom. rewrite Hdom. intros H.
    apply Hk. apply elem_of_list_to_set, list_elem_of_In in H. exact H. }
  apply map_eq. intros k. unfold record_literal.
  repeat match goal with
  | |- <[?f := _]> _ !! k = _ =>
      destruct (decide (f = k)) as [<- | ?];
      [ rewrite lookup_insert_eq;
        first [ rewrite lookup_insert_eq; reflexivity
              | rewrite lookup_insert_ne by discriminate;
                symmetry; apply Hin; simpl; tauto ]
      | rewrite (lookup_insert_ne _ f k) by assumption ]
  end.
  rewrite lookup_empty. rewrite lookup_insert_ne by assumption.
  symmetry. apply Hout. simpl. intros H. intuition congruence.
Qed.

Lemma canonical_renormalize (URL_href : string -> option string) (c : record) :
  canonical_text c ->
  normalizeRecord URL_href c
  = Normal (<["website" := normalizeUrl URL_href (get c "website")]> c).
Proof.
  intros [Hdom Hbn Hcat Hst Hcity Hstate Hpc Hco Hph Hem Hsrc Hconf Hnotes].
  apply normalizeRecord_Normal. split.
  - simpl. rewrite (clean_text_absent _ _ Hbn), (clean_text_absent _ _ Hcat),
      (clean_text_absent _ _ Hst), (clean_text_absent _ _ Hcity),
      (clean_text_absent _ _ Hstate), (clean_text_absent _ _ Hpc),
      (clean_text_absent _ _ Hem), (clean_text_absent _ _ Hsrc),
      (clean_text_absent _ _ Hnotes).
    destruct Hco as (s & -> & _). reflexivity.
  - exists (get c "phone"). split.
    + destruct Hph as [-> | (p & -> & _ & Hp)]; [reflexivity | exact Hp].
    + unfold normalized.
      rewrite (clean_plain_fixed _ Hbn), (clean_plain_fixed _ Hcat),
        (clean_plain_fixed _ Hst), (clean_plain_fixed _ Hcity),
        (clean_cased_fixed _ _ Hstate), (clean_plain_fixed _ Hpc),
        (clean_cased_fixed _ _ Hem), (clean_plain_fixed _ Hsrc),
        (clean_plain_fixed _ Hnotes).
      assert (js_or (opt_case Str.toUpperCase (trimmed (get c "country"))) (VStr "US")
              = get c "country") as ->.
      { destruct Hco as (s & -> & Hne & Ht & Hu). unfold js_or. simpl.
        rewrite Ht, Hu, (StrFacts.eqb_empty_false s Hne). reflexivity. }
      assert ((if is_number (get c "confidence") then get c "confidence"
               else VNum num_half) = get c "confidence") as ->.
      { destruct Hconf as (x & ->). reflexivity. }
      symmetry. apply record_literal_eta, Hdom.
Qed.

(** The URL normalizer applied to its own result, when that result did not
    come out of the URL parser. *)
Lemma normalizeUrl_unparsed_fixed (URL_href : string -> option string) (v : value) :
  (forall u, v = VStr u -> URL_href (with_protocol u) = None) ->
  normalizeUrl URL_href (normalizeUrl URL_href v) = normalizeUrl URL_href v.
Proof.
  intros Hfail.
  destruct (truthy v) eqn:Ht.
  2:{ assert (normalizeUrl URL_href v = VNull) as ->
        by (unfold normalizeUrl; rewrite Ht; reflexivity).
      reflexivity. }
  destruct v as [| |b|x|u|o]; try discriminate;
    try (assert (forall w, truthy w = true -> (forall u, w <> VStr u) ->
                           normalizeUrl URL_href w = w) as Hid
           by (intros w Hw Hn; unfold normalizeUrl; rewrite Hw;
               destruct w; try reflexivity; congruence);
         rewrite !(Hid _ Ht) by discriminate; reflexivity).
  assert (u <> "") as Hu by (intros ->; discriminate).
  rewrite (normalizeUrl_string _ _ Hu), (Hfail u eq_refl).
  assert (with_protocol u <> "") as Hw.
  { intros H. pose proof (with_protocol_has u) as Hp. rewrite H in Hp. discriminate. }
  rewrite (normalizeUrl_string _ _ Hw).
  rewrite (with_protocol_fixed _ (with_protocol_has u)), (Hfail u eq_refl).
  reflexivity.
Qed.

(** A website with two [www.] labels loses one of them at each
    normalization: normalizing the canonical record changes it. *)
Lemma normalizeRecord_not_idempotent :
  Model.parse_url "https://www.www.example.com" = Model.Href "https://www.www.example.com/"
  /\ Model.parse_url "https://www.example.com" = Model.Href "https://www.example.com/"
  /\ normalizeRecord Model.URL_href www_candidate = Normal www_once
  /\ normalizeRecord Model.URL_href www_once = Normal www_twice
  /\ www_twice <> www_once.
Proof.
  split; [reflexivity|]. split; [reflexivity|].
  split; [normalize_closed|]. split; [normalize_closed|].
  intros H. apply (f_equal (fun c => get c "website")) in H.
  unfold www_once, www_twice in H. rewrite !get_literal_website in H.
  discriminate.
Qed.

(** C6 (amended).  Normalizing the record produced by [normalizeRecord]
    returns a record that agrees with it on every field but [website], to
    which the URL normalizer is applied once more; the record is returned
    unchanged when the candidate's [website] was not a string or was a
    string the URL parser rejected. *)
Theorem normalizeRecord_again (URL_href : string -> option string) (r c : record) :
  normalizeRecord URL_href r = Normal c ->
  exists c', normalizeRecord URL_href c = Normal c'
    /\ (forall k, k <> "website" -> c' !! k = c !! k)
    /\ get c' "website" = normalizeUrl URL_href (get c "website")
    /\ ((forall u, get r "website" = VStr u -> URL_href (with_protocol u) = None) ->
        c' = c).
Proof.
  intros H.
  pose proof (normalizeRecord_canonical_text _ _ _ H) as Hc.
  exists (<["website" := normalizeUrl URL_href (get c "website")]> c).
  split; [apply canonical_renormalize, Hc|].
  split; [intros k Hk; apply lookup_insert_ne; congruence|].
  split; [unfold get; rewrite lookup_insert_eq; reflexivity|].
  intros Hfail.
  assert (get c "website" = normalizeUrl URL_href (get r "website")) as Hw.
  { apply normalizeRecord_Normal in H as (_ & phone & _ & ->).
    unfold normalized. apply get_literal_website. }
  rewrite Hw, (normalizeUrl_unparsed_fixed _ _ Hfail), <- Hw.
  apply insert_id, get_Some, elem_of_dom.
  rewrite (canon_dom _ Hc). apply canonical_field_in. simpl. tauto.
Qed.

Lemma normalizeRecord_again_witness :
  normalizeRecord Model.URL_href google_candidate = Normal google_canonical
  /\ exists c', normalizeRecord Model.URL_href google_canonical = Normal c'
       /\ (forall k, k <> "website" -> c' !! k = google_canonical !! k)
       /\ get c' "website"
          = normalizeUrl Model.URL_href (get google_canonical "website").
Proof.
  split; [exact normalize_google_candidate|].
  destruct (normalizeRecord_again Model.URL_href google_candidate google_canonical
              normalize_google_candidate) as (c' & H1 & H2 & H3 & _).
  exists c'. auto.
Defined.

(** ** Merging two records (C2) *)

Lemma SFcompare_antisym (x y : number) :
  SFcompare y x = option_map CompOpp (SFcompare x y).
Proof.
  destruct x as [s|s| |s m e], y as [s'|s'| |s' m' e']; simpl;
    try reflexivity; try (destruct s; reflexivity);
    try (destruct s'; reflexivity); try (destruct s, s'; reflexivity).
  pose proof (Pos.compare_cont_antisym m m' Eq) as Hm. simpl in Hm.
  destruct s, s'; simpl; try reflexivity;
    rewrite (Z.compare_antisym e e');
    destruct (e ?= e')%Z; simpl; try reflexivity;
    rewrite <- Hm; destruct (Pos.compare_cont Eq m m'); reflexivity.
Qed.

Lemma SFltb_asym (x y : number) : SFltb x y = true -> SFltb y x = false.
Proof.
  unfold SFltb. rewrite (SFcompare_antisym x y).
  destruct (SFcompare x y) as [[]|]; simpl; congruence.
Qed.

Lemma truthy_present v : truthy v = true -> present v = true.
Proof. destruct v; simpl; congruence. Qed.

Lemma get_insert_eq (o : record) k v : get (<[k := v]> o) k = v.
Proof. unfold get. rewrite lookup_insert_eq. reflexivity. Qed.

Lemma get_insert_ne (o : record) k k' v : k <> k' -> get (<[k := v]> o) k' = get o k'.
Proof. intros H. unfold get. rewrite lookup_insert_ne by exact H. reflexivity. Qed.

(** What the gap-filling loop leaves in each field. *)
Lemma get_fill_gaps (existing incoming : record) (k : string) :
  get (map_fold fill_gap existing incoming) k =
  if negb (truthy (get existing k)) && truthy (get incoming k)
  then get incoming k else get existing k.
Proof.
  revert k.
  apply (map_fold_weak_ind
           (fun (merged : record) (seen : record) => forall k,
              get merged k =
              if negb (truthy (get existing k)) && truthy (get seen k)
              then get seen k else get existing k)).
  - intros k. unfold get at 3. rewrite lookup_empty. simpl.
    rewrite andb_false_r. reflexivity.
  - intros i x seen merged Hi IH k. unfold fill_gap.
    pose proof (IH i) as IHi.
    assert (get seen i = VUndef) as Hs by (unfold get; rewrite Hi; reflexivity).
    rewrite Hs in IHi. simpl in IHi. rewrite andb_false_r in IHi.
    rewrite IHi.
    destruct (decide (i = k)) as [<- | Hne].
    + rewrite (get_insert_eq seen).
      destruct (negb (truthy (get existing i)) && truthy x) eqn:E.
      * apply get_insert_eq.
      * exact IHi.
    + rewrite (get_insert_ne seen) by exact Hne.
      destruct (negb (truthy (get existing i)) && truthy x).
      * rewrite get_insert_ne by exact Hne. apply IH.
      * apply IH.
Qed.

Section Merge.

Variable Number_toString : number -> string.
Variable StringToNumber : string -> number.

Local Abbreviation merge := (mergeRecords Number_toString StringToNumber).
Local Abbreviation gt := (js_gt StringToNumber).

Lemma merge_notes_string (a b : record) :
  exists s, merge_notes Number_toString a b = VStr s.
Proof. unfold merge_notes. eauto. Qed.

Lemma get_merge_notes (existing incoming : record) :
  get (merge existing incoming) "notes"
  = merge_notes Number_toString existing incoming.
Proof. unfold mergeRecords. destruct (js_gt _ _ _); apply get_insert_eq. Qed.

(** The branch taken when [incoming] has the greater confidence. *)
Lemma get_merge_wins (existing incoming : record) (k : string) :
  gt (get incoming "confidence") (get existing "confidence") = true ->
  k <> "notes" ->
  get (merge existing incoming) k =
  match incoming !! k with
  | Some v => v
  | None => get existing k
  end.
Proof.
  intros Hgt Hk. unfold mergeRecords. rewrite Hgt.
  rewrite get_insert_ne by congruence. unfold get.
  destruct (incoming !! k) as [v|] eqn:E.
  - rewrite (lookup_union_l' incoming existing k) by eauto. rewrite E. reflexivity.
  - rewrite (lookup_union_r incoming existing k E). reflexivity.
Qed.

(** The gap-filling branch. *)
Lemma get_merge_fills (existing incoming : record) (k : string) :
  gt (get incoming "confidence") (get existing "confidence") = false ->
  k <> "notes" ->
  get (merge existing incoming) k =
  if negb (truthy (get existing k)) && truthy (get incoming k)
  then get incoming k else get existing k.
Proof.
  intros Hgt Hk. unfold mergeRecords. rewrite Hgt. cbv zeta.
  rewrite get_insert_ne by congruence. apply get_fill_gaps.
Qed.


(** In a canonical record a field that is present is truthy, unless it is
    the confidence. *)
Lemma canonical_present_truthy (c : record) (k : string) :
  canonical c -> present (get c k) = true ->
  truthy (get c k) = true \/ k = "confidence".
Proof.
  intros [[Hdom Hbn Hcat Hst Hcity Hstate Hpc Hco Hph Hem Hsrc Hconf Hnotes] Hweb] Hp.
  assert (forall f v, clean_text f v -> present v = true -> truthy v = true) as Hclean.
  { intros f v [-> | (s & -> & Hne & _)]; [discriminate|].
    intros _. simpl. rewrite (StrFacts.eqb_empty_false s Hne). reflexivity. }
  destruct (c !! k) as [v|] eqn:E.
  2:{ unfold get in Hp. rewrite E in Hp. discriminate. }
  assert (k ∈ canonical_fields) as Hin by (rewrite <- Hdom; apply elem_of_dom; eauto).
  apply elem_of_list_to_set, list_elem_of_In in Hin. simpl in Hin.
  repeat (destruct Hin as [<- | Hin]; [eauto|]); try contradiction.
  - left. destruct Hco as (s & Hs & Hne & _). rewrite Hs. simpl.
    rewrite (StrFacts.eqb_empty_false s Hne). reflexivity.
  - left. destruct Hph as [Hn | (p & Hs & Hne & _)].
    + rewrite Hn in Hp. discriminate.
    + rewrite Hs. simpl. rewrite (StrFacts.eqb_empty_false p Hne). reflexivity.
  - left. destruct Hweb as [Hn | Ht]; [rewrite Hn in Hp; discriminate | exact Ht].
Qed.

Lemma canonical_lookup (c : record) (k : string) :
  canonical c -> c !! k = None -> k ∉ canonical_fields.
Proof. intros [[Hdom _] _] E. rewrite <- Hdom. apply not_elem_of_dom. exact E. Qed.

Lemma canonical_confidence (c : record) :
  canonical c -> exists x, get c "confidence" = VNum x.
Proof. intros [Hc _]. exact (canon_confidence _ Hc). Qed.

Lemma merge_present_notes (existing incoming : record) :
  present (get (merge existing incoming) "notes") = true.
Proof.
  rewrite get_merge_notes.
  destruct (merge_notes_string existing incoming) as [s ->]. reflexivity.
Qed.

(** When [incoming] does not have the greater confidence, nothing that is
    present in either record is lost. *)
Lemma merge_fills_keeps (existing incoming : record) (k : string) :
  canonical existing -> canonical incoming ->
  gt (get incoming "confidence") (get existing "confidence") = false ->
  present (get existing k) || present (get incoming k) = true ->
  present (get (merge existing incoming) k) = true.
Proof.
  intros He Hi Hgt Hp.
  destruct (decide (k = "notes")) as [-> | Hk]; [apply merge_present_notes|].
  rewrite (get_merge_fills _ _ k Hgt Hk).
  destruct (negb (truthy (get existing k)) && truthy (get incoming k)) eqn:E.
  - apply andb_prop in E as [_ E]. apply truthy_present, E.
  - destruct (present (get existing k)) eqn:Pe; [reflexivity|]. simpl in Hp.
    destruct (canonical_present_truthy _ _ Hi Hp) as [Ht | ->].
    + rewrite Ht, andb_true_r in E. apply negb_false_iff in E.
      apply truthy_present in E. congruence.
    + destruct (canonical_confidence _ He) as [x Hx]. rewrite Hx in Pe. discriminate.
Qed.

(** Whatever the branch, nothing that is present in [incoming] is lost. *)
Lemma merge_keeps_incoming (existing incoming : record) (k : string) :
  canonical existing -> canonical incoming ->
  present (get incoming k) = true ->
  present (get (merge existing incoming) k) = true.
Proof.
  intros He Hi Hp.
  destruct (gt (get incoming "confidence") (get existing "confidence")) eqn:Hgt.
  - destruct (decide (k = "notes")) as [-> | Hk]; [apply merge_present_notes|].
    rewrite (get_merge_wins _ _ k Hgt Hk).
    unfold get in Hp. destruct (incoming !! k); [exact Hp | discriminate].
  - apply merge_fills_keeps; try assumption. rewrite Hp. apply orb_true_r.
Qed.

(** When [incoming] has the greater confidence, its fields are taken as
    they are, absent ones included. *)
Lemma merge_wins_takes (existing incoming : record) (k : string) :
  canonical existing -> canonical incoming ->
  gt (get incoming "confidence") (get existing "confidence") = true ->
  k <> "notes" ->
  get (merge existing incoming) k = get incoming k.
Proof.
  intros He Hi Hgt Hk. rewrite (get_merge_wins _ _ k Hgt Hk).
  unfold get. destruct (incoming !! k) as [v|] eqn:E; [reflexivity|].
  pose proof (canonical_lookup _ _ Hi E) as Hout.
  destruct He as [[Hdom _] _]. rewrite <- Hdom in Hout.
  apply not_elem_of_dom in Hout. rewrite Hout. reflexivity.
Qed.

Lemma gt_asym (a b : record) :
  canonical a -> canonical b ->
  gt (get b "confidence") (get a "confidence") = true ->
  gt (get a "confidence") (get b "confidence") = false.
Proof.
  intros Ha Hb.
  destruct (canonical_confidence _ Ha) as [x ->].
  destruct (canonical_confidence _ Hb) as [y ->].
  apply SFltb_asym.
Qed.

End Merge.

(** Proves [canonical] of a closed [record_literal]. *)
Ltac clean_closed :=
  first [ left; reflexivity
        | right; eexists; split; [reflexivity|];
          repeat split; first [discriminate | reflexivity] ].

Ltac canonical_closed :=
  split;
  [ split;
    [ apply record_literal_dom
    | rewrite get_literal_business_name; clean_closed
    | rewrite get_literal_category; clean_closed
    | rewrite get_literal_street; clean_closed
    | rewrite get_literal_city; clean_closed
    | rewrite get_literal_state; clean_closed
    | rewrite get_literal_postal_code; clean_closed
    | rewrite get_literal_country; eexists; split; [reflexivity|];
      repeat split; first [discriminate | reflexivity]
    | rewrite get_literal_phone; clean_closed
    | rewrite get_literal_email; clean_closed
    | rewrite get_literal_source_url; clean_closed
    | rewrite get_literal_confidence; eexists; reflexivity
    | rewrite get_literal_notes; clean_closed ]
  | rewrite get_literal_website; first [left; reflexivity | right; reflexivity] ].

Lemma with_phone_canonical : canonical with_phone.
Proof. unfold with_phone. canonical_closed. Qed.

Lemma without_phone_canonical : canonical without_phone.
Proof. unfold without_phone. canonical_closed. Qed.

(** The phone of [with_phone] is lost when [without_phone], which has the
    greater confidence and no phone, is merged into it, and kept when they
    are merged the other way round; the two records share their key. *)
Lemma merge_loses_phone :
  getDeduplicationKey Model.Number_toString Model.Date_now Model.Math_random 0 with_phone
    = Normal "website:https://abc.com"
  /\ getDeduplicationKey Model.Number_toString Model.Date_now Model.Math_random 1 without_phone
    = Normal "website:https://abc.com"
  /\ present (get with_phone "phone") = true
  /\ get (mergeRecords Model.Number_toString Model.StringToNumber with_phone without_phone)
         "phone" = VNull
  /\ get (mergeRecords Model.Number_toString Model.StringToNumber without_phone with_phone)
         "phone" = VStr "+18135551234".
Proof. repeat split; vm_compute; reflexivity. Qed.

(** C2 (amended).  Merging [incoming] into [existing], two canonical records
    (in particular two that share a deduplication key): every field present
    in [incoming] is present in the result, and so is [notes]; when
    [incoming] does not have the strictly greater confidence, every field
    present in at least one of the two is present in the result; when it
    has, the result takes the value of [incoming] for every field but
    [notes], so that a field present in [existing] only is replaced by the
    absent-marker.  Hence in at least one of the two orders nothing present
    is lost. *)
Theorem mergeRecords_density (Number_toString : number -> string)
    (StringToNumber : string -> number) (existing incoming : record) :
  canonical existing -> canonical incoming ->
  let merge := mergeRecords Number_toString StringToNumber in
  let wins a b := js_gt StringToNumber (get b "confidence") (get a "confidence") in
  let kept a b := forall k, present (get a k) || present (get b k) = true ->
                            present (get (merge a b) k) = true in
  (forall k, present (get incoming k) = true ->
             present (get (merge existing incoming) k) = true)
  /\ present (get (merge existing incoming) "notes") = true
  /\ (wins existing incoming = false -> kept existing incoming)
  /\ (wins existing incoming = true ->
      forall k, k <> "notes" -> get (merge existing incoming) k = get incoming k)
  /\ (kept existing incoming \/ kept incoming existing).
Proof.
  intros He Hi merge wins kept.
  assert (wins existing incoming = false -> kept existing incoming) as Hfill.
  { intros Hgt k Hk. apply merge_fills_keeps; assumption. }
  split; [intros k Hk; apply merge_keeps_incoming; assumption|].
  split; [apply merge_present_notes|].
  split; [exact Hfill|].
  split; [intros Hgt k Hk; apply merge_wins_takes; assumption|].
  destruct (wins existing incoming) eqn:Hgt.
  - right. intros k Hk. apply merge_fills_keeps; try assumption.
    apply gt_asym; assumption.
  - left. apply Hfill. reflexivity.
Qed.

Lemma mergeRecords_density_witness :
  canonical without_phone /\ canonical with_phone
  /\ present (get (mergeRecords Model.Number_toString Model.StringToNumber
                     without_phone with_phone) "phone") = true
  /\ present (get (mergeRecords Model.Number_toString Model.StringToNumber
                     with_phone without_phone) "notes") = true.
Proof.
  split; [exact without_phone_canonical|]. split; [exact with_phone_canonical|].
  split.
  - refine (proj1 (mergeRecords_density Model.Number_toString Model.StringToNumber
                     without_phone with_phone
                     without_phone_canonical with_phone_canonical) "phone" _).
    reflexivity.
  - exact (proj1 (proj2 (mergeRecords_density Model.Number_toString Model.StringToNumber
                     with_phone without_phone
                     with_phone_canonical without_phone_canonical))).
Defined.

(** ** The deduplication engine (C8) *)

Lemma elem_of_first_seen ks x : x ∈ first_seen ks <-> x ∈ ks.
Proof.
  induction ks as [|k ks IH]; simpl; [reflexivity|].
  rewrite !elem_of_cons, list_elem_of_filter, IH.
  destruct (decide (x = k)); tauto.
Qed.

Lemma NoDup_first_seen ks : NoDup (first_seen ks).
Proof.
  induction ks as [|k ks IH]; simpl; constructor.
  - rewrite list_elem_of_filter. tauto.
  - apply NoDup_filter, IH.
Qed.

Lemma length_first_seen ks : length (first_seen ks) <= length ks.
Proof.
  induction ks as [|k ks IH]; simpl; [lia|].
  pose proof (length_filter (fun x => x <> k) (first_seen ks)). lia.
Qed.

(** The number of distinct elements. *)
Lemma length_first_seen_distinct ks :
  length (first_seen ks) = size (list_to_set ks : gset string).
Proof.
  rewrite <- (size_list_to_set (C := gset string) (first_seen ks))
    by apply NoDup_first_seen.
  f_equal. apply set_eq. intros x.
  rewrite !elem_of_list_to_set. apply elem_of_first_seen.
Qed.

(** The map [seen] as a list. *)
Lemma Map_get_None seen k : Map_get seen k = None <-> k ∉ seen.*1.
Proof.
  induction seen as [|[k' v] seen IH]; simpl.
  - split; [intros _; apply not_elem_of_nil | reflexivity].
  - rewrite not_elem_of_cons. destruct (String.eqb k' k) eqn:E.
    + apply String.eqb_eq in E. split; [discriminate | intros [H _]; congruence].
    + apply String.eqb_neq in E. rewrite IH.
      split; [intros H; split; [congruence | exact H] | tauto].
Qed.

Lemma Map_set_keys seen k v :
  (Map_set seen k v).*1 = if decide (k ∈ seen.*1) then seen.*1 else seen.*1 ++ [k].
Proof.
  induction seen as [|[k' x] seen IH].
  - destruct (decide (k ∈ ([] : seen_map).*1)) as [H|H]; [inversion H | reflexivity].
  - cbn [Map_set]. destruct (String.eqb k' k) eqn:E.
    + apply String.eqb_eq in E. subst k'.
      destruct (decide (k ∈ ((k, x) :: seen).*1)) as [H|H]; [reflexivity|].
      exfalso. apply H. apply list_elem_of_here.
    + apply String.eqb_neq in E.
      change (((k', x) :: Map_set seen k v).*1) with (k' :: (Map_set seen k v).*1).
      change (((k', x) :: seen).*1) with (k' :: seen.*1).
      rewrite IH.
      destruct (decide (k ∈ seen.*1)) as [Hin | Hout],
               (decide (k ∈ k' :: seen.*1)) as [Hin' | Hout']; try reflexivity.
      * exfalso. apply Hout'. apply list_elem_of_further, Hin.
      * exfalso. apply elem_of_cons in Hin' as [-> | H]; [congruence | contradiction].
Qed.

Lemma Map_get_set_eq seen k v : Map_get (Map_set seen k v) k = Some v.
Proof.
  induction seen as [|[k' x] seen IH]; simpl.
  - rewrite String.eqb_refl. reflexivity.
  - destruct (String.eqb k' k) eqn:E; simpl; rewrite ?E; [reflexivity | exact IH].
Qed.

Lemma Map_get_set_ne seen k k' v : k <> k' -> Map_get (Map_set seen k v) k' = Map_get seen k'.
Proof.
  intros Hne. induction seen as [|[k0 x] seen IH]; simpl.
  - apply String.eqb_neq in Hne. rewrite Hne. reflexivity.
  - destruct (String.eqb k0 k) eqn:E; simpl.
    + apply String.eqb_eq in E. subst k0.
      apply String.eqb_neq in Hne. rewrite Hne. reflexivity.
    + destruct (String.eqb k0 k'); [reflexivity | exact IH].
Qed.

Section Engine.

Variable Number_toString : number -> string.
Variable StringToNumber : string -> number.
Variable Date_now Math_random : nat -> number.

Local Abbreviation key_of := (getDeduplicationKey Number_toString Date_now Math_random).
Local Abbreviation merge := (mergeRecords Number_toString StringToNumber).
Local Abbreviation keys_of := (record_keys Number_toString Date_now Math_random).
Local Abbreviation step := (dedup_step Number_toString StringToNumber).
Local Abbreviation merged := (merged_group Number_toString StringToNumber).
Local Abbreviation loop :=
  (dedup_loop Number_toString StringToNumber Date_now Math_random).

Lemma dedup_loop_fold tick records seen keys :
  keys_of tick records = Normal keys ->
  loop tick records seen = Normal (foldl step seen (zip keys records)).
Proof.
  revert tick seen keys.
  induction records as [|r records IH]; intros tick seen keys; simpl.
  - intros [= <-]. reflexivity.
  - destruct (key_of tick r) as [k|e]; simpl; [|discriminate].
    destruct (keys_of (S tick) records) as [ks|e] eqn:E; simpl; [|discriminate].
    intros [= <-]. simpl. unfold dedup_step at 2. simpl.
    destruct (Map_get seen k); apply IH; exact E.
Qed.

Lemma dedup_loop_throws tick records seen e :
  keys_of tick records = Throw e -> loop tick records seen = Throw e.
Proof.
  revert tick seen.
  induction records as [|r records IH]; intros tick seen; simpl; [discriminate|].
  destruct (key_of tick r) as [k|e']; simpl; [|intros [= <-]; reflexivity].
  destruct (keys_of (S tick) records) as [ks|e'] eqn:E; simpl; [discriminate|].
  intros [= <-]. destruct (Map_get seen k); apply IH; exact E.
Qed.

Lemma record_keys_length tick records keys :
  keys_of tick records = Normal keys -> length keys = length records.
Proof.
  revert tick keys. induction records as [|r records IH]; intros tick keys; simpl.
  - intros [= <-]. reflexivity.
  - destruct (key_of tick r) as [k|e]; simpl; [|discriminate].
    destruct (keys_of (S tick) records) as [ks|e] eqn:E; simpl; [|discriminate].
    intros [= <-]. simpl. f_equal. exact (IH _ _ E).
Qed.

Lemma dedup_step_keys seen k r :
  (step seen (k, r)).*1 = if decide (k ∈ seen.*1) then seen.*1 else seen.*1 ++ [k].
Proof. unfold dedup_step. simpl. destruct (Map_get seen k); apply Map_set_keys. Qed.

(** The keys of the map after the loop: those it had, then the new ones in
    the order of their first occurrence. *)
Lemma fold_keys (krs : list (string * record)) (seen : seen_map) :
  (foldl step seen krs).*1
  = seen.*1 ++ filter (fun x => x ∉ seen.*1) (first_seen krs.*1).
Proof.
  revert seen. induction krs as [|[k r] krs IH]; intros seen; simpl.
  - rewrite app_nil_r. reflexivity.
  - rewrite IH, dedup_step_keys.
    set (fs := first_seen krs.*1).
    destruct (decide (k ∈ seen.*1)) as [Hin | Hout].
    + rewrite filter_cons_False by tauto.
      rewrite list_filter_filter_l; [reflexivity|].
      intros x Hx ->. contradiction.
    + rewrite filter_cons_True by exact Hout.
      rewrite <- app_assoc. simpl. do 2 f_equal.
      rewrite list_filter_filter. apply list_filter_iff.
      intros x. rewrite not_elem_of_app, list_elem_of_singleton. tauto.
Qed.

Lemma fold_values (krs : list (string * record)) (seen : seen_map) (k : string) :
  Map_get (foldl step seen krs) k =
  match Map_get seen k with
  | Some existing => Some (foldl merge existing (group k krs))
  | None => merged (group k krs)
  end.
Proof.
  revert seen. induction krs as [|[k' r] krs IH]; intros seen; simpl.
  - destruct (Map_get seen k); reflexivity.
  - rewrite IH. unfold group. rewrite filter_cons. simpl.
    destruct (decide (k' = k)) as [-> | Hne]; simpl.
    + unfold dedup_step. simpl.
      destruct (Map_get seen k) as [e|]; rewrite Map_get_set_eq; reflexivity.
    + unfold dedup_step. simpl.
      destruct (Map_get seen k'); rewrite Map_get_set_ne by exact Hne; reflexivity.
Qed.

Lemma filter_all {A} (P : A -> Prop) `{forall x, Decision (P x)} (l : list A) :
  (forall x, P x) -> filter P l = l.
Proof.
  intros HP. induction l as [|x l IH]; [reflexivity|].
  rewrite filter_cons_True by apply HP. rewrite IH. reflexivity.
Qed.

(** On a record in canonical form every tier of the key can be computed. *)
Lemma key_of_canonical (tick : nat) (c : record) :
  canonical_text c -> exists k, key_of tick c = Normal k.
Proof.
  intros Hc. unfold getDeduplicationKey.
  destruct (canon_business_name _ Hc) as [-> | (s & -> & _)];
    cbn [truthy andb call_toLowerCase opt_toLowerCase];
    repeat match goal with
    | |- context [if ?b then _ else _] => destruct b; cbn [andb]
    end; simpl; eauto.
Qed.

Lemma record_keys_canonical (tick : nat) (records : list record) :
  Forall canonical_text records -> exists keys, keys_of tick records = Normal keys.
Proof.
  intros H. revert tick. induction H as [|r records Hr _ IH]; intros tick; simpl.
  - eauto.
  - destruct (key_of_canonical tick r Hr) as [k ->].
    destruct (IH (S tick)) as [ks ->]. simpl. eauto.
Qed.

(** What the engine returns once the keys are known. *)
Lemma dedup_result (records : list record) (keys : list string) :
  keys_of 0 records = Normal keys ->
  let seen := foldl step [] (zip keys records) in
  loop 0 records [] = Normal seen
  /\ deduplicateRecords Number_toString StringToNumber Date_now Math_random records
     = Normal seen.*2
  /\ seen.*1 = first_seen keys
  /\ (forall k, Map_get seen k = merged (group k (zip keys records)))
  /\ length seen.*2 = size (list_to_set keys : gset string)
  /\ length seen.*2 <= length records
  /\ (records <> [] -> 1 <= length seen.*2).
Proof.
  intros Hkeys seen.
  pose proof (dedup_loop_fold 0 records [] keys Hkeys) as Hloop.
  pose proof (record_keys_length _ _ _ Hkeys) as Hlen.
  assert (seen.*1 = first_seen keys) as Hk.
  { unfold seen. rewrite fold_keys. simpl.
    rewrite fst_zip by lia. apply filter_all. intros x. apply not_elem_of_nil. }
  assert (length seen.*2 = length (first_seen keys)) as Hl
    by (rewrite <- Hk, !length_fmap; reflexivity).
  split; [exact Hloop|].
  split; [unfold deduplicateRecords; fold seen in Hloop; rewrite Hloop; reflexivity|].
  split; [exact Hk|].
  split; [intros k; unfold seen; rewrite fold_values; reflexivity|].
  split; [rewrite Hl; apply length_first_seen_distinct|].
  split; [rewrite Hl, <- Hlen; apply length_first_seen|].
  intros Hne. rewrite Hl. destruct keys as [|k keys]; simpl; [|lia].
  destruct records; [contradiction | discriminate].
Qed.

End Engine.


Lemma other_business_canonical : canonical other_business.
Proof. unfold other_business. canonical_closed. Qed.

(** C8.  On a non-empty sequence of N canonical records the engine returns,
    and it returns as many records as there are distinct keys among the keys
    it computed, K of them with 1 <= K <= N: the keys of its map, in
    insertion order, are the distinct keys in the order of their first
    occurrence, and the record of each key is the merge, from left to
    right, of the records that carry it. *)
Theorem deduplicateRecords_count (Number_toString : number -> string)
    (StringToNumber : string -> number) (Date_now Math_random : nat -> number)
    (records : list record) :
  records <> [] ->
  Forall canonical records ->
  exists (keys : list string) (seen : seen_map),
    record_keys Number_toString Date_now Math_random 0 records = Normal keys
    /\ dedup_loop Number_toString StringToNumber Date_now Math_random 0 records []
       = Normal seen
    /\ deduplicateRecords Number_toString StringToNumber Date_now Math_random records
       = Normal seen.*2
    /\ seen.*1 = first_seen keys
    /\ (forall k, Map_get seen k
                  = merged_group Number_toString StringToNumber
                      (group k (zip keys records)))
    /\ length seen.*2 = size (list_to_set keys : gset string)
    /\ 1 <= length seen.*2 <= length records.
Proof.
  intros Hne Hcanon.
  assert (Forall canonical_text records) as Htext
    by (eapply Forall_impl; [exact Hcanon | intros r [Hr _]; exact Hr]).
  destruct (record_keys_canonical Number_toString Date_now Math_random 0 records Htext)
    as [keys Hkeys].
  destruct (dedup_result Number_toString StringToNumber Date_now Math_random
              records keys Hkeys) as (H1 & H2 & H3 & H4 & H5 & H6 & H7).
  eexists keys, _. repeat split; try eassumption. apply H7, Hne.
Qed.

Lemma deduplicateRecords_count_witness :
  Forall canonical [with_phone; other_business; without_phone]
  /\ exists (keys : list string) (seen : seen_map),
      record_keys Model.Number_toString Model.Date_now Model.Math_random 0
        [with_phone; other_business; without_phone] = Normal keys
      /\ deduplicateRecords Model.Number_toString Model.StringToNumber
           Model.Date_now Model.Math_random
           [with_phone; other_business; without_phone] = Normal seen.*2
      /\ seen.*1 = first_seen keys
      /\ length seen.*2 = size (list_to_set keys : gset string).
Proof.
  assert (Forall canonical [with_phone; other_business; without_phone]) as Hc.
  { constructor; [exact with_phone_canonical|].
    constructor; [exact other_business_canonical|].
    constructor; [exact without_phone_canonical|]. constructor. }
  split; [exact Hc|].
  destruct (deduplicateRecords_count Model.Number_toString Model.StringToNumber
              Model.Date_now Model.Math_random
              [with_phone; other_business; without_phone])
    as (keys & seen & H1 & _ & H3 & H4 & _ & H6 & _);
    [discriminate | exact Hc |].
  exists keys, seen. auto.
Defined.

(** The same run, evaluated: three records, two distinct keys, two records
    out, the website key first. *)
Lemma deduplicateRecords_example :
  record_keys Model.Number_toString Model.Date_now Model.Math_random 0
    [with_phone; other_business; without_phone]
  = Normal ["website:https://abc.com"; "name-zip:bay plumbing:33602";
            "website:https://abc.com"]
  /\ fields_of ["business_name"; "phone"; "notes"]
       (deduplicateRecords Model.Number_toString Model.StringToNumber
          Model.Date_now Model.Math_random
          [with_phone; other_business; without_phone])
     = Some [[VStr "ABC Realty"; VNull; VStr "verified"];
             [VStr "Bay Plumbing"; VNull; VNull]].
Proof. split; vm_compute; reflexivity. Qed.

(** ** Total failure (C9) *)

(** C9.  [orchestrate] and [quickCollect] never throw.  When the language
    model fails, [orchestrate] returns a result set with no rows,
    [total_found] 0 and the message of the failure in [meta.error]; when
    both collectors fail, [quickCollect] returns a result set with no rows,
    [total_found] 0 and a message in [meta.error]. *)
Theorem total_failure_result (URL_href : string -> option string)
    (Number_toString : number -> string) (StringToNumber : string -> number)
    (Date_now Math_random : nat -> number)
    (category geography : value) (maxResults : option Z) (api_key : bool)
    (e_llm e_google e_opencorporates : exn) :
  let orchestrate := orchestrate URL_href Number_toString StringToNumber
                       Date_now Math_random category geography maxResults in
  let quickCollect := quickCollect category geography api_key in
  (forall llm, exists rs, orchestrate llm = Normal rs)
  /\ (forall google opencorporates, exists rs, quickCollect google opencorporates = Normal rs)
  /\ (exists rs, orchestrate (Throw e_llm) = Normal rs
                 /\ rows rs = RowsArray []
                 /\ meta rs !! "total_found" = Some (MCount 0)
                 /\ meta rs !! "error" = Some (MValue (VStr (message_of e_llm))))
  /\ (exists rs, quickCollect (Throw e_google) (Throw e_opencorporates) = Normal rs
                 /\ rows rs = RowsArray []
                 /\ meta rs !! "total_found" = Some (MCount 0)
                 /\ meta rs !! "error" = Some (MValue (VStr "All data sources failed"))).
Proof.
  intros orch quick. split; [|split; [|split]].
  - intros llm. unfold orch, orchestrate.
    destruct (orchestrate_try _ _ _ _ _ llm); simpl; eauto.
  - intros google oc. unfold quick, quickCollect.
    destruct api_key, google as [gs|], oc as [os|]; simpl;
      try destruct (0 <? length gs)%nat; simpl; eauto.
  - eexists. split; [reflexivity|]. repeat split.
  - unfold quick, quickCollect. destruct api_key; simpl;
      (eexists; split; [reflexivity|]; repeat split).
Qed.

(** Whatever goes wrong inside the [try] block of [orchestrate] ends in the
    same kind of result. *)
Lemma orchestrate_failure (URL_href : string -> option string)
    (Number_toString : number -> string) (StringToNumber : string -> number)
    (Date_now Math_random : nat -> number)
    (category geography : value) (maxResults : option Z)
    (llm : completion (option llm_result)) (e : exn) :
  orchestrate_try URL_href Number_toString StringToNumber Date_now Math_random llm
    = Throw e ->
  exists rs, orchestrate URL_href Number_toString StringToNumber Date_now Math_random
               category geography maxResults llm = Normal rs
             /\ rows rs = RowsArray []
             /\ meta rs !! "total_found" = Some (MCount 0)
             /\ meta rs !! "error" = Some (MValue (VStr (message_of e))).
Proof.
  intros H. unfold orchestrate. rewrite H. simpl.
  eexists. split; [reflexivity|]. repeat split.
Qed.

(** [collectFromAllSources] reports a failed collector in the list
    [meta.errors]; it sets no [meta.error]. *)
Lemma collectFromAllSources_failure (Number_toString : number -> string)
    (StringToNumber : string -> number) (Date_now Math_random : nat -> number)
    (category geography : value) (maxResults : option Z) (e : exn) :
  exists rs, collectFromAllSources Number_toString StringToNumber Date_now Math_random
               category geography maxResults true (Throw e) = Normal rs
             /\ rows rs = RowsArray []
             /\ meta rs !! "total_found" = Some (MCount 0)
             /\ meta rs !! "errors" = Some (MErrors [("Google Places", message_of e)])
             /\ meta rs !! "error" = None.
Proof.
  unfold collectFromAllSources, finish_collection. simpl.
  eexists. split; [reflexivity|]. simpl.
  assert (forall n, take n ([] : list record) = []) as Ht by (intros []; reflexivity).
  unfold Array_slice0. simpl. rewrite Ht. repeat split.
Qed.

(** ** Fields of a merge *)

Section MergeMore.

Variable Number_toString : number -> string.
Variable StringToNumber : string -> number.

Local Abbreviation merge := (mergeRecords Number_toString StringToNumber).
Local Abbreviation gt := (js_gt StringToNumber).

Lemma dom_fill_gaps (fields : gset string) (existing incoming : record) :
  dom existing = fields -> dom incoming ⊆ fields ->
  dom (map_fold fill_gap existing incoming) = fields.
Proof.
  intros He.
  apply (map_fold_weak_ind
           (fun (merged : record) (seen : record) =>
              dom seen ⊆ fields -> dom merged = fields)).
  - intros _. exact He.
  - intros i x seen merged Hi IH Hsub.
    rewrite dom_insert in Hsub.
    assert (dom merged = fields) as Hm.
    { apply IH. intros y Hy. apply Hsub, elem_of_union_r, Hy. }
    unfold fill_gap. destruct (negb (truthy (get merged i)) && truthy x); [|exact Hm].
    rewrite dom_insert_L, Hm. apply subseteq_union_1_L, singleton_subseteq_l.
    apply Hsub, elem_of_union_l, elem_of_singleton. reflexivity.
Qed.

Lemma mergeRecords_dom (fields : gset string) (existing incoming : record) :
  dom existing = fields -> dom incoming = fields -> "notes" ∈ fields ->
  dom (merge existing incoming) = fields.
Proof.
  intros He Hi Hn. unfold mergeRecords.
  destruct (js_gt _ _ _); cbv zeta; rewrite dom_insert_L.
  - rewrite dom_union_L, He, Hi, union_idemp_L.
    apply subseteq_union_1_L, singleton_subseteq_l, Hn.
  - rewrite (dom_fill_gaps fields) by (try assumption; rewrite Hi; reflexivity).
    apply subseteq_union_1_L, singleton_subseteq_l, Hn.
Qed.

(** Outside [notes] a field of the merge is the field of one of the two
    records. *)
Lemma mergeRecords_choice (existing incoming : record) (k : string) :
  k <> "notes" ->
  get (merge existing incoming) k = get existing k
  \/ get (merge existing incoming) k = get incoming k.
Proof.
  intros Hk.
  destruct (gt (get incoming "confidence") (get existing "confidence")) eqn:Hgt.
  - rewrite (get_merge_wins _ _ _ _ k Hgt Hk). unfold get.
    destruct (incoming !! k); auto.
  - rewrite (get_merge_fills _ _ _ _ k Hgt Hk).
    destruct (negb _ && _); auto.
Qed.

End MergeMore.

(** ** The engine: what every stored record satisfies *)

Lemma Map_get_elem (seen : seen_map) (k : string) (v : record) :
  Map_get seen k = Some v -> v ∈ seen.*2.
Proof.
  induction seen as [|[k' x] seen IH]; simpl; [discriminate|].
  destruct (String.eqb k' k).
  - intros [= ->]. apply list_elem_of_here.
  - intros H. apply list_elem_of_further, IH, H.
Qed.

Lemma Map_set_Forall (P : record -> Prop) (seen : seen_map) (k : string) (v : record) :
  Forall P seen.*2 -> P v -> Forall P (Map_set seen k v).*2.
Proof.
  intros Hs Hv. induction seen as [|[k' x] seen IH]; simpl.
  - constructor; [exact Hv | constructor].
  - inversion_clear Hs as [|? ? Hx Hrest].
    destruct (String.eqb k' k); constructor; auto.
Qed.

Section EngineInvariant.

Variable Number_toString : number -> string.
Variable StringToNumber : string -> number.
Variable Date_now Math_random : nat -> number.

Local Abbreviation merge := (mergeRecords Number_toString StringToNumber).
Local Abbreviation keys_of := (record_keys Number_toString Date_now Math_random).
Local Abbreviation step := (dedup_step Number_toString StringToNumber).
Local Abbreviation dedup :=
  (deduplicateRecords Number_toString StringToNumber Date_now Math_random).

Variable P : record -> Prop.
Hypothesis P_merge : forall existing incoming,
  P existing -> P incoming -> P (merge existing incoming).

Lemma fold_step_Forall (krs : list (string * record)) (seen : seen_map) :
  Forall P seen.*2 -> Forall P krs.*2 -> Forall P (foldl step seen krs).*2.
Proof.
  revert seen. induction krs as [|[k r] krs IH]; intros seen Hs Hk; [exact Hs|].
  inversion_clear Hk as [|? ? Hr Hrest]. simpl. apply IH; [|exact Hrest].
  unfold dedup_step. cbn [fst snd].
  destruct (Map_get seen k) as [existing|] eqn:E.
  - apply Map_set_Forall; [exact Hs|]. apply P_merge; [|exact Hr].
    apply Map_get_elem in E. rewrite Forall_forall in Hs. apply Hs, E.
  - apply Map_set_Forall; assumption.
Qed.

(** A property of records that merging preserves holds of every record the
    engine returns when it holds of every record it is given. *)
Lemma deduplicateRecords_Forall (records out : list record) :
  Forall P records -> dedup records = Normal out -> Forall P out.
Proof.
  intros HP Hout.
  destruct (keys_of 0 records) as [keys|e] eqn:Hkeys.
  - destruct (dedup_result Number_toString StringToNumber Date_now Math_random
                records keys Hkeys) as (_ & Hd & _).
    rewrite Hd in Hout. injection Hout as <-.
    apply fold_step_Forall; [constructor|].
    rewrite snd_zip; [exact HP|].
    rewrite (record_keys_length _ _ _ _ _ _ Hkeys). lia.
  - unfold deduplicateRecords in Hout.
    rewrite (dedup_loop_throws _ _ _ _ _ _ _ _ Hkeys) in Hout. discriminate.
Qed.

End EngineInvariant.

(** ** Sorting and truncation *)

Section Sort.

Context {A : Type} (cmp : A -> A -> comparison).

Hypothesis cmp_asym : forall x y, cmp x y = Gt -> cmp y x <> Gt.

Lemma sort_insert_perm x l : sort_insert cmp x l ≡ₚ x :: l.
Proof.
  induction l as [|y l IH]; simpl; [reflexivity|].
  destruct (cmp x y); try reflexivity.
  rewrite IH. apply Permutation_swap.
Qed.

Lemma Array_sort_perm l : Array_sort cmp l ≡ₚ l.
Proof.
  induction l as [|x l IH]; simpl; [reflexivity|].
  rewrite sort_insert_perm, IH. reflexivity.
Qed.






End Sort.

(** *** Initial segments *)


Lemma Array_slice0_nonneg {A} (stop : Z) (l : list A) :
  (0 <= stop)%Z -> Array_slice0 stop l = take (Z.to_nat stop) l.
Proof.
  intros H. unfold Array_slice0. rewrite (proj2 (Z.ltb_ge stop 0) H).
  destruct (decide (Z.of_nat (length l) <= stop)%Z) as [Hle | Hgt].
  - rewrite !take_ge by lia. reflexivity.
  - f_equal. lia.
Qed.



(** *** The order of the doubles *)





(** ** The collection run (C1) *)

Lemma gather_results source fetched st :
  (gather source fetched st).1.1 = st.1.1 ++ succeeded fetched.
Proof.
  destruct st as [[allResults sourcesUsed] errors]. unfold gather.
  destruct fetched as [results|e]; simpl; [|rewrite app_nil_r; reflexivity].
  destruct results; simpl; [rewrite app_nil_r|]; reflexivity.
Qed.

Section Runs.

Variable URL_href : string -> option string.
Variable Number_toString : number -> string.
Variable StringToNumber : string -> number.
Variable Date_now Math_random : nat -> number.

Local Abbreviation dedup :=
  (deduplicateRecords Number_toString StringToNumber Date_now Math_random).
Local Abbreviation confidence := (confidence_or_zero StringToNumber).
Local Abbreviation by_conf := (by_confidence StringToNumber).
Local Abbreviation numeric := (numeric_confidence StringToNumber).







(** A confidence that is neither a string nor an object converts to a
    number: [confidence || 0] replaces NaN by [0]. *)
Lemma numeric_confidence_typed (r : record) :
  (forall s, get r "confidence" <> VStr s) ->
  (forall o, get r "confidence" <> VObject o) -> numeric r.
Proof.
  unfold numeric_confidence, confidence_or_zero, js_or. intros Hs Ho.
  destruct (get r "confidence") as [| |[]|x|s|o]; try reflexivity.
  - cbn [truthy]. destruct x; reflexivity.
  - destruct (Hs s eq_refl).
  - destruct (Ho o eq_refl).
Qed.


Lemma mapM_normalize_canonical (raw normalized : list record) :
  mapM (normalizeRecord URL_href) raw = Normal normalized ->
  Forall2 (fun r c => normalizeRecord URL_href r = Normal c) raw normalized
  /\ Forall canonical_text normalized.
Proof.
  revert normalized. induction raw as [|r raw IH]; intros normalized; simpl.
  - intros [= <-]. split; constructor.
  - intros (c & Hc & H)%bind_Normal.
    apply bind_Normal in H as (cs & Hcs & H). injection H as <-.
    destruct (IH cs Hcs) as [H2 Hall]. split; constructor; try assumption.
    exact (normalizeRecord_canonical_text _ _ _ Hc).
Qed.

Lemma orchestrate_try_rows raw m rs :
  orchestrate_try URL_href Number_toString StringToNumber Date_now Math_random
    (Normal (Some {| result_rows := RowsArray raw; result_meta := m |})) = Normal rs ->
  exists normalized deduplicated,
    mapM (normalizeRecord URL_href) raw = Normal normalized
    /\ dedup normalized = Normal deduplicated
    /\ rows rs = RowsArray deduplicated
    /\ meta rs !! "total_found" = Some (MCount (length deduplicated))
    /\ meta rs !! "duplicates_removed"
       = Some (MCount (length normalized - length deduplicated)).
Proof.
  unfold orchestrate_try. simpl.
  intros (result & H & Hrs)%bind_Normal.
  apply bind_Normal in H as (normalized & Hn & H).
  apply bind_Normal in H as (deduplicated & Hd & H).
  apply bind_Normal in H as (m' & Hm & H). injection H as <-.
  simpl in Hrs. injection Hrs as <-.
  exists normalized, deduplicated. repeat split; try assumption.
  - simpl. rewrite !lookup_insert_ne by discriminate. apply lookup_insert_eq.
  - simpl. rewrite !lookup_insert_ne by discriminate. apply lookup_insert_eq.
Qed.

End Runs.


(** With a confidence that converts to NaN the comparator is not
    consistent: it reads a record without a rating as the equal of a record
    of confidence 0.4 and of one of confidence 0.9, which it tells apart. *)
Lemma by_confidence_inconsistent :
  let unrated : record := <["confidence" := VStr "n/a"]> ∅ in
  by_confidence Model.StringToNumber low_canonical unrated = Eq
  /\ by_confidence Model.StringToNumber unrated high_canonical = Eq
  /\ by_confidence Model.StringToNumber low_canonical high_canonical = Gt.
Proof. repeat split; vm_compute; reflexivity. Qed.



Lemma deduplicateRecords_singleton (Number_toString : number -> string)
    (StringToNumber : string -> number) (Date_now Math_random : nat -> number)
    (r : record) (k : string) :
  getDeduplicationKey Number_toString Date_now Math_random 0 r = Normal k ->
  deduplicateRecords Number_toString StringToNumber Date_now Math_random [r]
  = Normal [r].
Proof.
  intros Hk. unfold deduplicateRecords. cbn [dedup_loop]. rewrite Hk. reflexivity.
Qed.

Lemma finish_collection_returns (Number_toString : number -> string)
    (StringToNumber : string -> number) (Date_now Math_random : nat -> number)
    (category geography : value) (maxResults : Z)
    (st : list record * list string * list (string * string))
    (deduplicated : list record) :
  deduplicateRecords Number_toString StringToNumber Date_now Math_random st.1.1
    = Normal deduplicated ->
  exists rs, finish_collection Number_toString StringToNumber Date_now Math_random
               category geography maxResults st = Normal rs.
Proof.
  destruct st as [[allResults sourcesUsed] errors]. unfold finish_collection.
  simpl. intros ->. simpl. eauto.
Qed.







(** ** Canonical records come out of the normalizer *)

Lemma strip_nonempty (h : string) :
  begins_with_letter h -> Str.strip_www (Str.strip_trailing_slash h) <> "".
Proof.
  destruct h as [|c t]; cbn [begins_with_letter]; [contradiction|]. intros Hc.
  assert (exists t', Str.strip_trailing_slash (String c t) = String c t') as [t' Ht].
  { destruct t as [|d t]; [|simpl; eauto].
    simpl. destruct (Ascii.eqb c "/") eqn:E; [|eauto].
    apply Ascii.eqb_eq in E. subst c. discriminate. }
  rewrite Ht. unfold Str.strip_www.
  destruct (Str.startsWith (String c t') "https://www.");
    [discriminate | destruct (Str.startsWith (String c t') "http://www."); discriminate].
Qed.

Lemma normalizeUrl_present (URL_href : string -> option string) (v : value) :
  (forall s h, URL_href s = Some h -> begins_with_letter h) ->
  normalizeUrl URL_href v = VNull \/ truthy (normalizeUrl URL_href v) = true.
Proof.
  intros Hhref. unfold normalizeUrl.
  destruct (truthy v) eqn:Ht; simpl; [|left; reflexivity]. right.
  destruct v as [| |b|x|u|o]; try exact Ht.
  match goal with |- context [URL_href ?s] => set (url' := s) end.
  destruct (URL_href url') as [h|] eqn:E; simpl.
  - apply negb_true_iff, String.eqb_neq, strip_nonempty, (Hhref _ _ E).
  - apply negb_true_iff, String.eqb_neq. unfold url'.
    destruct (negb _ && negb _); [discriminate|].
    intros ->. discriminate.
Qed.

(** With a URL parser whose results begin with their scheme, the record
    produced by [normalizeRecord] is a CanonicalRecord. *)
Lemma normalizeRecord_canonical (URL_href : string -> option string) (r c : record) :
  (forall s h, URL_href s = Some h -> begins_with_letter h) ->
  normalizeRecord URL_href r = Normal c -> canonical c.
Proof.
  intros Hhref H. split; [exact (normalizeRecord_canonical_text _ _ _ H)|].
  apply normalizeRecord_Normal in H as (_ & phone & _ & ->).
  unfold normalized. rewrite get_literal_website.
  apply normalizeUrl_present, Hhref.
Qed.

Lemma Model_href_begins (s h : string) :
  Model.URL_href s = Some h -> begins_with_letter h.
Proof.
  unfold Model.URL_href, Model.parse_url.
  repeat match goal with
  | |- context [let '(_, _) := ?p in _] => destruct p
  | |- context [if ?b then _ else _] => destruct b
  end; try discriminate; intros [= <-]; reflexivity.
Qed.

(** * Further properties *)

Lemma digits_of_all_digits s : Model.all_chars Str.is_digit (Str.digits_of s) = true.
Proof.
  induction s as [|c s IH]; simpl; [reflexivity|].
  destruct (Str.is_digit c) eqn:E; simpl; rewrite ?E; exact IH.
Qed.

(** X1.  Whatever [normalizePhone] is given: it returns the
    absent-marker only on a falsy value; on a non-empty string it returns a
    string that starts with [+], which is the input itself or [+] followed
    by digits only; and it throws only on a truthy value that is not a
    string, and then a [TypeError]. *)
Theorem normalizePhone_shape (v : value) :
  match normalizePhone v with
  | Normal w =>
      (truthy v = false /\ w = VNull)
      \/ exists p q, v = VStr p /\ p <> "" /\ w = VStr q
                     /\ Str.startsWith q "+" = true
                     /\ (q = p \/ plus_digits q = true)
  | Throw e =>
      truthy v = true /\ (forall p, v <> VStr p)
      /\ e = TypeError "phone.replace is not a function"
  end.
Proof.
  unfold normalizePhone.
  destruct (truthy v) eqn:Ht; cbn [negb]; [|left; auto].
  destruct v as [| |b|x|p|o]; try discriminate;
    try (split; [reflexivity|]; split; [intros p; discriminate | reflexivity]).
  assert (p <> "") as Hp by (intros ->; discriminate).
  pose proof (digits_of_all_digits p) as Hd.
  set (d := Str.digits_of p) in *.
  destruct (String.length d =? 10)%nat.
  { right. exists p, ("+1" +:+ d). repeat split; auto. }
  destruct ((String.length d =? 11)%nat && Str.startsWith d "1").
  { right. exists p, ("+" +:+ d). repeat split; auto. }
  destruct (Str.startsWith p "+") eqn:Eplus.
  { right. exists p, p. repeat split; auto. }
  right. exists p, ("+" +:+ d). repeat split; auto.
Qed.

(** X2.  [normalizePhone] leaves alone what it returned: applied to
    its own result it returns that result. *)
Theorem normalizePhone_idempotent (v w : value) :
  normalizePhone v = Normal w -> normalizePhone w = Normal w.
Proof.
  intros H. destruct (normalizePhone_fixed v w H) as [-> | (p & -> & _ & Hp)];
    [reflexivity | exact Hp].
Qed.

Lemma normalizePhone_idempotent_witness :
  normalizePhone (VStr "(813) 555-1234") = Normal (VStr "+18135551234")
  /\ normalizePhone (VStr "+18135551234") = Normal (VStr "+18135551234").
Proof.
  split; [reflexivity|].
  apply (normalizePhone_idempotent (VStr "(813) 555-1234")). reflexivity.
Defined.

(** ** URL normalizer: the scheme *)

Lemma startsWith_app (p r : string) : Str.startsWith (p +:+ r) p = true.
Proof.
  induction p as [|c p IH]; simpl; [destruct r; reflexivity|].
  rewrite Ascii.eqb_refl. exact IH.
Qed.

Lemma startsWith_split (s p : string) :
  Str.startsWith s p = true -> s = p +:+ Str.drop (String.length p) s.
Proof.
  revert s. induction p as [|c p IH]; intros s; simpl; [reflexivity|].
  destruct s as [|b s]; [discriminate|].
  intros [Hc Hs]%andb_prop. apply Ascii.eqb_eq in Hc. subst b.
  change (String c s = String c (p +:+ Str.drop (String.length p) s)).
  f_equal. apply IH, Hs.
Qed.

(** The result of dropping a trailing slash is a prefix of the string. *)
Lemma strip_trailing_slash_prefix (s p : string) :
  Str.startsWith (Str.strip_trailing_slash s) p = true -> Str.startsWith s p = true.
Proof.
  revert p. induction s as [|c s IH]; intros p; [exact id|].
  destruct p as [|a p]; [reflexivity|].
  destruct s as [|d s].
  - simpl. destruct (Ascii.eqb c "/"); [discriminate | exact id].
  - change (Str.strip_trailing_slash (String c (String d s)))
      with (String c (Str.strip_trailing_slash (String d s))).
    cbn [Str.startsWith].
    intros [Hc Hs]%andb_prop. rewrite Hc. apply IH, Hs.
Qed.

(** A prefix that does not end the string, or does not end in a slash, is
    kept. *)
Lemma strip_trailing_slash_keeps (s p : string) :
  Str.startsWith s p = true ->
  Str.strip_trailing_slash p = p ->
  Str.startsWith (Str.strip_trailing_slash s) p = true.
Proof.
  revert s. induction p as [|a p IH]; intros s; [intros _ _; destruct (Str.strip_trailing_slash s); reflexivity|].
  destruct s as [|c s]; [discriminate|].
  cbn [Str.startsWith]. intros [Hc Hs]%andb_prop Hp.
  destruct s as [|d s].
  - destruct p as [|b p]; [|discriminate].
    apply Ascii.eqb_eq in Hc. subst c. rewrite Hp. simpl.
    rewrite Ascii.eqb_refl. reflexivity.
  - change (Str.strip_trailing_slash (String c (String d s)))
      with (String c (Str.strip_trailing_slash (String d s))).
    cbn [Str.startsWith]. rewrite Hc. cbn [andb].
    destruct p as [|b p]; [destruct (Str.strip_trailing_slash (String d s)); reflexivity|].
    apply IH; [exact Hs|].
    change (Str.strip_trailing_slash (String a (String b p)))
      with (String a (Str.strip_trailing_slash (String b p))) in Hp.
    congruence.
Qed.

(** X3.  When the URL parser accepts the string, the scheme of the
    normalized URL is that of the parsed one unless the host starts with
    [www.]: an [http://] address without [www.] stays an [http://] address
    (it is not upgraded to [https://]), while [http://www.] is replaced by
    [https://]. *)
Theorem normalizeUrl_scheme (URL_href : string -> option string) (u h : string) :
  u <> "" ->
  URL_href (with_protocol u) = Some h ->
  let stripped := Str.strip_trailing_slash h in
  (Str.startsWith h "http://" = true -> Str.startsWith h "http://www." = false ->
   normalizeUrl URL_href (VStr u) = VStr stripped
   /\ Str.startsWith stripped "https://" = false)
  /\ (Str.startsWith h "http://www." = true ->
      normalizeUrl URL_href (VStr u) = VStr ("https://" +:+ Str.drop 11 stripped)).
Proof.
  intros Hu Hh stripped. rewrite (normalizeUrl_string _ _ Hu), Hh.
  unfold Str.strip_www. fold stripped. split.
  - intros Hhttp Hwww.
    assert (Str.startsWith stripped "https://" = false) as Hs.
    { destruct (Str.startsWith stripped "https://") eqn:E; [|reflexivity].
      apply strip_trailing_slash_prefix in E.
      apply startsWith_split in Hhttp. rewrite Hhttp in E. discriminate. }
    assert (Str.startsWith stripped "https://www." = false) as ->.
    { destruct (Str.startsWith stripped "https://www.") eqn:E; [|reflexivity].
      apply strip_trailing_slash_prefix in E.
      apply startsWith_split in Hhttp. rewrite Hhttp in E. discriminate. }
    assert (Str.startsWith stripped "http://www." = false) as ->.
    { destruct (Str.startsWith stripped "http://www.") eqn:E; [|reflexivity].
      apply strip_trailing_slash_prefix in E. congruence. }
    auto.
  - intros Hwww.
    assert (Str.startsWith stripped "https://www." = false) as ->.
    { destruct (Str.startsWith stripped "https://www.") eqn:E; [|reflexivity].
      apply strip_trailing_slash_prefix in E.
      apply startsWith_split in Hwww. rewrite Hwww in E. discriminate. }
    pose proof (strip_trailing_slash_keeps h "http://www." Hwww eq_refl) as Hk.
    fold stripped in Hk. rewrite Hk. reflexivity.
Qed.

Lemma normalizeUrl_scheme_witness :
  normalizeUrl Model.URL_href (VStr "http://example.com") = VStr "http://example.com"
  /\ normalizeUrl Model.URL_href (VStr "http://www.example.com") = VStr "https://example.com".
Proof.
  split.
  - refine (proj1 (proj1 (normalizeUrl_scheme Model.URL_href "http://example.com"
                            "http://example.com/" _ _) _ _)); try reflexivity.
    discriminate.
  - refine (proj2 (normalizeUrl_scheme Model.URL_href "http://www.example.com"
                     "http://www.example.com/" _ _) _); try reflexivity.
    discriminate.
Defined.

(** ** Deduplication key: tiers *)

Section KeyTiers.

Variable Number_toString : number -> string.
Variable Date_now Math_random : nat -> number.

Local Abbreviation key_of := (getDeduplicationKey Number_toString Date_now Math_random).

Lemma key_of_prefix (tick : nat) (r : record) (k : string) :
  key_of tick r = Normal k -> Str.startsWith k (tier_prefix (tier_of r)) = true.
Proof.
  unfold getDeduplicationKey, tier_of.
  repeat match goal with
  | |- context [if ?b then _ else _] => destruct b
  end; cbn [tier_prefix];
    try (intros (name & _ & [= <-])%bind_Normal);
    try (intros [= <-]); apply startsWith_app.
Qed.

Lemma tier_prefix_inj (k : string) (a b : key_tier) :
  Str.startsWith k (tier_prefix a) = true ->
  Str.startsWith k (tier_prefix b) = true -> a = b.
Proof.
  destruct k as [|c k]; [destruct a; discriminate|].
  destruct a, b; try reflexivity; cbn [tier_prefix Str.startsWith];
    intros [H1 _]%andb_prop [H2 _]%andb_prop;
    apply Ascii.eqb_eq in H1, H2; congruence.
Qed.

(** X5.  The key of a record starts with the prefix of the tier that
    applies to it, so that records of different tiers never have the same
    key: in particular a record with a website and one without are never
    merged. *)
Theorem keys_of_tiers_differ (t1 t2 : nat) (r1 r2 : record) (k1 k2 : string) :
  key_of t1 r1 = Normal k1 ->
  key_of t2 r2 = Normal k2 ->
  Str.startsWith k1 (tier_prefix (tier_of r1)) = true
  /\ (tier_of r1 <> tier_of r2 -> k1 <> k2)
  /\ (truthy (get r1 "website") = true -> truthy (get r2 "website") = false -> k1 <> k2).
Proof.
  intros H1 H2.
  pose proof (key_of_prefix _ _ _ H1) as P1.
  pose proof (key_of_prefix _ _ _ H2) as P2.
  assert (tier_of r1 <> tier_of r2 -> k1 <> k2) as Hd.
  { intros Hne ->. apply Hne. exact (tier_prefix_inj _ _ _ P1 P2). }
  split; [exact P1|]. split; [exact Hd|].
  intros Hw1 Hw2. apply Hd. unfold tier_of. rewrite Hw1, Hw2.
  repeat match goal with
  | |- context [if ?b then _ else _] => destruct b
  end; discriminate.
Qed.

(** X6.  Unless the record has no identity signal at all (the last
    tier), its key depends neither on the clock nor on the random
    generator: it is the same at every call. *)
Theorem key_of_stable (t t' : nat) (r : record) :
  tier_of r <> TierUnique -> key_of t r = key_of t' r.
Proof.
  unfold getDeduplicationKey, tier_of.
  repeat match goal with
  | |- context [if ?b then _ else _] => destruct b
  end; try reflexivity.
  intros H. contradiction.
Qed.

(** X30.  The key does not see the case of the name: two records with
    an identity signal whose names differ by case only, and whose website,
    phone, postal code and source URL are the same, have the same key, at
    whatever calls the keys are computed. *)
Theorem key_of_name_case (t t' : nat) (r r' : record) (name name' : string) :
  get r "business_name" = VStr name ->
  get r' "business_name" = VStr name' ->
  Str.toLowerCase name = Str.toLowerCase name' ->
  (forall k, In k ["website"; "phone"; "postal_code"; "source_url"] ->
             get r k = get r' k) ->
  tier_of r <> TierUnique ->
  key_of t r = key_of t' r'.
Proof.
  intros Hn Hn' Hlow Hsame.
  assert (truthy (VStr name) = truthy (VStr name')) as Ht.
  { cbn [truthy]. f_equal.
    destruct name, name'; try reflexivity; discriminate. }
  unfold getDeduplicationKey, tier_of.
  rewrite <- !(Hsame "website"), <- !(Hsame "phone"), <- !(Hsame "postal_code"),
    <- !(Hsame "source_url") by (simpl; tauto).
  rewrite Hn, Hn', <- Ht.
  cbn [call_toLowerCase opt_toLowerCase]. rewrite <- Hlow.
  repeat match goal with
  | |- context [if ?b then _ else _] => destruct b
  end; try reflexivity.
  intros H. contradiction.
Qed.

End KeyTiers.

Lemma keys_of_tiers_differ_witness :
  getDeduplicationKey Model.Number_toString Model.Date_now Model.Math_random 0 with_phone
    = Normal "website:https://abc.com"
  /\ getDeduplicationKey Model.Number_toString Model.Date_now Model.Math_random 1 other_business
    = Normal "name-zip:bay plumbing:33602"
  /\ "website:https://abc.com" <> "name-zip:bay plumbing:33602".
Proof.
  assert (getDeduplicationKey Model.Number_toString Model.Date_now Model.Math_random 0
            with_phone = Normal "website:https://abc.com") as H1 by (vm_compute; reflexivity).
  assert (getDeduplicationKey Model.Number_toString Model.Date_now Model.Math_random 1
            other_business = Normal "name-zip:bay plumbing:33602") as H2
    by (vm_compute; reflexivity).
  split; [exact H1|]. split; [exact H2|].
  refine (proj1 (proj2 (keys_of_tiers_differ Model.Number_toString Model.Date_now
                          Model.Math_random 0 1 with_phone other_business _ _ H1 H2)) _).
  vm_compute. discriminate.
Defined.

Lemma key_of_name_case_witness :
  getDeduplicationKey Model.Number_toString Model.Date_now Model.Math_random 0 other_business
  = getDeduplicationKey Model.Number_toString Model.Date_now Model.Math_random 1
      (<["business_name" := VStr "BAY Plumbing"]> other_business).
Proof.
  apply (key_of_name_case Model.Number_toString Model.Date_now Model.Math_random 0 1
           other_business (<["business_name" := VStr "BAY Plumbing"]> other_business)
           "Bay Plumbing" "BAY Plumbing").
  - reflexivity.
  - apply get_insert_eq.
  - reflexivity.
  - intros k Hk. rewrite get_insert_ne; [reflexivity|].
    simpl in Hk. intros <-. intuition discriminate.
  - vm_compute. discriminate.
Defined.

Lemma key_of_stable_witness :
  getDeduplicationKey Model.Number_toString Model.Date_now Model.Math_random 0 other_business
  = getDeduplicationKey Model.Number_toString Model.Date_now Model.Math_random 7 other_business.
Proof.
  apply (key_of_stable Model.Number_toString Model.Date_now Model.Math_random 0 7
           other_business).
  vm_compute. discriminate.
Defined.

(** ** Merging: fields, values, notes, confidence *)

(** X7.  The [notes] of the merge of two records in canonical form:
    both notes joined by [ | ] when both records have one, the only one when
    one record has one, and the empty string (not the absent-marker) when
    neither has. *)
Theorem mergeRecords_notes (Number_toString : number -> string)
    (StringToNumber : string -> number) (existing incoming : record) :
  canonical_text existing -> canonical_text incoming ->
  get (mergeRecords Number_toString StringToNumber existing incoming) "notes"
  = VStr match get existing "notes", get incoming "notes" with
         | VStr a, VStr b => a +:+ " | " +:+ b
         | VStr a, _ => a
         | _, VStr b => b
         | _, _ => ""
         end.
Proof.
  intros He Hi. rewrite get_merge_notes. unfold merge_notes.
  destruct (canon_notes _ He) as [-> | (a & -> & Ha & _)],
           (canon_notes _ Hi) as [-> | (b & -> & Hb & _)];
    cbn [List.filter truthy];
    rewrite ?(StrFacts.eqb_empty_false a), ?(StrFacts.eqb_empty_false b) by assumption;
    reflexivity.
Qed.

Lemma mergeRecords_notes_witness :
  get (mergeRecords Model.Number_toString Model.StringToNumber with_phone without_phone)
      "notes" = VStr "verified"
  /\ get (mergeRecords Model.Number_toString Model.StringToNumber with_phone with_phone)
         "notes" = VStr "".
Proof.
  split.
  - exact (mergeRecords_notes Model.Number_toString Model.StringToNumber
             with_phone without_phone
             (proj1 with_phone_canonical) (proj1 without_phone_canonical)).
  - exact (mergeRecords_notes Model.Number_toString Model.StringToNumber
             with_phone with_phone
             (proj1 with_phone_canonical) (proj1 with_phone_canonical)).
Defined.

Lemma unit_interval_positive (x : number) (s : bool) :
  in_unit_interval x = true -> is_zero x = false -> SFltb (S754_zero s) x = true.
Proof.
  unfold in_unit_interval. intros [H0 H1]%andb_prop Hz.
  destruct x as [s'|s'| |s' m e]; try discriminate.
  - destruct s'; discriminate.
  - destruct s'; [discriminate | reflexivity].
Qed.

(** X8.  When both confidences are numbers of the interval [0,1], the
    confidence of the merge is the greater of the two. *)
Theorem mergeRecords_confidence (Number_toString : number -> string)
    (StringToNumber : string -> number) (existing incoming : record) (ce ci : number) :
  get existing "confidence" = VNum ce -> get incoming "confidence" = VNum ci ->
  in_unit_interval ce = true -> in_unit_interval ci = true ->
  get (mergeRecords Number_toString StringToNumber existing incoming) "confidence"
  = VNum (if SFltb ce ci then ci else ce).
Proof.
  intros He Hi Ue Ui.
  assert (js_gt StringToNumber (get incoming "confidence") (get existing "confidence")
          = SFltb ce ci) as Hgt by (rewrite He, Hi; reflexivity).
  destruct (SFltb ce ci) eqn:Hlt.
  - rewrite (get_merge_wins _ _ _ _ "confidence" Hgt) by discriminate.
    unfold get in Hi. destruct (incoming !! "confidence"); [exact Hi | discriminate].
  - rewrite (get_merge_fills _ _ _ _ "confidence" Hgt) by discriminate.
    rewrite He, Hi. cbn [truthy].
    destruct (is_zero ce) eqn:Ze.
    + destruct ce as [s| | |]; try discriminate.
      destruct (is_zero ci) eqn:Zi.
      * reflexivity.
      * rewrite (unit_interval_positive ci s Ui Zi) in Hlt. discriminate.
    + destruct ce as [s|s| |s m e]; try discriminate; reflexivity.
Qed.

Lemma mergeRecords_confidence_witness :
  get (mergeRecords Model.Number_toString Model.StringToNumber with_phone without_phone)
      "confidence" = VNum (dec 9 10)
  /\ get (mergeRecords Model.Number_toString Model.StringToNumber without_phone with_phone)
         "confidence" = VNum (dec 9 10).
Proof.
  split.
  - refine (mergeRecords_confidence Model.Number_toString Model.StringToNumber
              with_phone without_phone (dec 4 10) (dec 9 10) _ _ _ _);
      vm_compute; reflexivity.
  - refine (mergeRecords_confidence Model.Number_toString Model.StringToNumber
              without_phone with_phone (dec 9 10) (dec 4 10) _ _ _ _);
      vm_compute; reflexivity.
Defined.

(** X9.  The engine invents no value: outside [notes], every field of
    every record it returns holds the value that field has in one of the
    records it was given; and a returned record is one of the records given
    or has a string for [notes]. *)
Theorem deduplicateRecords_no_invention (Number_toString : number -> string)
    (StringToNumber : string -> number) (Date_now Math_random : nat -> number)
    (records out : list record) :
  deduplicateRecords Number_toString StringToNumber Date_now Math_random records
    = Normal out ->
  forall row, row ∈ out ->
    (forall k, k <> "notes" -> exists r, r ∈ records /\ get row k = get r k)
    /\ (row ∈ records \/ exists s, get row "notes" = VStr s).
Proof.
  intros Hout.
  apply Forall_forall.
  apply (deduplicateRecords_Forall Number_toString StringToNumber Date_now Math_random
           (fun row => (forall k, k <> "notes" ->
                          exists r, r ∈ records /\ get row k = get r k)
                       /\ (row ∈ records \/ exists s, get row "notes" = VStr s))) with (records := records); [| |exact Hout].
  - intros existing incoming [He _] [Hi _]. split.
    + intros k Hk.
      destruct (mergeRecords_choice Number_toString StringToNumber existing incoming k Hk)
        as [-> | ->]; [apply He | apply Hi]; exact Hk.
    + destruct (merge_notes_string Number_toString existing incoming) as [s Hs].
      right. exists s. rewrite get_merge_notes. exact Hs.
  - apply Forall_forall. intros r Hr. split; [eauto | auto].
Qed.

Lemma deduplicateRecords_no_invention_witness :
  deduplicateRecords Model.Number_toString Model.StringToNumber
    Model.Date_now Model.Math_random [google_candidate] = Normal [google_candidate]
  /\ exists r, r ∈ [google_candidate]
               /\ get google_candidate "phone" = get r "phone".
Proof.
  assert (deduplicateRecords Model.Number_toString Model.StringToNumber
            Model.Date_now Model.Math_random [google_candidate]
          = Normal [google_candidate]) as Hd.
  { apply (deduplicateRecords_singleton _ _ _ _ _ "website:http://www.abcrealty.com/").
    vm_compute. reflexivity. }
  split; [exact Hd|].
  refine (proj1 (deduplicateRecords_no_invention Model.Number_toString
                   Model.StringToNumber Model.Date_now Model.Math_random
                   [google_candidate] [google_candidate] Hd google_candidate _)
            "phone" _).
  - apply list_elem_of_here.
  - discriminate.
Defined.

(** ** The engine on records with distinct keys *)

Lemma Map_set_fresh (seen : seen_map) (k : string) (v : record) :
  k ∉ seen.*1 -> Map_set seen k v = seen ++ [(k, v)].
Proof.
  induction seen as [|[k' x] seen IH]; simpl; [reflexivity|].
  rewrite not_elem_of_cons. intros [Hne Hout].
  destruct (String.eqb k' k) eqn:E.
  - apply String.eqb_eq in E. congruence.
  - rewrite IH by exact Hout. reflexivity.
Qed.

Section DistinctKeys.

Variable Number_toString : number -> string.
Variable StringToNumber : string -> number.
Variable Date_now Math_random : nat -> number.

Local Abbreviation step := (dedup_step Number_toString StringToNumber).

Lemma fold_step_distinct (krs : list (string * record)) (seen : seen_map) :
  NoDup (seen.*1 ++ krs.*1) -> foldl step seen krs = seen ++ krs.
Proof.
  revert seen. induction krs as [|[k r] krs IH]; intros seen Hnd; simpl.
  - rewrite app_nil_r. reflexivity.
  - assert (k ∉ seen.*1) as Hout.
    { apply NoDup_app in Hnd as (_ & Hdis & _). intros Hin.
      apply (Hdis k Hin). apply list_elem_of_here. }
    unfold dedup_step. cbn [fst snd].
    rewrite (proj2 (Map_get_None seen k) Hout), (Map_set_fresh _ _ _ Hout).
    rewrite IH.
    + rewrite <- app_assoc. reflexivity.
    + rewrite fmap_app. simpl. rewrite <- app_assoc. exact Hnd.
Qed.

End DistinctKeys.

(** X10.  When the keys of the records are pairwise distinct, the
    engine returns the records it was given, unchanged and in the same
    order. *)
Theorem deduplicateRecords_distinct (Number_toString : number -> string)
    (StringToNumber : string -> number) (Date_now Math_random : nat -> number)
    (records : list record) (keys : list string) :
  record_keys Number_toString Date_now Math_random 0 records = Normal keys ->
  NoDup keys ->
  deduplicateRecords Number_toString StringToNumber Date_now Math_random records
  = Normal records.
Proof.
  intros Hkeys Hnd.
  destruct (dedup_result Number_toString StringToNumber Date_now Math_random
              records keys Hkeys) as (_ & -> & _).
  pose proof (record_keys_length _ _ _ _ _ _ Hkeys) as Hlen.
  rewrite fold_step_distinct.
  - simpl. rewrite snd_zip by lia. reflexivity.
  - simpl. rewrite fst_zip by lia. exact Hnd.
Qed.

Lemma deduplicateRecords_distinct_witness :
  deduplicateRecords Model.Number_toString Model.StringToNumber
    Model.Date_now Model.Math_random [with_phone; other_business]
  = Normal [with_phone; other_business].
Proof.
  apply (deduplicateRecords_distinct Model.Number_toString Model.StringToNumber
           Model.Date_now Model.Math_random [with_phone; other_business]
           ["website:https://abc.com"; "name-zip:bay plumbing:33602"]).
  - vm_compute. reflexivity.
  - apply NoDup_cons. split.
    + intros H. apply list_elem_of_singleton in H. discriminate.
    + apply NoDup_singleton.
Defined.

(** ** Runs of the collector orchestrator *)

Section Returns.

Variable Number_toString : number -> string.
Variable StringToNumber : string -> number.
Variable Date_now Math_random : nat -> number.

Local Abbreviation key_of := (getDeduplicationKey Number_toString Date_now Math_random).
Local Abbreviation keys_of := (record_keys Number_toString Date_now Math_random).
Local Abbreviation dedup :=
  (deduplicateRecords Number_toString StringToNumber Date_now Math_random).

Lemma key_of_keyable (tick : nat) (r : record) :
  keyable r = true -> exists k, key_of tick r = Normal k.
Proof.
  unfold keyable, getDeduplicationKey.
  destruct (truthy (get r "website")); [eauto|]. cbn [orb].
  destruct (get r "business_name") as [| |b|x|s|o]; try discriminate; intros _;
    cbn [truthy andb call_toLowerCase opt_toLowerCase];
    repeat match goal with
    | |- context [if ?b then _ else _] => destruct b; cbn [andb]
    end; simpl; eauto.
Qed.

Lemma record_keys_keyable (tick : nat) (records : list record) :
  Forall (fun r => keyable r = true) records ->
  exists keys, keys_of tick records = Normal keys.
Proof.
  intros H. revert tick. induction H as [|r records Hr _ IH]; intros tick; simpl.
  - eauto.
  - destruct (key_of_keyable tick r Hr) as [k ->].
    destruct (IH (S tick)) as [ks ->]. simpl. eauto.
Qed.

Lemma deduplicateRecords_keyable (records : list record) :
  Forall (fun r => keyable r = true) records ->
  exists out, dedup records = Normal out.
Proof.
  intros H. destruct (record_keys_keyable 0 records H) as [keys Hkeys].
  destruct (dedup_result Number_toString StringToNumber Date_now Math_random
              records keys Hkeys) as (_ & Hd & _).
  eauto.
Qed.

End Returns.

Lemma gather_state source fetched (st : list record * list string * list (string * string)) :
  gather source fetched st
  = (st.1.1 ++ succeeded fetched, st.1.2 ++ used source fetched,
     st.2 ++ failed source fetched).
Proof.
  destruct st as [[allResults sourcesUsed] errors]. unfold gather.
  destruct fetched as [[|r results]|e]; simpl; rewrite ?app_nil_r; reflexivity.
Qed.

(** X11.  [collectFromAllSources] returns a result set, whatever the
    collectors did, when every candidate has a website or a [business_name]
    that is a string or absent. *)
Theorem collectFromAllSources_returns (Number_toString : number -> string)
    (StringToNumber : string -> number) (Date_now Math_random : nat -> number)
    (category geography : value) (maxResults : option Z) (api_key : bool)
    (google opencorporates : completion (list record)) :
  Forall (fun r => keyable r = true) (succeeded google) ->
  Forall (fun r => keyable r = true) (succeeded opencorporates) ->
  exists rs,
    collectFromAllSources_both Number_toString StringToNumber Date_now Math_random
      category geography maxResults api_key google opencorporates = Normal rs.
Proof.
  intros Hg Ho. unfold collectFromAllSources_both.
  assert (Forall (fun r => keyable r = true)
            ((if api_key then gather "Google Places" google ([], [], [])
              else ([], [], [])).1.1 ++ succeeded opencorporates)) as Hall.
  { apply Forall_app. split; [|exact Ho].
    destruct api_key; [rewrite gather_results; exact Hg | constructor]. }
  destruct (deduplicateRecords_keyable Number_toString StringToNumber Date_now
              Math_random _ Hall) as [out Hout].
  apply (finish_collection_returns _ _ _ _ _ _ _ _ out).
  rewrite gather_results. exact Hout.
Qed.

Lemma collectFromAllSources_returns_witness :
  exists rs,
    collectFromAllSources_both Model.Number_toString Model.StringToNumber
      Model.Date_now Model.Math_random
      (VStr "Real Estate Agent") (VStr "Tampa, FL") (Some 10%Z) true
      (Normal [google_candidate]) (Throw (Error "Request failed")) = Normal rs.
Proof.
  apply (collectFromAllSources_returns Model.Number_toString Model.StringToNumber
           Model.Date_now Model.Math_random).
  - constructor; [vm_compute; reflexivity | constructor].
  - constructor.
Defined.

(** X12.  [collectFromAllSources] has no handler around the engine: when
    the first candidate has no website, a postal code and a [business_name]
    that is truthy without being a string, the run throws the [TypeError] of
    the key computation. *)
Theorem collectFromAllSources_rejects (Number_toString : number -> string)
    (StringToNumber : string -> number) (Date_now Math_random : nat -> number)
    (category geography : value) (maxResults : option Z)
    (r : record) (rest : list record) :
  truthy (get r "website") = false ->
  truthy (get r "business_name") = true ->
  (forall s, get r "business_name" <> VStr s) ->
  truthy (get r "postal_code") = true ->
  collectFromAllSources Number_toString StringToNumber Date_now Math_random
    category geography maxResults true (Normal (r :: rest))
  = Throw (TypeError "record.business_name.toLowerCase is not a function").
Proof.
  intros Hw Hn Hs Hz.
  unfold collectFromAllSources, gather, finish_collection, deduplicateRecords.
  cbn [length Nat.ltb Nat.leb app dedup_loop].
  assert (getDeduplicationKey Number_toString Date_now Math_random 0 r
          = Throw (TypeError "record.business_name.toLowerCase is not a function")) as ->.
  { unfold getDeduplicationKey. rewrite Hw, Hn, Hz. cbn [andb].
    destruct (get r "business_name") as [| |b|x|s|o]; try discriminate;
      try (destruct (truthy (get r "phone")); reflexivity).
    exfalso. exact (Hs s eq_refl). }
  reflexivity.
Qed.

Lemma collectFromAllSources_rejects_witness :
  collectFromAllSources Model.Number_toString Model.StringToNumber
    Model.Date_now Model.Math_random (VStr "Plumber") (VStr "Tampa, FL") None true
    (Normal [<["business_name" := VNum (dec 5 1)]> (<["postal_code" := VStr "33602"]> ∅)])
  = Throw (TypeError "record.business_name.toLowerCase is not a function").
Proof.
  apply (collectFromAllSources_rejects Model.Number_toString Model.StringToNumber
           Model.Date_now Model.Math_random).
  - reflexivity.
  - reflexivity.
  - intros s. vm_compute. discriminate.
  - reflexivity.
Defined.

Section Report.

Variable Number_toString : number -> string.
Variable StringToNumber : string -> number.
Variable Date_now Math_random : nat -> number.

Local Abbreviation dedup :=
  (deduplicateRecords Number_toString StringToNumber Date_now Math_random).
Local Abbreviation by_conf := (by_confidence StringToNumber).

Lemma finish_collection_exact category geography maxResults
    (allResults : list record) (sourcesUsed : list string)
    (errors : list (string * string)) rs :
  finish_collection Number_toString StringToNumber Date_now Math_random
    category geography maxResults (allResults, sourcesUsed, errors) = Normal rs ->
  exists deduplicated,
    dedup allResults = Normal deduplicated
    /\ rs = {| meta := collect_meta category geography
                         (length (Array_slice0 maxResults (Array_sort by_conf deduplicated)))
                         sourcesUsed errors;
               rows := RowsArray (Array_slice0 maxResults (Array_sort by_conf deduplicated)) |}.
Proof.
  unfold finish_collection.
  intros (deduplicated & Hd & H)%bind_Normal. injection H as <-. eauto.
Qed.

Lemma collect_meta_lookup category geography found sourcesUsed errors :
  let m := collect_meta category geography found sourcesUsed errors in
  m !! "category" = Some (MValue category)
  /\ m !! "geography" = Some (MValue geography)
  /\ m !! "total_found" = Some (MCount found)
  /\ m !! "sources_used" = Some (MNames sourcesUsed)
  /\ m !! "errors" = Some (match errors with
                           | [] => MValue VUndef
                           | _ => MErrors errors
                           end).
Proof.
  unfold collect_meta.
  destruct errors as [|e errors]; cbn [length Nat.ltb Nat.leb];
    repeat split; rewrite ?lookup_insert_eq; try reflexivity;
    rewrite !lookup_insert_ne by discriminate; reflexivity.
Qed.

End Report.

(** X13.  What a run of [collectFromAllSources] reports: [sources_used]
    lists the collectors that returned at least one record, in the order of
    the calls; [errors] lists the collectors that threw, with their
    messages, and is [undefined] when none did; no [error] is set. *)
Theorem collectFromAllSources_report (Number_toString : number -> string)
    (StringToNumber : string -> number) (Date_now Math_random : nat -> number)
    (category geography : value) (maxResults : option Z) (api_key : bool)
    (google opencorporates : completion (list record)) (rs : ResultSet) :
  collectFromAllSources_both Number_toString StringToNumber Date_now Math_random
    category geography maxResults api_key google opencorporates = Normal rs ->
  let errors := (if api_key then failed "Google Places" google else [])
                ++ failed "OpenCorporates" opencorporates in
  meta rs !! "category" = Some (MValue category)
  /\ meta rs !! "geography" = Some (MValue geography)
  /\ meta rs !! "sources_used"
     = Some (MNames ((if api_key then used "Google Places" google else [])
                     ++ used "OpenCorporates" opencorporates))
  /\ meta rs !! "errors" = Some (match errors with
                                 | [] => MValue VUndef
                                 | _ => MErrors errors
                                 end)
  /\ meta rs !! "error" = None.
Proof.
  intros H errors. unfold collectFromAllSources_both in H.
  rewrite gather_state in H.
  apply finish_collection_exact in H as (deduplicated & _ & ->). cbn [meta].
  match goal with
  | |- context [collect_meta ?c ?g ?n ?s ?e] =>
      destruct (collect_meta_lookup c g n s e) as (H1 & H2 & _ & H4 & H5)
  end.
  assert (forall c g n s e, collect_meta c g n s e !! "error" = None) as Hnone.
  { intros c g n s e. unfold collect_meta.
    destruct (0 <? length e)%nat; rewrite !lookup_insert_ne by discriminate;
      apply lookup_empty. }
  split; [exact H1|]. split; [exact H2|]. split; [|split; [|apply Hnone]].
  - rewrite H4. destruct api_key; [rewrite gather_state|]; reflexivity.
  - rewrite H5. unfold errors.
    destruct api_key; [rewrite gather_state|]; reflexivity.
Qed.

Lemma collectFromAllSources_report_witness :
  exists rs,
    collectFromAllSources_both Model.Number_toString Model.StringToNumber
      Model.Date_now Model.Math_random
      (VStr "Real Estate Agent") (VStr "Tampa, FL") (Some 10%Z) true
      (Normal [google_candidate]) (Throw (Error "Request failed")) = Normal rs
    /\ meta rs !! "sources_used" = Some (MNames ["Google Places"])
    /\ meta rs !! "errors" = Some (MErrors [("OpenCorporates", "Request failed")]).
Proof.
  assert (deduplicateRecords Model.Number_toString Model.StringToNumber
            Model.Date_now Model.Math_random [google_candidate]
          = Normal [google_candidate]) as Hd.
  { apply (deduplicateRecords_singleton _ _ _ _ _ "website:http://www.abcrealty.com/").
    vm_compute. reflexivity. }
  destruct (finish_collection_returns Model.Number_toString Model.StringToNumber
              Model.Date_now Model.Math_random
              (VStr "Real Estate Agent") (VStr "Tampa, FL") 10%Z
              ([google_candidate], ["Google Places"],
               [("OpenCorporates", "Request failed")]) _ Hd) as [rs Hrs].
  exists rs. split; [exact Hrs|].
  destruct (collectFromAllSources_report Model.Number_toString Model.StringToNumber
              Model.Date_now Model.Math_random
              (VStr "Real Estate Agent") (VStr "Tampa, FL") (Some 10%Z) true
              (Normal [google_candidate]) (Throw (Error "Request failed")) rs Hrs)
    as (_ & _ & H3 & H4 & _).
  split; assumption.
Defined.

(** ** Truncation *)

Lemma Array_slice0_exact {A} (stop : Z) (l : list A) :
  ((0 <= stop)%Z -> length (Array_slice0 stop l) = Nat.min (Z.to_nat stop) (length l))
  /\ ((stop < 0)%Z -> length (Array_slice0 stop l) = length l - Z.to_nat (- stop))
  /\ ((Z.of_nat (length l) <= stop)%Z -> Array_slice0 stop l = l).
Proof.
  unfold Array_slice0. split; [|split]; intros H.
  - rewrite (proj2 (Z.ltb_ge stop 0) H), length_take. lia.
  - rewrite (proj2 (Z.ltb_lt stop 0) H), length_take. lia.
  - assert (0 <= stop)%Z as H0 by lia.
    rewrite (proj2 (Z.ltb_ge stop 0) H0). apply take_ge. lia.
Qed.

Lemma Array_slice0_subset {A} (stop : Z) (l : list A) (x : A) :
  x ∈ Array_slice0 stop l -> x ∈ l.
Proof. unfold Array_slice0. apply subseteq_take. Qed.

(** X14.  The rows of [collectFromAllSources] are records of the
    deduplicated set and [total_found] is their number: the smaller of
    [maxResults] and the size of the set when [maxResults] is not negative,
    the size less [-maxResults] when it is negative; when [maxResults] is at
    least the size of the set the rows are a permutation of it. *)
Theorem collectFromAllSources_truncation (Number_toString : number -> string)
    (StringToNumber : string -> number) (Date_now Math_random : nat -> number)
    (category geography : value) (maxResults : option Z) (api_key : bool)
    (google opencorporates : completion (list record)) (rs : ResultSet) :
  collectFromAllSources_both Number_toString StringToNumber Date_now Math_random
    category geography maxResults api_key google opencorporates = Normal rs ->
  let limit := default 100%Z maxResults in
  let candidates :=
    (if api_key then succeeded google else []) ++ succeeded opencorporates in
  exists deduplicated sorted,
    deduplicateRecords Number_toString StringToNumber Date_now Math_random candidates
      = Normal deduplicated
    /\ rows rs = RowsArray sorted
    /\ meta rs !! "total_found" = Some (MCount (length sorted))
    /\ (forall row, row ∈ sorted -> row ∈ deduplicated)
    /\ ((0 <= limit)%Z -> length sorted = Nat.min (Z.to_nat limit) (length deduplicated))
    /\ ((limit < 0)%Z -> length sorted = length deduplicated - Z.to_nat (- limit))
    /\ ((Z.of_nat (length deduplicated) <= limit)%Z -> sorted ≡ₚ deduplicated).
Proof.
  intros H limit candidates. unfold collectFromAllSources_both in H.
  rewrite gather_state in H.
  apply finish_collection_exact in H as (deduplicated & Hd & ->).
  fold limit in Hd |- *.
  set (sorted := Array_sort (by_confidence StringToNumber) deduplicated).
  assert (length sorted = length deduplicated) as Hlen
    by (apply Permutation_length, Array_sort_perm).
  destruct (Array_slice0_exact limit sorted) as (Hpos & Hneg & Hall).
  exists deduplicated, (Array_slice0 limit sorted).
  split.
  { unfold candidates. destruct api_key; [rewrite gather_state in Hd|]; exact Hd. }
  split; [reflexivity|]. split.
  { cbn [meta].
    match goal with
    | |- context [collect_meta ?c ?g ?n ?s ?e] =>
        destruct (collect_meta_lookup c g n s e) as (_ & _ & H3 & _)
    end.
    exact H3. }
  split.
  { intros row Hrow. apply Array_slice0_subset in Hrow.
    rewrite <- (Array_sort_perm (by_confidence StringToNumber) deduplicated).
    exact Hrow. }
  split; [intros H; rewrite (Hpos H), Hlen; reflexivity|].
  split; [intros H; rewrite (Hneg H), Hlen; reflexivity|].
  intros H. rewrite Hall by (rewrite Hlen; exact H). apply Array_sort_perm.
Qed.

Lemma collectFromAllSources_truncation_witness :
  exists rs sorted,
    collectFromAllSources_both Model.Number_toString Model.StringToNumber
      Model.Date_now Model.Math_random
      (VStr "Real Estate Agent") (VStr "Tampa, FL") (Some 10%Z) true
      (Normal [google_candidate]) (Throw (Error "Request failed")) = Normal rs
    /\ rows rs = RowsArray sorted
    /\ meta rs !! "total_found" = Some (MCount (length sorted)).
Proof.
  assert (deduplicateRecords Model.Number_toString Model.StringToNumber
            Model.Date_now Model.Math_random [google_candidate]
          = Normal [google_candidate]) as Hd.
  { apply (deduplicateRecords_singleton _ _ _ _ _ "website:http://www.abcrealty.com/").
    vm_compute. reflexivity. }
  destruct (finish_collection_returns Model.Number_toString Model.StringToNumber
              Model.Date_now Model.Math_random
              (VStr "Real Estate Agent") (VStr "Tampa, FL") 10%Z
              ([google_candidate], ["Google Places"],
               [("OpenCorporates", "Request failed")]) _ Hd) as [rs Hrs].
  destruct (collectFromAllSources_truncation Model.Number_toString Model.StringToNumber
              Model.Date_now Model.Math_random
              (VStr "Real Estate Agent") (VStr "Tampa, FL") (Some 10%Z) true
              (Normal [google_candidate]) (Throw (Error "Request failed")) rs Hrs)
    as (deduplicated & sorted & _ & H2 & H3 & _).
  exists rs, sorted. split; [exact Hrs|]. split; assumption.
Defined.

(** ** [quickCollect] *)

(** X15.  [quickCollect] returns the records of one collector as that
    collector produced them, and [total_found] is their number: those of
    Google Places when the key is set and it returned at least one record,
    those of OpenCorporates otherwise, with [error] set exactly when
    OpenCorporates threw. *)
Theorem quickCollect_rows (category geography : value) (api_key : bool)
    (google opencorporates : completion (list record)) :
  let primary := api_key && (0 <? length (succeeded google))%nat in
  exists rs l,
    quickCollect category geography api_key google opencorporates = Normal rs
    /\ rows rs = RowsArray l
    /\ meta rs !! "total_found" = Some (MCount (length l))
    /\ (primary = true ->
        l = succeeded google
        /\ meta rs !! "sources_used" = Some (MNames ["Google Places"]))
    /\ (primary = false ->
        l = succeeded opencorporates
        /\ meta rs !! "sources_used"
           = Some (MNames (match opencorporates with
                           | Normal _ => ["OpenCorporates"]
                           | Throw _ => []
                           end))
        /\ (meta rs !! "error" = None <-> exists results, opencorporates = Normal results)).
Proof.
  intros primary. unfold quickCollect.
  assert (forall n s, quick_meta category geography n s !! "total_found" = Some (MCount n)
                      /\ quick_meta category geography n s !! "sources_used" = Some (MNames s)
                      /\ quick_meta category geography n s !! "error" = None) as Hq.
  { intros n s. unfold quick_meta. repeat split;
      rewrite ?lookup_insert_eq; try reflexivity;
      rewrite !lookup_insert_ne by discriminate; first [apply lookup_insert_eq | apply lookup_empty]. }
  assert (exists rs l,
            try_catch
              (results ← opencorporates;
               Normal {| meta := quick_meta category geography (length results)
                                   ["OpenCorporates"];
                         rows := RowsArray results |})
              (λ _, Normal {| meta := <["error" := MValue (VStr "All data sources failed")]>
                                        (quick_meta category geography 0 []);
                              rows := RowsArray [] |}) = Normal rs
            /\ rows rs = RowsArray l
            /\ meta rs !! "total_found" = Some (MCount (length l))
            /\ l = succeeded opencorporates
            /\ meta rs !! "sources_used"
               = Some (MNames (match opencorporates with
                               | Normal _ => ["OpenCorporates"]
                               | Throw _ => []
                               end))
            /\ (meta rs !! "error" = None <-> exists results, opencorporates = Normal results))
    as (rs & l & H1 & H2 & H3 & H4 & H5 & H6).
  { destruct opencorporates as [results|e]; simpl.
    - eexists _, results. split; [reflexivity|]. cbn [rows meta].
      destruct (Hq (length results) ["OpenCorporates"]) as (? & ? & ?).
      repeat split; eauto.
    - eexists _, []. split; [reflexivity|]. cbn [rows meta].
      destruct (Hq 0 []) as (Ht & Hs & _).
      rewrite lookup_insert_eq, !lookup_insert_ne by discriminate.
      repeat split; auto; try discriminate. intros [results Hr]. discriminate. }
  destruct api_key; cbn [andb] in primary.
  2:{ exists rs, l. split; [exact H1|]. repeat split; auto; try discriminate;
        apply H6; assumption. }
  destruct google as [[|r results]|e]; cbn in primary.
  - exists rs, l. split; [exact H1|].
    repeat split; auto; try discriminate; apply H6; assumption.
  - eexists _, (r :: results). split; [reflexivity|]. cbn [rows meta].
    destruct (Hq (length (r :: results)) ["Google Places"]) as (? & ? & ?).
    repeat split; auto; try discriminate.
  - exists rs, l. split; [exact H1|].
    repeat split; auto; try discriminate; apply H6; assumption.
Qed.

(** ** [orchestrate] *)

Section Orchestrate.

Variable URL_href : string -> option string.
Variable Number_toString : number -> string.
Variable StringToNumber : string -> number.
Variable Date_now Math_random : nat -> number.

Local Abbreviation dedup :=
  (deduplicateRecords Number_toString StringToNumber Date_now Math_random).
Local Abbreviation orch_try :=
  (orchestrate_try URL_href Number_toString StringToNumber Date_now Math_random).
Local Abbreviation orch :=
  (orchestrate URL_href Number_toString StringToNumber Date_now Math_random).

(** A run of the [try] block that completes was given an answer with a
    [meta]; its rows are those of the answer when they are not an array. *)
Lemma orchestrate_try_Normal llm rs :
  orch_try llm = Normal rs ->
  exists rws m, llm = Normal (Some {| result_rows := rws; result_meta := Some m |})
                /\ (rws = RowsOther -> rows rs = RowsOther).
Proof.
  unfold orchestrate_try.
  destruct llm as [[[rws [m|]]|]|e]; simpl; try discriminate.
  - intros H. exists rws, m. split; [reflexivity|]. intros ->.
    simpl in H. injection H as <-. reflexivity.
  - destruct rws as [raw|]; simpl; [|discriminate].
    destruct (mapM _ raw); simpl; [|discriminate].
    destruct (deduplicateRecords _ _ _ _ _); simpl; discriminate.
Qed.

Lemma mapM_ill_typed (raw : list record) :
  Exists (fun r => well_typed r = false) raw ->
  exists m, mapM (normalizeRecord URL_href) raw = Throw (TypeError m).
Proof.
  induction raw as [|r raw IH]; intros H; [inversion H|].
  cbn [mapM].
  destruct (well_typed r) eqn:Hw.
  - assert (Exists (fun r => well_typed r = false) raw) as Hrest
      by (inversion H; subst; [congruence | assumption]).
    destruct (IH Hrest) as [m Hm].
    destruct (normalizeRecord URL_href r) as [c|e] eqn:E.
    + simpl. rewrite Hm. simpl. eauto.
    + apply andb_prop in Hw as [Ht Hp].
      destruct (normalizePhone_typed _ Hp) as [phone Hphone].
      assert (normalizeRecord URL_href r = Normal (normalized URL_href r phone)) as E'
        by (apply normalizeRecord_Normal; eauto).
      congruence.
  - destruct (normalizeRecord_ill_typed URL_href r Hw) as [m ->]. simpl. eauto.
Qed.

End Orchestrate.



(** X17.  [orchestrate] always returns, and every row of the array it
    returns has exactly the thirteen canonical fields; outside [notes] each
    of them holds the value it has in a record in canonical form, and the
    row is itself in canonical form or has a string for [notes]. *)
Theorem orchestrate_rows_fields (URL_href : string -> option string)
    (Number_toString : number -> string) (StringToNumber : string -> number)
    (Date_now Math_random : nat -> number)
    (category geography : value) (maxResults : option Z)
    (llm : completion (option llm_result)) :
  exists rs,
    orchestrate URL_href Number_toString StringToNumber Date_now Math_random
      category geography maxResults llm = Normal rs
    /\ forall l row, rows rs = RowsArray l -> row ∈ l ->
         dom row = canonical_fields
         /\ (forall k, k <> "notes" ->
               exists c, canonical_text c /\ get row k = get c k)
         /\ (canonical_text row \/ exists s, get row "notes" = VStr s).
Proof.
  unfold orchestrate.
  destruct (orchestrate_try URL_href Number_toString StringToNumber Date_now
              Math_random llm) as [rs|e] eqn:E; simpl.
  2:{ eexists. split; [reflexivity|]. simpl. intros l row [= <-] Hrow.
      inversion Hrow. }
  exists rs. split; [reflexivity|]. intros l row Hl Hrow.
  destruct (orchestrate_try_Normal _ _ _ _ _ _ _ E) as (rws & m & -> & Hother).
  destruct rws as [raw|]; [|rewrite Hother in Hl by reflexivity; discriminate].
  apply orchestrate_try_rows in E as (normalized & out & Hn & Hd & Hr & _).
  rewrite Hr in Hl. injection Hl as ->.
  destruct (mapM_normalize_canonical _ _ _ Hn) as [_ Hc].
  rewrite Forall_forall in Hc.
  pose proof (deduplicateRecords_Forall Number_toString StringToNumber Date_now
                Math_random
                (fun row => dom row = canonical_fields
                   /\ (forall k, k <> "notes" ->
                         exists c, canonical_text c /\ get row k = get c k)
                   /\ (canonical_text row \/ exists s, get row "notes" = VStr s)))
    as Hinv.
  refine (proj1 (Forall_forall _ _) (Hinv _ normalized l _ Hd) row Hrow).
  - intros existing incoming (De & He & _) (Di & Hi & _). split; [|split].
    + apply mergeRecords_dom; try assumption.
      apply canonical_field_in. simpl. tauto.
    + intros k Hk.
      destruct (mergeRecords_choice Number_toString StringToNumber existing incoming k Hk)
        as [-> | ->]; [apply He | apply Hi]; exact Hk.
    + right. destruct (merge_notes_string Number_toString existing incoming) as [s Hs].
      exists s. rewrite get_merge_notes. exact Hs.
  - apply Forall_forall. intros c Hin. pose proof (Hc c Hin) as Hcan.
    split; [exact (canon_dom _ Hcan)|]. split; [eauto | auto].
Qed.

(** X18.  An answer of the language model without [meta], or with one
    ill-typed row among its rows, makes [orchestrate] return no row at all,
    with [total_found] 0 and a message in [error]. *)
Theorem orchestrate_discards (URL_href : string -> option string)
    (Number_toString : number -> string) (StringToNumber : string -> number)
    (Date_now Math_random : nat -> number)
    (category geography : value) (maxResults : option Z)
    (rws : rows_field) (m : option (gmap string meta_value)) :
  m = None \/ (exists raw, rws = RowsArray raw
                           /\ Exists (fun r => well_typed r = false) raw) ->
  exists rs msg,
    orchestrate URL_href Number_toString StringToNumber Date_now Math_random
      category geography maxResults
      (Normal (Some {| result_rows := rws; result_meta := m |})) = Normal rs
    /\ rows rs = RowsArray []
    /\ meta rs !! "total_found" = Some (MCount 0)
    /\ meta rs !! "error" = Some (MValue (VStr msg)).
Proof.
  intros H.
  assert (exists e, orchestrate_try URL_href Number_toString StringToNumber Date_now
                      Math_random
                      (Normal (Some {| result_rows := rws; result_meta := m |}))
                    = Throw e) as [e He].
  { destruct (orchestrate_try _ _ _ _ _ _) as [rs|e] eqn:E; [|eauto]. exfalso.
    destruct H as [-> | (raw & -> & Hex)].
    - apply orchestrate_try_Normal in E as (? & ? & [= _ ?] & _).
    - apply orchestrate_try_rows in E as (normalized & _ & Hn & _).
      destruct (mapM_ill_typed URL_href raw Hex) as [msg Hm]. congruence. }
  destruct (orchestrate_failure URL_href Number_toString StringToNumber Date_now
              Math_random category geography maxResults _ e He)
    as (rs & H1 & H2 & H3 & H4).
  exists rs, (message_of e). auto.
Qed.

Lemma orchestrate_discards_witness :
  exists rs msg,
    orchestrate Model.URL_href Model.Number_toString Model.StringToNumber
      Model.Date_now Model.Math_random (VStr "Plumber") (VStr "Tampa, FL") None
      (Normal (Some {| result_rows := RowsArray [low_row; high_row];
                       result_meta := None |})) = Normal rs
    /\ rows rs = RowsArray []
    /\ meta rs !! "total_found" = Some (MCount 0)
    /\ meta rs !! "error" = Some (MValue (VStr msg)).
Proof.
  apply (orchestrate_discards Model.URL_href Model.Number_toString Model.StringToNumber
           Model.Date_now Model.Math_random).
  left. reflexivity.
Defined.

(** ** Splitting *)

Lemma split_cons (sep : ascii) (s : string) :
  exists p ps, Str.split sep s = p :: ps.
Proof.
  destruct s as [|c s]; simpl; [eauto|].
  destruct (Ascii.eqb c sep); [eauto|].
  destruct (Str.split sep s); eauto.
Qed.

Lemma join_cons (sep p q : string) (qs : list string) :
  Str.join sep (p :: q :: qs) = p +:+ sep +:+ Str.join sep (q :: qs).
Proof. reflexivity. Qed.

Lemma join_split (sep : ascii) (s : string) :
  Str.join (String sep "") (Str.split sep s) = s.
Proof.
  induction s as [|c s IH]; [reflexivity|].
  cbn [Str.split].
  destruct (split_cons sep s) as (p & ps & E). rewrite E in IH |- *.
  destruct (Ascii.eqb c sep) eqn:Ec.
  - apply Ascii.eqb_eq in Ec. subst c. rewrite join_cons, IH. reflexivity.
  - destruct ps as [|q qs].
    + simpl in IH |- *. rewrite IH. reflexivity.
    + rewrite join_cons in IH |- *. simpl. rewrite <- IH. reflexivity.
Qed.

Lemma split_free (sep : ascii) (s : string) :
  Forall (fun p => free_of sep p = true) (Str.split sep s).
Proof.
  induction s as [|c s IH]; simpl; [repeat constructor|].
  destruct (Ascii.eqb c sep) eqn:Ec; [constructor; [reflexivity | exact IH]|].
  destruct (Str.split sep s) as [|p ps].
  { constructor; [unfold free_of; simpl; rewrite Ec; reflexivity | constructor]. }
  inversion_clear IH as [|? ? Hp Hps]. constructor; [|exact Hps].
  unfold free_of. simpl. rewrite Ec. exact Hp.
Qed.

(** X19.  [extractCity] cuts the address at its commas (the pieces have
    no comma and, joined by commas, give the address back) and returns the
    third piece from the end, trimmed; it returns the absent-marker when
    there are fewer than three pieces. *)
Theorem extractCity_segments (a : string) :
  let parts := Str.split "," a in
  Str.join "," parts = a
  /\ Forall (fun p => free_of "," p = true) parts
  /\ extractCity (VStr a)
     = Normal match reverse parts with
              | _ :: _ :: city :: _ => VStr (Str.trim city)
              | _ => VNull
              end.
Proof.
  intros parts. split; [apply join_split|]. split; [apply split_free|].
  unfold extractCity. fold parts.
  destruct (negb (truthy (VStr a))) eqn:Ht.
  { destruct a; try discriminate. reflexivity. }
  rewrite length_fmap.
  destruct (3 <=? length parts)%nat eqn:E.
  - apply Nat.leb_le in E.
    rewrite list_lookup_fmap.
    assert (parts !! (length parts - 3)%nat = reverse parts !! 2%nat) as ->.
    { rewrite reverse_lookup by lia. f_equal; lia. }
    assert (length (reverse parts) = length parts) as Hl by apply length_reverse.
    destruct (reverse parts) as [|x [|y [|z l]]]; simpl in Hl; try lia. reflexivity.
  - apply Nat.leb_gt in E.
    assert (length (reverse parts) = length parts) as Hl by apply length_reverse.
    destruct (reverse parts) as [|x [|y [|z l]]]; simpl in Hl; try lia; reflexivity.
Qed.

(** ** Leftmost matches *)

Lemma app_String (c : ascii) (s t : string) : String c s +:+ t = String c (s +:+ t).
Proof. reflexivity. Qed.

Lemma app_empty_l (s t : string) : s +:+ t = "" -> s = "" /\ t = "".
Proof. destruct s; [auto | discriminate]. Qed.

Lemma word_search_spec (here : string -> option string) :
  (forall s m, here s = Some m -> exists rest, s = m +:+ rest) ->
  forall (s : string) (after : bool) (m : string),
    Str.word_search here after s = Some m ->
    exists pre rest,
      s = pre +:+ m +:+ rest
      /\ ends_outside_word after pre = true
      /\ here (m +:+ rest) = Some m
      /\ (forall p1 p2, pre = p1 +:+ p2 -> p2 <> "" ->
            ends_outside_word after p1 = true -> here (p2 +:+ m +:+ rest) = None).
Proof.
  intros Hhere. induction s as [|c s IH]; intros after m; [discriminate|].
  cbn [Str.word_search].
  destruct (if after then None else here (String c s)) as [m'|] eqn:E.
  - intros [= ->]. destruct after; [discriminate|].
    destruct (Hhere _ _ E) as [rest Hrest].
    exists "", rest. split; [exact Hrest|]. split; [reflexivity|].
    split; [rewrite <- Hrest; exact E|].
    intros p1 p2 Hp Hne. symmetry in Hp. apply app_empty_l in Hp as [_ ->].
    contradiction.
  - intros H. destruct (IH _ _ H) as (pre & rest & Hs & Hout & Hm & Hleft).
    exists (String c pre), rest. split; [rewrite app_String, <- Hs; reflexivity|].
    split; [exact Hout|]. split; [exact Hm|].
    intros p1 p2 Hp Hne Hp1. destruct p1 as [|d p1].
    + change (String c pre = p2) in Hp. subst p2. rewrite app_String, <- Hs.
      destruct after; [discriminate | exact E].
    + rewrite app_String in Hp. injection Hp as <- ->.
      apply (Hleft p1 p2); [reflexivity | exact Hne | exact Hp1].
Qed.

Lemma digits_then_spec (n : nat) (s d rest : string) :
  Str.digits_then n s = Some (d, rest) ->
  s = d +:+ rest /\ String.length d = n /\ Model.all_chars Str.is_digit d = true.
Proof.
  revert s d rest. induction n as [|n IH]; intros s d rest; simpl.
  - intros [= <- <-]. auto.
  - destruct s as [|c s]; [discriminate|].
    destruct (Str.is_digit c) eqn:Ec; [|discriminate].
    destruct (Str.digits_then n s) as [[d' rest']|] eqn:E; [|discriminate].
    intros [= <- <-]. destruct (IH _ _ _ E) as (-> & <- & Hd).
    simpl. rewrite Ec. auto.
Qed.

Lemma state_here_spec (s m : string) :
  state_here s = Some m ->
  exists rest, s = m +:+ rest
               /\ In (Str.toUpperCase m) state_codes
               /\ Str.word_ends rest = true.
Proof.
  unfold state_here. destruct s as [|a [|b rest]]; try discriminate.
  destruct (existsb _ state_codes && Str.word_ends rest) eqn:E; [|discriminate].
  intros [= <-]. apply andb_prop in E as [Hc Hw].
  exists rest. split; [reflexivity|]. split; [|exact Hw].
  apply existsb_exists in Hc as (code & Hin & Heq).
  apply String.eqb_eq in Heq. rewrite Heq. exact Hin.
Qed.

(** The optional group [(?:-\d{4})?] changes neither whether the
    expression matches nor its first group. *)
Lemma zip_here_spec (s z : string) :
  zip_here s = Some z <->
  exists rest, Str.digits_then 5 s = Some (z, rest) /\ Str.word_ends rest = true.
Proof.
  unfold zip_here.
  destruct (Str.digits_then 5 s) as [[zip rest]|]; [|split; [discriminate|]].
  2:{ intros (rest & H & _). discriminate. }
  set (plus4 := match rest with
                | String "-" r =>
                    match Str.digits_then 4 r with
                    | Some (_, r') => Str.word_ends r'
                    | None => false
                    end
                | _ => false
                end).
  assert (plus4 = true -> Str.word_ends rest = true) as Hp.
  { unfold plus4. destruct rest as [|c r]; [reflexivity|].
    destruct (Ascii.eqb c "-") eqn:E.
    - apply Ascii.eqb_eq in E. subst c. reflexivity.
    - destruct c as [[] [] [] [] [] [] [] []]; try discriminate; try reflexivity. }
  split.
  - destruct (plus4 || Str.word_ends rest) eqn:E; [|discriminate].
    intros [= <-]. exists rest. split; [reflexivity|].
    destruct plus4; [apply Hp; reflexivity | exact E].
  - intros (rest' & [= <- <-] & Hw). rewrite Hw, orb_true_r. reflexivity.
Qed.

Lemma state_codes_clean (code : string) :
  In code state_codes ->
  code <> "" /\ Str.trim code = code /\ Str.toUpperCase code = code.
Proof.
  intros Hin.
  assert (forallb (fun c => negb (String.eqb c "") && String.eqb (Str.trim c) c
                            && String.eqb (Str.toUpperCase c) c) state_codes = true) as Hall
    by (vm_compute; reflexivity).
  rewrite forallb_forall in Hall. specialize (Hall code Hin).
  apply andb_prop in Hall as [[H1 H2]%andb_prop H3].
  apply negb_true_iff, String.eqb_neq in H1.
  apply String.eqb_eq in H2, H3. auto.
Qed.

Lemma digit_not_space (c : ascii) : Str.is_digit c = true -> Str.is_space c = false.
Proof. destruct c as [[] [] [] [] [] [] [] []]; try discriminate; reflexivity. Qed.

Lemma trim_digits (z : string) : Model.all_chars Str.is_digit z = true -> Str.trim z = z.
Proof.
  intros H. unfold Str.trim.
  assert (Str.trimStart z = z) as ->.
  { destruct z as [|c z]; [reflexivity|]. simpl in H |- *.
    apply andb_prop in H as [Hc _]. rewrite (digit_not_space _ Hc). reflexivity. }
  induction z as [|c z IH]; [reflexivity|].
  simpl in H. apply andb_prop in H as [Hc Hz].
  cbn [Str.trimEnd]. rewrite (IH Hz), (digit_not_space _ Hc).
  destruct z; reflexivity.
Qed.

(** X20.  On a string [extractState] returns the absent-marker or a state
    code of the list, in upper case: the leftmost two characters of the
    address that stand as a word of their own and spell a code in any
    case.  The code is in the form the record normalizer gives to
    [state]. *)
Theorem extractState_word (a : string) :
  exists v, extractState (VStr a) = Normal v
    /\ (v = VNull
        \/ exists pre two rest,
             a = pre +:+ two +:+ rest
             /\ v = VStr (Str.toUpperCase two)
             /\ In (Str.toUpperCase two) state_codes
             /\ ends_outside_word false pre = true
             /\ Str.word_ends rest = true
             /\ (forall p1 p2, pre = p1 +:+ p2 -> p2 <> "" ->
                   ends_outside_word false p1 = true ->
                   state_here (p2 +:+ two +:+ rest) = None)
             /\ clean_text Str.toUpperCase v).
Proof.
  unfold extractState.
  destruct (negb (truthy (VStr a))); [eauto|].
  destruct (state_match false a) as [m|] eqn:E; [|eauto].
  eexists. split; [reflexivity|]. right.
  apply word_search_spec in E as (pre & rest & Ha & Hout & Hm & Hleft).
  2:{ intros s m' H. apply state_here_spec in H as (rest & ? & _). eauto. }
  apply state_here_spec in Hm as (rest' & Hr & Hin & Hw).
  assert (rest' = rest) as ->.
  { clear -Hr. induction m as [|c m IH]; [symmetry; exact Hr|].
    rewrite !app_String in Hr. injection Hr as Hr. apply IH, Hr. }
  exists pre, m, rest. repeat split; try assumption.
  right. exists (Str.toUpperCase m). split; [reflexivity|].
  apply state_codes_clean, Hin.
Qed.

(** X21.  On a string [extractZip] returns the absent-marker or five
    digits: the leftmost five digits of the address that stand as a word of
    their own, whether or not [-] and four digits follow.  They are in the
    form the record normalizer gives to [postal_code]. *)
Theorem extractZip_word (a : string) :
  exists v, extractZip (VStr a) = Normal v
    /\ (v = VNull
        \/ exists pre zip rest,
             a = pre +:+ zip +:+ rest
             /\ v = VStr zip
             /\ String.length zip = 5%nat
             /\ Model.all_chars Str.is_digit zip = true
             /\ ends_outside_word false pre = true
             /\ Str.word_ends rest = true
             /\ (forall p1 p2, pre = p1 +:+ p2 -> p2 <> "" ->
                   ends_outside_word false p1 = true ->
                   zip_here (p2 +:+ zip +:+ rest) = None)
             /\ clean_text plain v).
Proof.
  unfold extractZip.
  destruct (negb (truthy (VStr a))); [eauto|].
  destruct (zip_match false a) as [m|] eqn:E; [|eauto].
  eexists. split; [reflexivity|]. right.
  apply word_search_spec in E as (pre & rest & Ha & Hout & Hm & Hleft).
  2:{ intros s m' H. apply zip_here_spec in H as (rest & H & _).
      apply digits_then_spec in H as (-> & _). eauto. }
  apply zip_here_spec in Hm as (rest' & Hd & Hw).
  apply digits_then_spec in Hd as (Hr & Hlen & Hdig).
  assert (rest' = rest) as ->.
  { clear -Hr. induction m as [|c m IH]; [symmetry; exact Hr|].
    rewrite !app_String in Hr. injection Hr as Hr. apply IH, Hr. }
  exists pre, m, rest. repeat split; try assumption.
  right. exists m. split; [reflexivity|].
  split; [intros ->; discriminate|]. split; [apply trim_digits, Hdig | reflexivity].
Qed.

(** ** Confidence of a Google Places candidate *)

(** X22.  The confidence of a Google Places candidate is the double
    nearest to 0.50 plus 0.15, 0.10, 0.10, 0.10 and 0.05 for the conditions
    that hold (no rounding error of the additions is left in it); it lies
    between 0.5 and 1. *)
Theorem calculateConfidence_value (StringToNumber : string -> number)
    (place : record) (details : option record) :
  let rated := truthy (get place "rating")
               && js_ge_number StringToNumber (get place "rating") (dec 4 1) in
  let reviewed := truthy (get place "user_ratings_total")
                  && js_ge_number StringToNumber (get place "user_ratings_total") (dec 10 1) in
  let operational := is_string "OPERATIONAL" (get place "business_status") in
  let website := truthy (opt_get details "website") in
  let phone := truthy (opt_get details "formatted_phone_number") in
  let c := calculateConfidence StringToNumber place details in
  c = dec (50 + bonus rated 15 + bonus reviewed 10 + bonus operational 10
           + bonus website 10 + bonus phone 5) 100
  /\ SFleb num_half c = true /\ SFleb c num_one = true
  /\ in_unit_interval c = true.
Proof.
  intros rated reviewed operational website phone c.
  unfold c, calculateConfidence.
  fold rated reviewed operational website phone.
  destruct rated, reviewed, operational, website, phone;
    vm_compute; repeat split; reflexivity.
Qed.

(** ** The candidates of the Google Places collector *)

Section Business.

Variables name category street city state postal_code phone website source_url
  confidence notes place_id rating reviews types operational : value.

Local Abbreviation b :=
  (google_business name category street city state postal_code phone website
     source_url confidence notes place_id rating reviews types operational).

Lemma get_business_name : get b "business_name" = name.
Proof. reflexivity. Qed.
Lemma get_business_category : get b "category" = category.
Proof. reflexivity. Qed.
Lemma get_business_street : get b "street" = street.
Proof. reflexivity. Qed.
Lemma get_business_city : get b "city" = city.
Proof. reflexivity. Qed.
Lemma get_business_state : get b "state" = state.
Proof. reflexivity. Qed.
Lemma get_business_postal_code : get b "postal_code" = postal_code.
Proof. reflexivity. Qed.
Lemma get_business_country : get b "country" = VStr "USA".
Proof. reflexivity. Qed.
Lemma get_business_phone : get b "phone" = phone.
Proof. reflexivity. Qed.
Lemma get_business_email : get b "email" = VNull.
Proof. reflexivity. Qed.
Lemma get_business_website : get b "website" = website.
Proof. reflexivity. Qed.
Lemma get_business_source_url : get b "source_url" = source_url.
Proof. reflexivity. Qed.
Lemma get_business_confidence : get b "confidence" = confidence.
Proof. reflexivity. Qed.
Lemma get_business_notes : get b "notes" = notes.
Proof. reflexivity. Qed.

End Business.

Lemma extractState_code (a : string) :
  exists v, extractState (VStr a) = Normal v
    /\ (v = VNull \/ exists code, v = VStr code /\ In code state_codes).
Proof.
  unfold extractState.
  destruct (negb (truthy (VStr a))); [eauto|].
  destruct (state_match false a) as [m|] eqn:E; [|eauto].
  eexists. split; [reflexivity|]. right.
  apply word_search_spec in E as (_ & rest & _ & _ & Hm & _).
  2:{ intros s m' H. apply state_here_spec in H as (r & ? & _). eauto. }
  apply state_here_spec in Hm as (_ & _ & Hin & _). eauto.
Qed.

Lemma extractZip_digits (a : string) :
  exists v, extractZip (VStr a) = Normal v
    /\ (v = VNull \/ exists zip, v = VStr zip /\ String.length zip = 5%nat
                                  /\ Model.all_chars Str.is_digit zip = true).
Proof.
  unfold extractZip.
  destruct (negb (truthy (VStr a))); [eauto|].
  destruct (zip_match false a) as [m|] eqn:E; [|eauto].
  eexists. split; [reflexivity|]. right.
  apply word_search_spec in E as (_ & rest & _ & _ & Hm & _).
  2:{ intros s m' H. apply zip_here_spec in H as (r & H & _).
      apply digits_then_spec in H as (-> & _). eauto. }
  apply zip_here_spec in Hm as (r & Hd & _).
  apply digits_then_spec in Hd as (_ & Hlen & Hdig). eauto.
Qed.

Lemma extractCity_text (a : string) :
  exists v, extractCity (VStr a) = Normal v /\ text_or_absent v = true.
Proof.
  unfold extractCity.
  destruct (negb (truthy (VStr a))); [eauto|].
  match goal with |- context [if ?c then _ else _] => destruct c end; [|eauto].
  eexists. split; [reflexivity|].
  match goal with |- context [?l !! ?i] => destruct (l !! i) end; reflexivity.
Qed.

(** On an address that is a string or absent the three extractors return
    text or the absent-marker. *)
Lemma extract_text (address : value) :
  text_or_absent address = true ->
  exists city state zip,
    extractCity address = Normal city /\ extractState address = Normal state
    /\ extractZip address = Normal zip
    /\ text_or_absent city = true
    /\ (state = VNull \/ exists code, state = VStr code /\ In code state_codes)
    /\ (zip = VNull \/ exists z, zip = VStr z /\ String.length z = 5%nat
                                  /\ Model.all_chars Str.is_digit z = true).
Proof.
  destruct address as [| |b|x|a|o]; try discriminate; intros _;
    try solve [exists VNull, VNull, VNull; repeat split; auto].
  destruct (extractState_code a) as (state & Hs & Hstate).
  destruct (extractZip_digits a) as (zip & Hz & Hzip).
  destruct (extractCity_text a) as (city & Hc & Hcity).
  exists city, state, zip. auto 10.
Qed.

Lemma extractState_result (address state : value) :
  extractState address = Normal state ->
  state = VNull \/ exists code, state = VStr code /\ In code state_codes.
Proof.
  destruct address as [| |x|x|a|o].
  5:{ destruct (extractState_code a) as (v & -> & Hv). intros [= <-]. exact Hv. }
  all: unfold extractState; destruct (negb (truthy _));
    [intros [= <-]; auto | discriminate].
Qed.

Lemma extractZip_result (address zip : value) :
  extractZip address = Normal zip ->
  zip = VNull \/ exists z, zip = VStr z /\ String.length z = 5%nat
                           /\ Model.all_chars Str.is_digit z = true.
Proof.
  destruct address as [| |x|x|a|o].
  5:{ destruct (extractZip_digits a) as (v & -> & Hv). intros [= <-]. exact Hv. }
  all: unfold extractZip; destruct (negb (truthy _));
    [intros [= <-]; auto | discriminate].
Qed.

Section Candidates.

Variable Number_toString : number -> string.
Variable StringToNumber : string -> number.
Variable category : value.

Local Abbreviation business := (place_business Number_toString StringToNumber category).

Lemma confidence_range (place : record) (details : option record) :
  SFleb num_half (calculateConfidence StringToNumber place details) = true
  /\ SFleb (calculateConfidence StringToNumber place details) num_one = true.
Proof.
  unfold calculateConfidence.
  repeat match goal with
  | |- context [if ?c then _ else _] => destruct c
  end; vm_compute; split; reflexivity.
Qed.

Lemma place_business_shaped (p : place) (details : option record) (b : record) :
  business p details = Normal b -> google_shaped category b.
Proof.
  unfold place_business.
  intros (city & Hc & H)%bind_Normal.
  apply bind_Normal in H as (state & Hs & H).
  apply bind_Normal in H as (zip & Hz & H). injection H as <-.
  unfold google_shaped.
  rewrite get_business_category, get_business_country, get_business_email,
    get_business_confidence, get_business_source_url, get_business_notes,
    get_business_state, get_business_postal_code.
  split; [reflexivity|]. split; [reflexivity|]. split; [reflexivity|].
  split; [eexists; split; [reflexivity | apply confidence_range]|].
  split; [eexists; split; [reflexivity | apply startsWith_app]|].
  split; [eexists; reflexivity|].
  split; [exact (extractState_result _ _ Hs) | exact (extractZip_result _ _ Hz)].
Qed.

Lemma place_business_typed (p : place) (response : details_response) :
  text_or_absent category = true ->
  text_place (p, response) ->
  exists b, business p (place_details p response) = Normal b
            /\ well_typed b = true /\ keyable b = true.
Proof.
  intros Hcat (Hname & Haddr & Hdet). cbn [fst snd] in *.
  unfold place_business.
  destruct (extract_text _ Haddr) as (city & state & zip & -> & -> & -> & Hc & Hs & Hz).
  cbn -[google_business].
  eexists. split; [reflexivity|].
  assert (text_or_absent state = true) as Hs'
    by (destruct Hs as [-> | (? & -> & _)]; reflexivity).
  assert (text_or_absent zip = true) as Hz'
    by (destruct Hz as [-> | (? & -> & _)]; reflexivity).
  assert (forall k, opt_get (place_details p response) k = VUndef
                    \/ exists status d, response = Normal (status, Some d)
                                        /\ opt_get (place_details p response) k = get d k)
    as Hd.
  { intros k. unfold place_details, getPlaceDetails.
    destruct (truthy (get (place_fields p) "place_id")); [|auto].
    destruct response as [[status [d|]]|e]; simpl; auto;
      destruct (is_string "OK" status); simpl; eauto. }
  assert (forall k, (forall status d, response = Normal (status, Some d) ->
                       text_or_absent (get d k) = true) ->
                    text_or_absent (opt_get (place_details p response) k) = true) as Ht.
  { intros k Hk. destruct (Hd k) as [-> | (status & d & Hr & ->)]; [reflexivity|].
    exact (Hk status d Hr). }
  assert (forall u v, text_or_absent u = true -> text_or_absent v = true ->
                      text_or_absent (js_or u v) = true) as Hor.
  { intros u v Hu Hv. unfold js_or. destruct (truthy u); assumption. }
  assert (forall u, text_or_absent u = true -> phone_typed u = true) as Hph.
  { intros [] H; try discriminate; reflexivity. }
  unfold well_typed, keyable. cbn [forallb trimmed_fields].
  rewrite get_business_name, get_business_category, get_business_street,
    get_business_city, get_business_state, get_business_postal_code,
    get_business_country, get_business_email, get_business_source_url,
    get_business_notes, get_business_phone, get_business_website.
  rewrite Hname, Hcat, Hc, Hs', Hz'. cbn [andb text_or_absent].
  rewrite Hor; [|apply Hor; [apply Ht; intros s d Hr; apply (Hdet s d Hr) | exact Haddr]
                | reflexivity].
  rewrite Hph; [|apply Hor; [apply Hor; apply Ht; intros s d Hr; apply (Hdet s d Hr)
                            | reflexivity]].
  rewrite orb_true_r. auto.
Qed.

End Candidates.

(** ** The pagination loop *)

Section Loop.

Variable Number_toString : number -> string.
Variable StringToNumber : string -> number.
Variable category : value.
Variable maxResults : Z.
Variable search : nat -> completion places_page.

Local Abbreviation business := (place_business Number_toString StringToNumber category).
Local Abbreviation add :=
  (add_places Number_toString StringToNumber category maxResults).
Local Abbreviation pages :=
  (fetch_pages Number_toString StringToNumber category maxResults search).

(** [Q] holds of the places the requests answer, [P] of the records built
    from such places. *)
Variable Q : place * details_response -> Prop.
Variable P : record -> Prop.
Hypothesis P_business : forall p response b,
  Q (p, response) -> business p (place_details p response) = Normal b -> P b.
Hypothesis Q_search : forall n data places,
  search n = Normal data -> page_results data = Some places -> Forall Q places.

Lemma add_places_spec (places : list (place * details_response)) (results : list record) :
  Forall Q places ->
  exists added,
    (add places results).1 = results ++ added
    /\ Forall P added
    /\ ((add places results).2 = false -> places <> [] -> added <> [])
    /\ ((Z.of_nat (length results) < maxResults)%Z ->
        (Z.of_nat (length (results ++ added)) <= maxResults)%Z).
Proof.
  intros HQ. revert results.
  induction HQ as [|[p response] places Hp _ IH]; intros results; cbn [add_places].
  - exists []. rewrite app_nil_r. repeat split; [constructor | congruence | lia].
  - destruct (business p (place_details p response)) as [b|e] eqn:E; cbn [fst snd].
    + specialize (P_business _ _ _ Hp E).
      destruct (maxResults <=? Z.of_nat (length (results ++ [b])))%Z eqn:Emax;
        cbn [fst snd].
      * exists [b]. split; [reflexivity|]. split; [repeat constructor; assumption|].
        split; [discriminate|]. rewrite length_app. simpl. lia.
      * destruct (IH (results ++ [b])) as (added & H1 & H2 & H3 & H4).
        exists (b :: added). rewrite H1, <- app_assoc. split; [reflexivity|].
        split; [constructor; assumption|]. split; [discriminate|].
        intros _. change (results ++ b :: added) with (results ++ [b] ++ added).
        rewrite app_assoc. apply H4. apply Z.leb_gt in Emax. exact Emax.
    + exists []. rewrite app_nil_r. repeat split; [constructor | discriminate | lia].
Qed.

Lemma fetch_pages_spec (fuel page : nat) (results : list record) :
  (maxResults - Z.of_nat (length results) <= Z.of_nat fuel)%Z ->
  exists added,
    pages fuel page results = Some (results ++ added)
    /\ Forall P added
    /\ (Z.of_nat (length (results ++ added))
        <= Z.max maxResults (Z.of_nat (length results)))%Z.
Proof.
  revert page results. induction fuel as [|fuel IH]; intros page results Hfuel.
  - exists []. rewrite app_nil_r. cbn [fetch_pages].
    rewrite (proj2 (Z.ltb_ge _ _)) by lia. repeat split; [constructor | lia].
  - cbn [fetch_pages].
    assert (exists added : list record,
              Some results = Some (results ++ added) /\ Forall P added
              /\ (Z.of_nat (length (results ++ added))
                  <= Z.max maxResults (Z.of_nat (length results)))%Z) as Hstop.
    { exists []. rewrite app_nil_r. repeat split; [constructor | lia]. }
    destruct (Z.of_nat (length results) <? maxResults)%Z eqn:Elt; [|exact Hstop].
    apply Z.ltb_lt in Elt.
    destruct (search page) as [data|e] eqn:Es; [|exact Hstop].
    destruct (negb (is_string "OK" (page_status data)) && _); [exact Hstop|].
    destruct (page_results data) as [[|pr places]|] eqn:Er; try exact Hstop.
    pose proof (Q_search _ _ _ Es Er) as HQ.
    destruct (add_places_spec (pr :: places) results HQ) as (added & H1 & H2 & H3 & H4).
    destruct (add (pr :: places) results) as [results' thrown].
    cbn [fst snd] in H1, H3. subst results'. specialize (H4 Elt).
    assert (exists added0 : list record,
              Some (results ++ added) = Some (results ++ added0) /\ Forall P added0
              /\ (Z.of_nat (length (results ++ added0))
                  <= Z.max maxResults (Z.of_nat (length results)))%Z) as Hdone.
    { exists added. repeat split; [exact H2 | lia]. }
    destruct thrown; [exact Hdone|].
    destruct (negb (truthy (page_next data))); [exact Hdone|].
    assert (added <> []) as Hne by (apply H3; [reflexivity | discriminate]).
    assert (length results < length (results ++ added)) as Hgrow.
    { rewrite length_app. destruct added; [contradiction | simpl; lia]. }
    destruct (IH (S page) (results ++ added)) as (added' & H5 & H6 & H7); [lia|].
    exists (added ++ added'). rewrite app_assoc. split; [exact H5|].
    split; [apply Forall_app; auto | lia].
Qed.

Lemma fetch_pages_more (fuel page : nat) (results out : list record) :
  pages fuel page results = Some out -> pages (S fuel) page results = Some out.
Proof.
  revert page results. induction fuel as [|fuel IH]; intros page results.
  - cbn [fetch_pages]. destruct (_ <? _)%Z; [discriminate | exact id].
  - intros H. rewrite <- H. cbn [fetch_pages] in H |- *.
    destruct (_ <? _)%Z; [|reflexivity].
    destruct (search page) as [data|e]; [|reflexivity].
    destruct (negb _ && _); [reflexivity|].
    destruct (page_results data) as [[|pr places]|]; try reflexivity.
    destruct (add (pr :: places) results) as [results' thrown].
    destruct thrown; [reflexivity|].
    destruct (negb (truthy (page_next data))); [reflexivity|].
    rewrite H. apply IH in H. exact H.
Qed.

End Loop.

(** X23.  Whatever the requests answer, the loop of
    [fetchFromGooglePlaces] ends after at most as many turns as records
    were asked for (more turns change nothing) and returns at most that many
    records, none without the API key; every record has the requested
    category, the country [USA], no email, a confidence between 0.5 and 1, a
    source URL on Google Maps, a string for [notes], and for [state] and
    [postal_code] a state code and five digits, or the absent-marker. *)
Theorem fetchFromGooglePlaces_bounded (Number_toString : number -> string)
    (StringToNumber : string -> number) (api_key : bool) (category : value)
    (maxResults : option Z) (search : nat -> completion places_page) :
  let limit := default 100%Z maxResults in
  exists out,
    fetchFromGooglePlaces Number_toString StringToNumber api_key category maxResults search
      = Some out
    /\ (Z.of_nat (length out) <= Z.max limit 0)%Z
    /\ (api_key = false -> out = [])
    /\ Forall (google_shaped category) out
    /\ (api_key = true ->
        forall extra,
          fetch_pages Number_toString StringToNumber category limit search
            (Z.to_nat limit + extra) 0 [] = Some out).
Proof.
  intros limit. unfold fetchFromGooglePlaces. fold limit.
  destruct api_key.
  2:{ exists []. split; [reflexivity|]. split; [simpl; lia|]. split; [reflexivity|].
      split; [constructor | discriminate]. }
  destruct (fetch_pages_spec Number_toString StringToNumber category limit search
              (fun _ => True) (google_shaped category)) with
    (fuel := Z.to_nat limit) (page := 0) (results := @nil record)
    as (added & H1 & H2 & H3).
  - intros p response b _ Hb. exact (place_business_shaped _ _ _ _ _ _ Hb).
  - intros n data places _ _. apply Forall_forall. auto.
  - simpl. lia.
  - exists added. split; [exact H1|]. simpl in H3. split; [lia|].
    split; [discriminate|]. split; [exact H2|].
    intros _ extra. induction extra as [|extra IH].
    + rewrite Nat.add_0_r. exact H1.
    + rewrite Nat.add_succ_r. apply fetch_pages_more, IH.
Qed.

Lemma normalizeRecord_well_typed (URL_href : string -> option string) (r : record) :
  well_typed r = true ->
  exists c, normalizeRecord URL_href r = Normal c /\ canonical_text c.
Proof.
  unfold well_typed. intros [Ht Hp]%andb_prop.
  destruct (normalizePhone_typed _ Hp) as [phone Hphone].
  exists (normalized URL_href r phone). split.
  - apply normalizeRecord_Normal. eauto.
  - exact (normalized_canonical_text _ _ _ _ Hphone).
Qed.

(** X24.  When the category and, in every place the requests answer,
    the name, the addresses and the phone numbers are strings or absent,
    every record [fetchFromGooglePlaces] returns is well typed and keyable:
    [normalizeRecord] turns each into a record in canonical form, and the
    engine returns on them. *)
Theorem fetchFromGooglePlaces_typed (Number_toString : number -> string)
    (StringToNumber : string -> number) (api_key : bool) (category : value)
    (maxResults : option Z) (search : nat -> completion places_page) :
  text_or_absent category = true ->
  (forall n data places,
     search n = Normal data -> page_results data = Some places ->
     Forall text_place places) ->
  exists out,
    fetchFromGooglePlaces Number_toString StringToNumber api_key category maxResults search
      = Some out
    /\ Forall (fun b => well_typed b = true /\ keyable b = true) out
    /\ (forall URL_href,
          Forall (fun b => exists c, normalizeRecord URL_href b = Normal c
                                     /\ canonical_text c) out)
    /\ (forall Date_now Math_random,
          exists deduplicated,
            deduplicateRecords Number_toString StringToNumber Date_now Math_random out
            = Normal deduplicated).
Proof.
  intros Hcat Hsearch.
  assert (exists out,
            fetchFromGooglePlaces Number_toString StringToNumber api_key category
              maxResults search = Some out
            /\ Forall (fun b => well_typed b = true /\ keyable b = true) out)
    as (out & Hout & Hall).
  { unfold fetchFromGooglePlaces. destruct api_key; [|exists []; split; [auto | constructor]].
    destruct (fetch_pages_spec Number_toString StringToNumber category
                (default 100%Z maxResults) search
                text_place (fun b => well_typed b = true /\ keyable b = true)) with
      (fuel := Z.to_nat (default 100%Z maxResults)) (page := 0) (results := @nil record)
      as (added & H1 & H2 & _).
    - intros p response b HQ Hb.
      destruct (place_business_typed Number_toString StringToNumber category p response
                  Hcat HQ) as (b' & Hb' & Hw & Hk).
      rewrite Hb in Hb'. injection Hb' as <-. auto.
    - exact Hsearch.
    - simpl. lia.
    - exists added. auto. }
  exists out. split; [exact Hout|]. split; [exact Hall|]. split.
  - intros URL_href. eapply Forall_impl; [exact Hall|].
    intros b [Hw _]. apply normalizeRecord_well_typed, Hw.
  - intros Date_now Math_random. apply deduplicateRecords_keyable.
    eapply Forall_impl; [exact Hall|]. intros b [_ Hk]. exact Hk.
Qed.

Lemma fetchFromGooglePlaces_typed_witness :
  exists out,
    fetchFromGooglePlaces Model.Number_toString Model.StringToNumber true
      (VStr "Real Estate Agent") (Some 10%Z) one_page = Some out
    /\ Forall (fun b => well_typed b = true /\ keyable b = true) out.
Proof.
  destruct (fetchFromGooglePlaces_typed Model.Number_toString Model.StringToNumber true
              (VStr "Real Estate Agent") (Some 10%Z) one_page)
    as (out & H1 & H2 & _).
  - reflexivity.
  - intros n data places Hs Hr. destruct n as [|n]; [|discriminate].
    injection Hs as <-. injection Hr as <-.
    constructor; [|constructor].
    split; [reflexivity|]. split; [reflexivity|].
    intros status d [= <- <-]. repeat split; reflexivity.
  - exists out. auto.
Defined.

(** The record built for that place. *)
Lemma fetchFromGooglePlaces_example :
  option_map (fun out => fields_of ["business_name"; "street"; "city"; "state";
                                   "postal_code"; "country"; "phone"; "website";
                                   "confidence"; "notes"; "google_types";
                                   "is_operational"] (Normal out))
    (fetchFromGooglePlaces Model.Number_toString Model.StringToNumber true
       (VStr "Real Estate Agent") (Some 10%Z) one_page)
  = Some (Some [[VStr "ABC Realty"; VStr "123 Main St, Tampa, FL 33602, USA";
                 VStr "Tampa"; VStr "FL"; VStr "33602"; VStr "USA";
                 VStr "(813) 555-1234"; VStr "http://www.abcrealty.com/";
                 VNum (dec 1 1); VStr "Rating: 5 (12 reviews)";
                 VStr "real_estate_agency, point_of_interest"; VBool true]]).
Proof. vm_compute. reflexivity. Qed.

(** ** The industry mapper *)

Lemma mapping_of_key (key value : string) :
  In (key, value) INDUSTRY_MAPPINGS -> mapping_of key = Some value.
Proof.
  intros Hin.
  assert (forallb (fun kv => match mapping_of kv.1 with
                             | Some v => String.eqb v kv.2
                             | None => false
                             end) INDUSTRY_MAPPINGS = true) as Hall
    by (vm_compute; reflexivity).
  rewrite forallb_forall in Hall. specialize (Hall _ Hin). cbn [fst snd] in Hall.
  destruct (mapping_of key) as [v|]; [|discriminate].
  apply String.eqb_eq in Hall. congruence.
Qed.

(** X25.  A category that is a key of the table once lower-cased and
    trimmed is replaced by the value of that key, whatever other keys it
    contains or is contained in. *)
Theorem optimizeSearchQuery_key (category location key value : string) :
  In (key, value) INDUSTRY_MAPPINGS ->
  Str.trim (Str.toLowerCase category) = key ->
  optimizeSearchQuery category location = value +:+ " in " +:+ location.
Proof.
  intros Hin Hkey. unfold optimizeSearchQuery. rewrite Hkey.
  rewrite (mapping_of_key _ _ Hin). reflexivity.
Qed.

Lemma optimizeSearchQuery_key_witness :
  optimizeSearchQuery "  Lawn CARE " "Tampa, FL" = "lawn care service in Tampa, FL"
  /\ optimizeSearchQuery "Gutter" "Tampa, FL" = "gutter cleaning service in Tampa, FL".
Proof.
  split.
  - apply (optimizeSearchQuery_key "  Lawn CARE " "Tampa, FL" "lawn care"
             "lawn care service").
    + simpl. tauto.
    + reflexivity.
  - apply (optimizeSearchQuery_key "Gutter" "Tampa, FL" "gutter"
             "gutter cleaning service").
    + simpl. tauto.
    + reflexivity.
Defined.

(** X26.  A category that is empty or blank is contained in every key:
    the query is that of the first entry of the table,
    [lawn care service]. *)
Theorem optimizeSearchQuery_blank (category location : string) :
  Str.trim (Str.toLowerCase category) = "" ->
  optimizeSearchQuery category location = "lawn care service in " +:+ location.
Proof.
  intros Hblank. unfold optimizeSearchQuery. rewrite Hblank. reflexivity.
Qed.

Lemma optimizeSearchQuery_blank_witness :
  optimizeSearchQuery "   " "Tampa, FL" = "lawn care service in Tampa, FL".
Proof. apply (optimizeSearchQuery_blank "   " "Tampa, FL"). reflexivity. Defined.

Lemma includes_app (pre sub post : string) :
  Str.includes (pre +:+ sub +:+ post) sub = true.
Proof.
  induction pre as [|c pre IH].
  - change ("" +:+ sub +:+ post) with (sub +:+ post).
    destruct (sub +:+ post) eqn:E; cbn [Str.includes];
      rewrite <- E, startsWith_app; reflexivity.
  - rewrite app_String. cbn [Str.includes]. rewrite IH. apply orb_true_r.
Qed.

(** X27.  [getIndustrySuggestions] returns the first ten keys of the
    table that contain the lower-cased input, in the order of the table:
    every suggestion is such a key, and every such key is suggested when
    there are at most ten. *)
Theorem getIndustrySuggestions_keys (partial : string) :
  let lower := Str.toLowerCase partial in
  let matching := List.filter (fun key => Str.includes key lower) INDUSTRY_MAPPINGS.*1 in
  length (getIndustrySuggestions partial) = Nat.min 10 (length matching)
  /\ getIndustrySuggestions partial = take 10 matching
  /\ (forall key, key ∈ getIndustrySuggestions partial ->
        Str.includes key lower = true
        /\ exists value, In (key, value) INDUSTRY_MAPPINGS)
  /\ (length matching <= 10 ->
      forall key value, In (key, value) INDUSTRY_MAPPINGS ->
        Str.includes key lower = true -> key ∈ getIndustrySuggestions partial).
Proof.
  intros lower matching.
  assert (getIndustrySuggestions partial = take 10 matching) as Heq.
  { unfold getIndustrySuggestions. fold lower matching.
    apply (Array_slice0_nonneg 10). lia. }
  assert (forall key, key ∈ matching <->
                      Str.includes key lower = true
                      /\ exists value, In (key, value) INDUSTRY_MAPPINGS) as Hm.
  { intros key. unfold matching. rewrite list_elem_of_In, filter_In, <- list_elem_of_In.
    rewrite list_elem_of_fmap. split.
    - intros [([k v] & -> & Hin) Hinc]. split; [exact Hinc|].
      exists v. apply list_elem_of_In, Hin.
    - intros [Hinc (v & Hin)]. split; [|exact Hinc].
      exists (key, v). split; [reflexivity | apply list_elem_of_In, Hin]. }
  split; [rewrite Heq, length_take; reflexivity|]. split; [exact Heq|]. split.
  - intros key Hin. apply Hm. rewrite Heq in Hin. exact (subseteq_take _ _ _ Hin).
  - intros Hlen key value Hin Hinc. rewrite Heq, take_ge by exact Hlen.
    apply Hm. eauto.
Qed.

(** ** The record normalizer: when it throws *)

(** X4.  [normalizeRecord] throws exactly on the candidates that are
    not well typed (a trimmed field that holds neither a string nor an
    absent value, or a truthy [phone] that is not a string); what it throws
    is a [TypeError], and one ill-typed trimmed field is enough. *)
Theorem normalizeRecord_throws (URL_href : string -> option string) (r : record) :
  (well_typed r = false <-> exists e, normalizeRecord URL_href r = Throw e)
  /\ (forall e, normalizeRecord URL_href r = Throw e -> exists m, e = TypeError m)
  /\ (forall k, In k trimmed_fields -> text_or_absent (get r k) = false ->
        exists m, normalizeRecord URL_href r = Throw (TypeError m)).
Proof.
  assert (well_typed r = false -> exists m, normalizeRecord URL_href r = Throw (TypeError m))
    as Hill by apply normalizeRecord_ill_typed.
  assert (forall e, normalizeRecord URL_href r = Throw e -> well_typed r = false) as Hconv.
  { intros e He. destruct (well_typed r) eqn:Hw; [|reflexivity].
    destruct (normalizeRecord_well_typed URL_href r Hw) as (c & Hc & _). congruence. }
  split; [split|split].
  - intros Hw. destruct (Hill Hw) as [m Hm]. eauto.
  - intros [e He]. exact (Hconv e He).
  - intros e He. destruct (Hill (Hconv e He)) as [m Hm]. exists m. congruence.
  - intros k Hk Ht. apply Hill. unfold well_typed.
    apply andb_false_iff. left.
    destruct (forallb _ trimmed_fields) eqn:E; [|reflexivity].
    rewrite forallb_forall in E. rewrite (E k Hk) in Ht. discriminate.
Qed.

(** ** Confidence of an OpenCorporates candidate *)

Lemma toLowerCase_app (s t : string) :
  Str.toLowerCase (s +:+ t) = Str.toLowerCase s +:+ Str.toLowerCase t.
Proof.
  unfold Str.toLowerCase. induction s as [|c s IH]; [reflexivity|].
  rewrite app_String. simpl. rewrite IH. reflexivity.
Qed.

(** X28.  When [calculateConfidence] of the OpenCorporates collector
    returns, its value is the double nearest to 0.40 plus 0.30 for the
    status, 0.15 or 0.10 for the date and 0.15 for the address, and lies
    between 0.4 and 1.  The points of the status are given to every status
    that contains the word [active] in any case, a status such as
    [Inactive] included. *)
Theorem oc_calculateConfidence_value (Number_toString : number -> string)
    (currentYear : Z) (company : record) (c : number) :
  OpenCorporates.calculateConfidence Number_toString currentYear company = Normal c ->
  (exists status recency address : Z,
     c = dec (40 + status + recency + address) 100
     /\ (status = 0 \/ status = 30)%Z
     /\ (recency = 0 \/ recency = 10 \/ recency = 15)%Z
     /\ (address = 0 \/ address = 15)%Z
     /\ (status = 30%Z <->
         truthy (get company "current_status")
         && OpenCorporates.active_test
              (ToString Number_toString (get company "current_status")) = true)
     /\ (address = 15%Z <-> truthy (get company "registered_address_in_full") = true))
  /\ SFleb (dec 4 10) c = true /\ SFleb c num_one = true
  /\ (forall pre word post,
        get company "current_status" = VStr (pre +:+ word +:+ post) ->
        Str.toLowerCase word = "active" ->
        SFleb (dec 7 10) c = true).
Proof.
  unfold OpenCorporates.calculateConfidence.
  set (status := truthy (get company "current_status")
                 && OpenCorporates.active_test
                      (ToString Number_toString (get company "current_status"))).
  set (address := truthy (get company "registered_address_in_full")).
  intros H.
  assert (exists recency,
            (recency = 0 \/ recency = 10 \/ recency = 15)%Z
            /\ c = Math_min (dec 1 1)
                     (num_div (Math_round (num_mul
                        (let s := if status then num_add (dec 4 10) (dec 3 10) else dec 4 10 in
                         let s := if (recency =? 15)%Z then num_add s (dec 15 100)
                                  else if (recency =? 10)%Z then num_add s (dec 1 10) else s in
                         if address then num_add s (dec 15 100) else s)
                        (dec 100 1))) (dec 100 1))) as (recency & Hr & ->).
  { apply bind_Normal in H as (score & Hs & H). injection H as <-.
    destruct (truthy (get company "incorporation_date")).
    2:{ injection Hs as <-. exists 0%Z. split; [auto | reflexivity]. }
    destruct (get company "incorporation_date"); try discriminate.
    destruct (OpenCorporates.year_match s) as [y|].
    2:{ injection Hs as <-. exists 0%Z. split; [auto | reflexivity]. }
    destruct (_ <=? 5)%Z.
    { injection Hs as <-. exists 15%Z. split; [auto | reflexivity]. }
    destruct (_ <=? 10)%Z; injection Hs as <-;
      [exists 10%Z | exists 0%Z]; (split; [auto | reflexivity]). }
  assert (status = true ->
          SFleb (dec 7 10)
            (Math_min (dec 1 1)
               (num_div (Math_round (num_mul
                  (let s := if status then num_add (dec 4 10) (dec 3 10) else dec 4 10 in
                   let s := if (recency =? 15)%Z then num_add s (dec 15 100)
                            else if (recency =? 10)%Z then num_add s (dec 1 10) else s in
                   if address then num_add s (dec 15 100) else s)
                  (dec 100 1))) (dec 100 1))) = true) as Hactive.
  { intros ->. destruct Hr as [-> | [-> | ->]]; destruct address; vm_compute; reflexivity. }
  split; [|split; [|split]].
  - exists (bonus status 30), recency, (bonus address 15).
    split; [|split; [|split; [|split; [|split]]]].
    + destruct Hr as [-> | [-> | ->]]; destruct status, address; vm_compute; reflexivity.
    + destruct status; auto.
    + exact Hr.
    + destruct address; auto.
    + fold status. destruct status; simpl; split; auto; discriminate.
    + fold address. destruct address; simpl; split; auto; discriminate.
  - destruct Hr as [-> | [-> | ->]]; destruct status, address; vm_compute; reflexivity.
  - destruct Hr as [-> | [-> | ->]]; destruct status, address; vm_compute; reflexivity.
  - intros pre word post Hst Hword. apply Hactive. unfold status.
    rewrite Hst. cbn [ToString truthy]. unfold OpenCorporates.active_test.
    rewrite !toLowerCase_app, Hword, includes_app, orb_true_l, andb_true_r.
    apply negb_true_iff, String.eqb_neq. intros Habs.
    apply (f_equal Str.toLowerCase) in Habs.
    rewrite !toLowerCase_app, Hword in Habs.
    destruct (Str.toLowerCase pre); discriminate.
Qed.

Lemma oc_calculateConfidence_value_witness :
  OpenCorporates.calculateConfidence Model.Number_toString 2025 inactive_company
    = Normal (dec 85 100)
  /\ SFleb (dec 7 10) (dec 85 100) = true.
Proof.
  assert (OpenCorporates.calculateConfidence Model.Number_toString 2025 inactive_company
          = Normal (dec 85 100)) as H by (vm_compute; reflexivity).
  split; [exact H|].
  destruct (oc_calculateConfidence_value Model.Number_toString 2025 inactive_company
              (dec 85 100) H) as (_ & _ & _ & Hactive).
  apply (Hactive "In" "active" ""); reflexivity.
Defined.

(** ** The handlers of [/run] *)

Lemma split_param_Normal (name : string) (v : value) :
  string_or_falsy v = true -> split_param name v = Normal tt.
Proof.
  unfold split_param. destruct v as [| |[]|x|s|o]; simpl; try discriminate; auto.
  - destruct (is_zero x || is_nan x); simpl; [reflexivity | discriminate].
  - destruct (String.eqb s ""); reflexivity.
Qed.

Lemma split_param_Throw (name : string) (v : value) :
  string_or_falsy v = false ->
  split_param name v = Throw (TypeError (name +:+ ".split is not a function")).
Proof.
  unfold split_param. destruct v as [| |[]|x|s|o]; simpl; try discriminate; auto.
  destruct (is_zero x || is_nan x); simpl; [discriminate | reflexivity].
Qed.

(** X29.  The handlers of [/run] answer 400 when the category or the
    location is missing (the empty string included), without running
    anything; otherwise [POST /run] always answers 200, and [GET /run]
    answers 200 unless [synonyms] or [sources] holds something truthy that
    is not a string, where it answers 500.  A failure of the language model
    is answered with 200: the body has no rows and the message in
    [meta.error]. *)
Theorem run_status (URL_href : string -> option string)
    (Number_toString : number -> string) (StringToNumber : string -> number)
    (Date_now Math_random : nat -> number) (parseInt : value -> option Z)
    (request : record) (maxResults : option Z) (llm : completion (option llm_result)) :
  let get_run := get_run URL_href Number_toString StringToNumber Date_now Math_random
                   parseInt request llm in
  let post_run := post_run URL_href Number_toString StringToNumber Date_now Math_random
                    request maxResults llm in
  let failed (rs : ResultSet) :=
    forall e, llm = Throw e ->
      rows rs = RowsArray []
      /\ meta rs !! "error" = Some (MValue (VStr (message_of e))) in
  let category := truthy (get request "category") in
  let location := truthy (js_or (get request "geo") (get request "geography")) in
  let splits := string_or_falsy (get request "synonyms")
                && string_or_falsy (get request "sources") in
  (category && location = false ->
   get_run = BadRequest "Missing required parameters")
  /\ (category && location = true -> splits = true ->
      exists rs, get_run = Ok rs /\ failed rs)
  /\ (category && location = true -> splits = false ->
      exists m, get_run = ServerError "Collection failed" m)
  /\ (category && truthy (get request "geography") = false ->
      post_run = BadRequest "Missing required fields")
  /\ (category && truthy (get request "geography") = true ->
      exists rs, post_run = Ok rs /\ failed rs).
Proof.
  intros get_run0 post_run0 failed category location splits.
  assert (forall c g m, exists rs,
            orchestrate URL_href Number_toString StringToNumber Date_now Math_random
              c g m llm = Normal rs /\ failed rs) as Horch.
  { intros c g m. unfold orchestrate.
    destruct (orchestrate_try _ _ _ _ _ llm) as [rs|e] eqn:E; simpl.
    - exists rs. split; [reflexivity|]. intros e' ->. discriminate.
    - eexists. split; [reflexivity|]. intros e' ->. simpl in E. injection E as <-.
      split; [reflexivity|]. simpl.
      rewrite !lookup_insert_ne by discriminate. apply lookup_insert_eq. }
  unfold get_run0, post_run0, get_run, post_run.
  fold category location.
  split; [|split; [|split; [|split]]].
  - intros H. apply andb_false_iff in H as [-> | ->]; simpl;
      rewrite ?orb_true_r; reflexivity.
  - intros [-> ->]%andb_prop [Hs1 Hs2]%andb_prop. simpl.
    rewrite (split_param_Normal _ _ Hs1), (split_param_Normal _ _ Hs2). simpl.
    match goal with |- context [orchestrate _ _ _ _ _ ?c ?g ?m llm] =>
      destruct (Horch c g m) as (rs & -> & Hf) end.
    eauto.
  - intros [-> ->]%andb_prop Hs. simpl.
    apply andb_false_iff in Hs as [Hs | Hs].
    + rewrite (split_param_Throw _ _ Hs). simpl. eauto.
    + destruct (string_or_falsy (get request "synonyms")) eqn:Hs1.
      * rewrite (split_param_Normal _ _ Hs1), (split_param_Throw _ _ Hs). simpl. eauto.
      * rewrite (split_param_Throw _ _ Hs1). simpl. eauto.
  - intros H. apply andb_false_iff in H as [-> | ->]; simpl;
      rewrite ?orb_true_r; reflexivity.
  - intros [-> ->]%andb_prop. simpl.
    match goal with |- context [orchestrate _ _ _ _ _ ?c ?g ?m llm] =>
      destruct (Horch c g m) as (rs & -> & Hf) end.
    eauto.
Qed.
